(** * Device-dispatch runtime: HSA platform and CUDA driver path

    Shallow embedding of [src/hsa_platform.cpp] (device discovery, region
    allocation, the program/kernel cache, argument packing, AQL dispatch and
    the GCN pipeline front) and of [cuda/cu_runtime.cpp] (grid geometry and
    launch), followed by the properties proved about them.

    Conventions.
    - Fixed-width integers are [Z] with the wrap-around written out
      ([wrap32], [wrap64]); handles and addresses are [Z].
    - [std::unordered_map] is [gmap], and the order in which a loop runs
      through one is asked from the outside; [std::string] is [string].
    - Calls into the HSA runtime, LLVM, the file system and the logger are
      recorded, in program order, in the [trace] of the [World]; what the
      outside answers is read from an oracle ([Driver]).
    - [error(...)] terminates the process: outcome [Fatal]. Behaviour the C++
      standard leaves undefined (division by zero, null dereference, index
      out of range) is outcome [Undefined]. *)

From Stdlib Require Import ZArith Lia String Ascii.
From stdpp Require Import base option list gmap strings pretty.

Open Scope Z_scope.

(** ** Machine integers *)

Definition wrap32 (x : Z) : Z := x mod 2 ^ 32.
Definition wrap64 (x : Z) : Z := x mod 2 ^ 64.
Definition wrap16 (x : Z) : Z := x mod 2 ^ 16.
Definition UINT32_MAX : Z := 2 ^ 32 - 1.
Definition UINT64_MAX : Z := 2 ^ 64 - 1.
Definition INT_MAX : Z := 2 ^ 31 - 1.
Definition INT_MIN : Z := - 2 ^ 31.

(** ** Outcomes and the runtime monad *)

Inductive outcome (A : Type) : Type :=
| Ret (a : A)
| Fatal (msg : string)
| Undefined (why : string).
Arguments Ret {A} a.
Arguments Fatal {A} msg.
Arguments Undefined {A} why.

Definition is_Ret {A} (o : outcome A) : bool :=
  match o with Ret _ => true | _ => false end.

Definition is_Fatal {A} (o : outcome A) : bool :=
  match o with Fatal _ => true | _ => false end.

(** Names of the HSA runtime entry points the platform calls. *)
Inductive hsa_api : Type :=
| hsa_init | hsa_shut_down | hsa_system_get_info | hsa_iterate_agents
| hsa_agent_get_info | hsa_isa_get_info_alt | hsa_agent_iterate_regions
| hsa_region_get_info
| hsa_queue_create | hsa_queue_destroy
| hsa_amd_profiling_set_profiler_enabled | hsa_amd_profiling_get_dispatch_time
| hsa_signal_create | hsa_signal_destroy
| hsa_signal_add_relaxed | hsa_signal_subtract_relaxed
| hsa_signal_store_relaxed | hsa_signal_wait_relaxed
| hsa_queue_load_write_index_relaxed | hsa_queue_store_write_index_relaxed
| hsa_memory_allocate | hsa_memory_free | hsa_memory_copy
| hsa_code_object_reader_create_from_memory | hsa_code_object_reader_destroy
| hsa_executable_create_alt | hsa_executable_load_agent_code_object
| hsa_executable_freeze | hsa_executable_validate | hsa_executable_destroy
| hsa_executable_get_symbol_by_name | hsa_executable_symbol_get_info
| hsa_status_string.

Global Instance hsa_api_eq_dec : EqDecision hsa_api.
Proof. solve_decision. Defined.

(** Stages of the LLVM pipeline entered by [emit_gcn]. *)
Inductive llvm_op : Type :=
| LLVMInitializeAMDGPU
| parseIR (text : string)
| lookupTarget (triple : string)
| createTargetMachine (triple cpu : string)
| parseIRFile (path : string)
| setDataLayout
| linkInModule (what : string)
| populatePasses (opt : Z)
| addPassesToEmitFile
| runFunctionPasses
| runModulePasses.

Global Instance llvm_op_eq_dec : EqDecision llvm_op.
Proof. solve_decision. Defined.

(** [hsa_kernel_dispatch_packet_t], the fields [launch_kernel] sets; the
    [memset] leaves every other field zero. *)
Record hsa_kernel_dispatch_packet_t : Type := {
  header : Z;
  setup : Z;
  workgroup_size_x : Z;
  workgroup_size_y : Z;
  workgroup_size_z : Z;
  grid_size_x : Z;
  grid_size_y : Z;
  grid_size_z : Z;
  private_segment_size : Z;
  group_segment_size : Z;
  kernel_object : Z;
  kernarg_address : Z;
  completion_signal : Z
}.

Global Instance packet_eq_dec : EqDecision hsa_kernel_dispatch_packet_t.
Proof. solve_decision. Defined.

(** What the program does to the outside, in program order. *)
Inductive event : Type :=
| EvHsa (api : hsa_api) (args : list Z)
| EvQuery (api : hsa_api) (handle : Z) (what : string)
| EvMemcpy (dst src n : Z)
| EvPacketWrite (queue slot : Z) (aql : hsa_kernel_dispatch_packet_t)
| EvLock (dev : Z)
| EvUnlock (dev : Z)
| EvDebug (msg : string)
| EvInfo (msg : string)
| EvLlvm (op : llvm_op)
| EvStoreFile (path : string)
| EvSystem (cmd : string)
| EvDetach (launch_signal signal dev : Z).

Global Instance event_eq_dec : EqDecision event.
Proof. solve_decision. Defined.

Definition HSA_STATUS_SUCCESS : Z := 0.

(** [std::tuple<uint64_t, uint32_t, uint32_t, uint32_t>] of [load_kernel]:
    kernel object, kernarg, group and private segment sizes. *)
Definition kernel_info : Type := (Z * Z * Z * Z)%type.

Definition kernarg_size (k : kernel_info) : Z :=
  let '(_, kernarg_segment_size, _, _) := k in kernarg_segment_size.

(** [hsa_queue_t] as the platform uses it, with the ring buffer behind
    [base_address] and the write index the runtime keeps for the queue. *)
Record hsa_queue_t : Type := {
  q_size : Z;
  q_doorbell_signal : Z;
  q_ring : gmap Z hsa_kernel_dispatch_packet_t;
  q_write_index : Z
}.

(** [HSAPlatform::DeviceData]. A null [queue] is [None]. *)
Record DeviceData : Type := {
  agent : Z;
  profile : Z;
  float_mode : Z;
  isa : string;
  queue : option Z;
  signal : Z;
  kernarg_region : Z;
  finegrained_region : Z;
  coarsegrained_region : Z;
  programs : gmap string Z;
  kernels : gmap Z (gmap string kernel_info)
}.

(** The platform object together with the part of the machine it acts on. *)
Record World : Type := {
  devices_ : list DeviceData;
  files_ : gmap string string;
  frequency_ : Z;
  profiling_enabled : bool;
  fs : gmap string string;
  mem : gmap Z Z;
  signals : gmap Z Z;
  queues : gmap Z hsa_queue_t;
  next_handle : Z;
  trace : list event
}.

Definition M (A : Type) : Type := World → outcome A * World.

Definition ret {A} (a : A) : M A := λ w, (Ret a, w).

Definition bind {A B} (m : M A) (k : A → M B) : M B := λ w,
  match m w with
  | (Ret a, w') => k a w'
  | (Fatal msg, w') => (Fatal msg, w')
  | (Undefined why, w') => (Undefined why, w')
  end.

Notation "x <- m ;; k" := (bind m (λ x, k))
  (at level 100, m at next level, right associativity).
Notation "m ;;; k" := (bind m (λ _, k))
  (at level 100, right associativity).

Definition error {A} (msg : string) : M A := λ w, (Fatal msg, w).
Definition undefined {A} (why : string) : M A := λ w, (Undefined why, w).
Definition get : M World := λ w, (Ret w, w).
Definition modify (f : World → World) : M unit := λ w, (Ret tt, f w).

Definition set_trace (t : list event) (w : World) : World :=
  {| devices_ := devices_ w; files_ := files_ w; frequency_ := frequency_ w;
     profiling_enabled := profiling_enabled w; fs := fs w; mem := mem w;
     signals := signals w; queues := queues w; next_handle := next_handle w;
     trace := t |}.

Definition set_mem (m : gmap Z Z) (w : World) : World :=
  {| devices_ := devices_ w; files_ := files_ w; frequency_ := frequency_ w;
     profiling_enabled := profiling_enabled w; fs := fs w; mem := m;
     signals := signals w; queues := queues w; next_handle := next_handle w;
     trace := trace w |}.

Definition set_signals (s : gmap Z Z) (w : World) : World :=
  {| devices_ := devices_ w; files_ := files_ w; frequency_ := frequency_ w;
     profiling_enabled := profiling_enabled w; fs := fs w; mem := mem w;
     signals := s; queues := queues w; next_handle := next_handle w;
     trace := trace w |}.

Definition set_queues (q : gmap Z hsa_queue_t) (w : World) : World :=
  {| devices_ := devices_ w; files_ := files_ w; frequency_ := frequency_ w;
     profiling_enabled := profiling_enabled w; fs := fs w; mem := mem w;
     signals := signals w; queues := q; next_handle := next_handle w;
     trace := trace w |}.

Definition set_next_handle (n : Z) (w : World) : World :=
  {| devices_ := devices_ w; files_ := files_ w; frequency_ := frequency_ w;
     profiling_enabled := profiling_enabled w; fs := fs w; mem := mem w;
     signals := signals w; queues := queues w; next_handle := n;
     trace := trace w |}.

Definition set_devices (d : list DeviceData) (w : World) : World :=
  {| devices_ := d; files_ := files_ w; frequency_ := frequency_ w;
     profiling_enabled := profiling_enabled w; fs := fs w; mem := mem w;
     signals := signals w; queues := queues w; next_handle := next_handle w;
     trace := trace w |}.

Definition set_files (f : gmap string string) (w : World) : World :=
  {| devices_ := devices_ w; files_ := f; frequency_ := frequency_ w;
     profiling_enabled := profiling_enabled w; fs := fs w; mem := mem w;
     signals := signals w; queues := queues w; next_handle := next_handle w;
     trace := trace w |}.

Definition set_fs (f : gmap string string) (w : World) : World :=
  {| devices_ := devices_ w; files_ := files_ w; frequency_ := frequency_ w;
     profiling_enabled := profiling_enabled w; fs := f; mem := mem w;
     signals := signals w; queues := queues w; next_handle := next_handle w;
     trace := trace w |}.

Definition set_frequency (f : Z) (w : World) : World :=
  {| devices_ := devices_ w; files_ := files_ w; frequency_ := f;
     profiling_enabled := profiling_enabled w; fs := fs w; mem := mem w;
     signals := signals w; queues := queues w; next_handle := next_handle w;
     trace := trace w |}.

Definition emit (e : event) : M unit :=
  modify (λ w, set_trace (trace w ++ [e]) w).

Definition debug (msg : string) : M unit := emit (EvDebug msg).
Definition info (msg : string) : M unit := emit (EvInfo msg).

(** A fresh handle (signal, queue, executable, reader) or address. *)
Definition fresh : M Z := λ w,
  (Ret (next_handle w), set_next_handle (next_handle w + 1) w).

(** ** The outside world: HSA runtime, LLVM, linker *)

(** A memory region as [hsa_region_get_info] describes it. *)
Record RegionInfo : Type := {
  r_handle : Z;
  r_segment : Z;
  r_global_flags : Z;
  r_runtime_alloc_allowed : bool
}.

(** An agent as [hsa_agent_get_info] and [hsa_isa_get_info_alt] describe it. *)
Record AgentInfo : Type := {
  a_name : string;
  a_vendor_name : string;
  a_profile : Z;
  a_float_rounding_mode : Z;
  a_isa : Z;
  a_isa_name : string;
  a_device_type : Z;
  a_version_major : Z;
  a_version_minor : Z;
  a_queue_max_size : Z;
  a_regions : list RegionInfo
}.

(** Answers of the outside. [drv_status n api] is the [hsa_status_t] of the
    call to [api] made when [n] events have been recorded, so that any single
    call can fail. [drv_map_order n l] is the order in which a range-[for]
    over a [std::unordered_map] holding the entries [l], started when [n]
    events have been recorded, yields them: the standard leaves it
    unspecified. *)
Record Driver : Type := {
  drv_status : nat → hsa_api → Z;
  drv_map_order : nat → list (string * Z) → list (string * Z);
  drv_agents : list Z;
  drv_agent : Z → AgentInfo;
  drv_symbol : Z → string → kernel_info;
  drv_validate : Z → Z;
  drv_wait : nat → Z → Z;
  drv_dispatch_time : Z → Z * Z;
  drv_timestamp_frequency : Z;
  llvm_parse_ok : string → bool;
  llvm_triple : string → string;
  llvm_target_ok : string → bool;
  llvm_file_ok : string → bool;
  llvm_link_fails : string → bool;
  llvm_codegen : string → string → string;
  fs_writable : string → bool;
  ld_lld : string → option string
}.

(** Enumerators of [hsa.h] used as plain numbers by the platform. *)
Definition HSA_PROFILE_BASE : Z := 0.
Definition HSA_PROFILE_FULL : Z := 1.
Definition HSA_DEVICE_TYPE_CPU : Z := 0.
Definition HSA_DEVICE_TYPE_GPU : Z := 1.
Definition HSA_DEVICE_TYPE_DSP : Z := 2.
Definition HSA_REGION_SEGMENT_GLOBAL : Z := 0.
Definition HSA_REGION_SEGMENT_READONLY : Z := 1.
Definition HSA_REGION_SEGMENT_PRIVATE : Z := 2.
Definition HSA_REGION_SEGMENT_GROUP : Z := 3.
Definition HSA_REGION_SEGMENT_KERNARG : Z := 4.
Definition HSA_REGION_GLOBAL_FLAG_KERNARG : Z := 1.
Definition HSA_REGION_GLOBAL_FLAG_FINE_GRAINED : Z := 2.
Definition HSA_REGION_GLOBAL_FLAG_COARSE_GRAINED : Z := 4.
Definition HSA_QUEUE_TYPE_SINGLE : Z := 1.
Definition HSA_FENCE_SCOPE_SYSTEM : Z := 2.
Definition HSA_PACKET_TYPE_KERNEL_DISPATCH : Z := 2.
Definition HSA_PACKET_HEADER_TYPE : Z := 0.
Definition HSA_PACKET_HEADER_ACQUIRE_FENCE_SCOPE : Z := 9.
Definition HSA_PACKET_HEADER_RELEASE_FENCE_SCOPE : Z := 11.
Definition HSA_KERNEL_DISPATCH_PACKET_SETUP_DIMENSIONS : Z := 0.
Definition HSA_SIGNAL_CONDITION_EQ : Z := 0.
Definition HSA_WAIT_STATE_ACTIVE : Z := 1.

Definition get_device_profile_str (profile : Z) : string :=
  if decide (profile = HSA_PROFILE_BASE) then "HSA_PROFILE_BASE"
  else if decide (profile = HSA_PROFILE_FULL) then "HSA_PROFILE_FULL"
  else "unknown HSA profile".

Definition get_device_type_str (device_type : Z) : string :=
  if decide (device_type = HSA_DEVICE_TYPE_CPU) then "HSA_DEVICE_TYPE_CPU"
  else if decide (device_type = HSA_DEVICE_TYPE_GPU) then "HSA_DEVICE_TYPE_GPU"
  else if decide (device_type = HSA_DEVICE_TYPE_DSP) then "HSA_DEVICE_TYPE_DSP"
  else "unknown HSA device type".

Definition get_region_segment_str (region_segment : Z) : string :=
  if decide (region_segment = HSA_REGION_SEGMENT_GLOBAL) then "HSA_REGION_SEGMENT_GLOBAL"
  else if decide (region_segment = HSA_REGION_SEGMENT_READONLY) then "HSA_REGION_SEGMENT_READONLY"
  else if decide (region_segment = HSA_REGION_SEGMENT_PRIVATE) then "HSA_REGION_SEGMENT_PRIVATE"
  else if decide (region_segment = HSA_REGION_SEGMENT_GROUP) then "HSA_REGION_SEGMENT_GROUP"
  else if decide (region_segment = HSA_REGION_SEGMENT_KERNARG) then "HSA_REGION_SEGMENT_KERNARG"
  else "unknown HSA region segment".

(** ** [std::string] operations used by the platform *)

Fixpoint rfind_from (c : ascii) (s : string) (i : nat) (last : option nat) : option nat :=
  match s with
  | EmptyString => last
  | String a s' => rfind_from c s' (S i) (if Ascii.eqb a c then Some i else last)
  end.

(** [s.rfind(c)]; [None] is [std::string::npos]. *)
Definition rfind (c : ascii) (s : string) : option nat := rfind_from c s 0 None.

(** [s.substr(pos)] for [pos <= s.size()]. *)
Definition substr (pos : nat) (s : string) : string :=
  String.substring pos (String.length s - pos) s.

(** [s.compare(0, n, t) == 0]: the first [n] characters of [s] (fewer when
    [s] is shorter) are exactly [t]. *)
Definition compare_prefix_eq (s : string) (n : nat) (t : string) : bool :=
  String.eqb (String.substring 0 n s) t.

Definition is_digit (c : ascii) : bool :=
  let n := Z.of_nat (nat_of_ascii c) in (48 <=? n) && (n <=? 57).

Definition digit_val (c : ascii) : Z := Z.of_nat (nat_of_ascii c) - 48.

(** [isspace] in the C locale. *)
Definition is_space (c : ascii) : bool :=
  let n := Z.of_nat (nat_of_ascii c) in (n =? 32) || ((9 <=? n) && (n <=? 13)).

Fixpoint skip_spaces (s : string) : string :=
  match s with
  | String c s' => if is_space c then skip_spaces s' else s
  | EmptyString => s
  end.

(** The digits at the front of [s] folded into [acc]; the flag tells whether
    any digit was read. *)
Fixpoint read_digits (s : string) (acc : Z) (any : bool) : Z * bool :=
  match s with
  | String c s' =>
      if is_digit c then read_digits s' (acc * 10 + digit_val c) true
      else (acc, any)
  | EmptyString => (acc, any)
  end.

(** [std::stoi(s)]: leading white space, an optional sign, decimal digits.
    [None] stands for the exception thrown when no digit can be read
    ([std::invalid_argument]) or when the value does not fit [int]
    ([std::out_of_range]). *)
Definition stoi (s : string) : option Z :=
  let s1 := skip_spaces s in
  let '(neg, s2) :=
    match s1 with
    | String "-"%char r => (true, r)
    | String "+"%char r => (false, r)
    | _ => (false, s1)
    end in
  let '(v, any) := read_digits s2 0 false in
  let v := if neg then - v else v in
  if any && (INT_MIN <=? v) && (v <=? INT_MAX) then Some v else None.

(** [std::to_string(int)]. *)
Definition to_string (n : Z) : string := pretty n.

Section Platform.

Variable drv : Driver.

(** ** Calls into the HSA runtime *)

(** A call whose status the caller receives. *)
Definition hsa_call (api : hsa_api) (args : list Z) : M Z := λ w,
  (Ret (drv_status drv (length (trace w)) api),
   set_trace (trace w ++ [EvHsa api args]) w).

(** A call made for its effect, without a status ([hsa_signal_add_relaxed]
    and the like). *)
Definition hsa_do (api : hsa_api) (args : list Z) : M unit :=
  emit (EvHsa api args).

(** [check_hsa_error], behind the macro [CHECK_HSA]. *)
Definition CHECK_HSA (err : Z) (name : string) : M unit :=
  if decide (err = HSA_STATUS_SUCCESS) then ret tt
  else
    r <- hsa_call hsa_status_string [err] ;;
    (if decide (r = HSA_STATUS_SUCCESS) then ret tt
     else info "hsa_status_string failed") ;;;
    error ("HSA API function " +:+ name).

(** [hsa_memory_allocate(region, size, &ptr)]: on success [ptr] is the start
    of [size] fresh bytes. *)
Definition memory_allocate (region size : Z) : M (Z * Z) :=
  status <- hsa_call hsa_memory_allocate [region; size] ;;
  if decide (status = HSA_STATUS_SUCCESS) then
    λ w, (Ret (status, next_handle w),
          set_next_handle (next_handle w + Z.max size 1) w)
  else ret (status, 0).

(** ** Memory manager, [alloc_hsa] and [release] *)

(** [HSAPlatform::alloc_hsa]; the null pointer is [0]. The [int64_t] size is
    converted to the [size_t] the driver takes. *)
Definition alloc_hsa (size : Z) (region : Z) : M Z :=
  if decide (size = 0) then ret 0
  else
    r <- memory_allocate region (wrap64 size) ;;
    let '(status, mem_ptr) := r in
    CHECK_HSA status "hsa_memory_allocate()" ;;;
    ret mem_ptr.


(** ** Argument packing *)

(** The lambda [align_address] of [launch_kernel], on [size_t]. Division by
    zero is undefined. *)
Definition align_address (base align : Z) : outcome Z :=
  let align := if decide (align > 8) then 8 else align in
  if decide (align = 0) then Undefined "division by zero"
  else Ret (wrap64 (wrap64 (base + align - 1) / align * align)).

Definition lift {A} (o : outcome A) : M A := λ w, (o, w).

(** The bytes [std::memcpy(dst, src, n)] leaves in memory. *)
Fixpoint memcpy_bytes (m0 : gmap Z Z) (dst src : Z) (n : nat) (acc : gmap Z Z)
  : gmap Z Z :=
  match n with
  | O => acc
  | S n' =>
      memcpy_bytes m0 (dst + 1) (src + 1) n'
        (<[dst := default 0 (m0 !! src)]> acc)
  end.

Definition memcpy (dst src n : Z) : M unit :=
  emit (EvMemcpy dst src n) ;;;
  modify (λ w, set_mem (memcpy_bytes (mem w) dst src (Z.to_nat n) (mem w)) w).

(** The packing loop of [launch_kernel] (lines 277-282); [args] and [sizes]
    are the arrays of [num_args] entries, [offset] the running [size_t]. *)
Fixpoint pack_args (kernarg_address : Z) (args sizes : list Z) (offset : Z) : M Z :=
  match args, sizes with
  | a :: args', s :: sizes' =>
      offset <- lift (align_address offset s) ;;
      memcpy (kernarg_address + offset) a s ;;;
      pack_args kernarg_address args' sizes' (wrap64 (offset + s))
  | _, _ => ret offset
  end.

(** Whether every [memcpy] of the packing loop stays inside a block of
    [capacity] bytes that starts at the kernarg address. A size of zero is
    left to the loop, which divides by it. *)
Fixpoint within_segment (capacity : Z) (args sizes : list Z) (offset : Z) : bool :=
  match args, sizes with
  | _ :: args', s :: sizes' =>
      match align_address offset s with
      | Ret offset =>
          bool_decide (offset + s ≤ capacity)
          && within_segment capacity args' sizes' (wrap64 (offset + s))
      | _ => true
      end
  | _, _ => true
  end.

(** Destinations of the [memcpy] calls of a trace, in order. *)
Definition memcpy_dsts (t : list event) : list Z :=
  omap (λ e, match e with EvMemcpy dst _ _ => Some dst | _ => None end) t.

(** ** Device table *)

Definition with_programs (p : gmap string Z) (d : DeviceData) : DeviceData :=
  {| agent := agent d; profile := profile d; float_mode := float_mode d;
     isa := isa d; queue := queue d; signal := signal d;
     kernarg_region := kernarg_region d;
     finegrained_region := finegrained_region d;
     coarsegrained_region := coarsegrained_region d;
     programs := p; kernels := kernels d |}.

Definition with_kernels (k : gmap Z (gmap string kernel_info)) (d : DeviceData)
  : DeviceData :=
  {| agent := agent d; profile := profile d; float_mode := float_mode d;
     isa := isa d; queue := queue d; signal := signal d;
     kernarg_region := kernarg_region d;
     finegrained_region := finegrained_region d;
     coarsegrained_region := coarsegrained_region d;
     programs := programs d; kernels := k |}.

Definition with_regions (kr fr cr : Z) (d : DeviceData) : DeviceData :=
  {| agent := agent d; profile := profile d; float_mode := float_mode d;
     isa := isa d; queue := queue d; signal := signal d;
     kernarg_region := kr; finegrained_region := fr; coarsegrained_region := cr;
     programs := programs d; kernels := kernels d |}.

(** [devices_[dev]]; an index outside the vector is undefined. *)
Definition device (dev : Z) : M DeviceData := λ w,
  if decide (0 ≤ dev) then
    match devices_ w !! Z.to_nat dev with
    | Some d => (Ret d, w)
    | None => (Undefined "devices_ index out of range", w)
    end
  else (Undefined "devices_ index out of range", w).

Definition update_device (dev : Z) (f : DeviceData → DeviceData) : M unit :=
  modify (λ w, set_devices (alter f (Z.to_nat dev) (devices_ w)) w).

(** A status-returning query that names what it asks for. *)
Definition hsa_query (api : hsa_api) (handle : Z) (what : string) : M Z := λ w,
  (Ret (drv_status drv (length (trace w)) api),
   set_trace (trace w ++ [EvQuery api handle what]) w).

(** ** Source files *)

(** [HSAPlatform::register_file]. *)
Definition register_file (filename program_string : string) : M unit :=
  modify (λ w, set_files (<[filename := program_string]> (files_ w)) w).

(** [HSAPlatform::load_file]: the registered text, else the file. *)
Definition load_file (filename : string) : M string :=
  w <- get ;;
  match files_ w !! filename with
  | Some text => ret text
  | None =>
      match fs w !! filename with
      | Some text => ret text
      | None => error ("Can't open source file '" +:+ filename +:+ "'")
      end
  end.

(** [HSAPlatform::store_file]. *)
Definition store_file (filename str : string) : M unit :=
  emit (EvStoreFile filename) ;;;
  if fs_writable drv filename then
    modify (λ w, set_fs (<[filename := str]> (fs w)) w)
  else error ("Can't open destination file '" +:+ filename +:+ "'").

(** ** GCN pipeline *)

Definition nl : string := String (ascii_of_nat 10) EmptyString.

(** [get_ocml_config]. *)
Definition get_ocml_config (target : Z) : string :=
  let config :=
    nl +:+
    "        ; Module anydsl ocml config" +:+ nl +:+
    "        define i32 @__oclc_finite_only_opt() alwaysinline { ret i32 0 }" +:+ nl +:+
    "        define i32 @__oclc_unsafe_math_opt() alwaysinline { ret i32 0 }" +:+ nl +:+
    "        define i32 @__oclc_daz_opt() alwaysinline { ret i32 0 }" +:+ nl +:+
    "        define i32 @__oclc_amd_opt() alwaysinline { ret i32 1 }" +:+ nl +:+
    "        define i32 @__oclc_correctly_rounded_sqrt32() alwaysinline { ret i32 1 }" +:+ nl +:+
    "        define i32 @__oclc_ISA_version() alwaysinline { ret i32 " in
  config +:+ to_string target +:+ " }".

Definition llvm (op : llvm_op) : M unit := emit (EvLlvm op).

(** [llvm::parseIRFile(path)] followed by the null test of its result. *)
Definition parse_ir_file (path msg : string) : M unit :=
  llvm (parseIRFile path) ;;;
  if llvm_file_ok drv path then ret tt else error msg.

(** [linker.linkInModule(...)] followed by the test of its result. *)
Definition link_in (what msg : string) : M unit :=
  llvm (linkInModule what) ;;;
  if llvm_link_fails drv what then error msg else ret tt.

(** [HSAPlatform::emit_gcn], the build with [RUNTIME_ENABLE_JIT]. The module
    and the target are dereferenced without a null test. An exception leaving
    [std::stoi] is not caught and terminates the process. *)
Definition emit_gcn (program cpu filename : string) (opt : Z) : M string :=
  llvm LLVMInitializeAMDGPU ;;;
  llvm (parseIR program) ;;;
  (if llvm_parse_ok drv program then ret tt
   else undefined "llvm_module is null") ;;;
  let triple_str := llvm_triple drv program in
  llvm (lookupTarget triple_str) ;;;
  (if llvm_target_ok drv triple_str then ret tt
   else undefined "target is null") ;;;
  llvm (createTargetMachine triple_str cpu) ;;;
  let ocml_file := "/opt/rocm/lib/ocml.amdgcn.bc" in
  let irif_file := "/opt/rocm/lib/irif.amdgcn.bc" in
  (if compare_prefix_eq cpu 3 "gfx" then ret tt
   else error ("Expected gfx ISA, got " +:+ cpu)) ;;;
  target <- match stoi (substr 3 cpu) with
            | Some n => ret n
            | None => error "terminate: exception thrown by std::stoi"
            end ;;
  let ocml_config := get_ocml_config target in
  parse_ir_file ocml_file ("Can't create ocml module for '" +:+ ocml_file +:+ "'") ;;;
  parse_ir_file irif_file ("Can't create irif module for '" +:+ irif_file +:+ "'") ;;;
  llvm (parseIR ocml_config) ;;;
  (if llvm_parse_ok drv ocml_config then ret tt
   else error "Can't create ocml config module") ;;;
  llvm setDataLayout ;;;
  llvm setDataLayout ;;;
  llvm setDataLayout ;;;
  llvm setDataLayout ;;;
  link_in "config" "Can't link config into module" ;;;
  link_in "ocml" "Can't link ocml into module" ;;;
  link_in "irif" "Can't link irif into module" ;;;
  llvm (populatePasses opt) ;;;
  llvm addPassesToEmitFile ;;;
  llvm runFunctionPasses ;;;
  llvm runModulePasses ;;;
  let obj := llvm_codegen drv program cpu in
  let obj_file := filename +:+ ".obj" in
  let gcn_file := filename +:+ ".gcn" in
  store_file obj_file obj ;;;
  let lld_cmd := "ld.lld -shared " +:+ obj_file +:+ " -o " +:+ gcn_file in
  emit (EvSystem lld_cmd) ;;;
  match ld_lld drv obj with
  | Some gcn => modify (λ w, set_fs (<[gcn_file := gcn]> (fs w)) w)
  | None => error "Generating gcn using lld"
  end ;;;
  load_file gcn_file.

(** [HSAPlatform::compile_gcn]. *)
Definition compile_gcn (dev : Z) (filename program_string : string) : M string :=
  debug ("Compiling AMDGPU to GCN using amdgpu for '" +:+ filename +:+
         "' on HSA device " +:+ to_string dev) ;;;
  d <- device dev ;;
  emit_gcn program_string (isa d) filename 3.

(** ** Program and kernel cache: [load_kernel] *)

(** Where a thread stands inside [load_kernel]. The per-device lock is taken
    and released inside one step, so a step that takes it runs its critical
    section as a whole; the steps between them run without the lock.
    - [LkEntry]: line 381, before the first [lock()].
    - [LkCompile]: lines 387-436, program miss, lock released.
    - [LkPublish]: line 438, executable built, before [lock()].
    - [LkResolve]: lines 453-467, kernel miss, lock released.
    - [LkPublishKernel]: line 469, symbol read, before [lock()].
    - [LkReturn]: line 477; carries the local [executable] too. *)
Inductive lk_pc : Type :=
| LkEntry
| LkCompile
| LkPublish (executable : Z)
| LkResolve (executable : Z)
| LkPublishKernel (executable : Z) (k : kernel_info)
| LkReturn (executable : Z) (k : kernel_info).

Global Instance lk_pc_eq_dec : EqDecision lk_pc.
Proof. solve_decision. Defined.

(** Lines 444-452 and 471-475, entered with the lock held.
    [kernel_cache[executable.handle]] creates a missing inner map. *)
Definition lk_lookup_kernel (dev executable : Z) (kernelname : string) : M lk_pc :=
  d <- device dev ;;
  let kernel_map := default ∅ (kernels d !! executable) in
  update_device dev (with_kernels (<[executable := kernel_map]> (kernels d))) ;;;
  match kernel_map !! kernelname with
  | None => emit (EvUnlock dev) ;;; ret (LkResolve executable)
  | Some k => emit (EvUnlock dev) ;;; ret (LkReturn executable k)
  end.

(** Lines 389-436: from the file name to a frozen, validated executable. *)
Definition lk_compile (dev : Z) (filename : string) : M Z :=
  d <- device dev ;;
  let ext := match rfind "." filename with
             | Some ext_pos => substr (ext_pos + 1) filename
             | None => ""
             end in
  (if bool_decide (ext ≠ "gcn") && bool_decide (ext ≠ "amdgpu") then
     error ("Incorrect extension for kernel file '" +:+ filename +:+
            "' (should be '.gcn' or '.amdgpu')")
   else ret tt) ;;;
  w <- get ;;
  let found := bool_decide (is_Some (fs w !! filename))
               || bool_decide (is_Some (files_ w !! filename)) in
  gcn <- (if bool_decide (ext = "gcn") && found then load_file filename
          else if bool_decide (ext = "amdgpu") && found then
            text <- load_file filename ;;
            compile_gcn dev filename text
          else error ("Could not find kernel file '" +:+ filename +:+ "'")) ;;
  status <- hsa_call hsa_code_object_reader_create_from_memory
              [Z.of_nat (String.length gcn)] ;;
  CHECK_HSA status "hsa_code_object_reader_create_from_file()" ;;;
  reader <- fresh ;;
  debug ("Compiling '" +:+ filename +:+ "' on HSA device " +:+ to_string dev) ;;;
  status <- hsa_call hsa_executable_create_alt [HSA_PROFILE_FULL; float_mode d] ;;
  CHECK_HSA status "hsa_executable_create_alt()" ;;;
  executable <- fresh ;;
  status <- hsa_call hsa_executable_load_agent_code_object
              [executable; agent d; reader] ;;
  CHECK_HSA status "hsa_executable_load_agent_code_object()" ;;;
  status <- hsa_call hsa_executable_freeze [executable] ;;
  CHECK_HSA status "hsa_executable_freeze()" ;;;
  status <- hsa_call hsa_code_object_reader_destroy [reader] ;;
  CHECK_HSA status "hsa_code_object_reader_destroy()" ;;;
  status <- hsa_call hsa_executable_validate [executable] ;;
  CHECK_HSA status "hsa_executable_validate()" ;;;
  (if decide (drv_validate drv executable = 0) then ret tt
   else debug "HSA executable validation failed") ;;;
  ret executable.

(** Lines 455-467: the symbol and its four attributes. *)
Definition lk_resolve (dev executable : Z) (kernelname : string) : M kernel_info :=
  status <- hsa_query hsa_executable_get_symbol_by_name executable kernelname ;;
  CHECK_HSA status "hsa_executable_get_symbol_by_name()" ;;;
  status <- hsa_query hsa_executable_symbol_get_info executable
              "HSA_EXECUTABLE_SYMBOL_INFO_KERNEL_OBJECT" ;;
  CHECK_HSA status "hsa_executable_symbol_get_info()" ;;;
  status <- hsa_query hsa_executable_symbol_get_info executable
              "HSA_EXECUTABLE_SYMBOL_INFO_KERNEL_KERNARG_SEGMENT_SIZE" ;;
  CHECK_HSA status "hsa_executable_symbol_get_info()" ;;;
  status <- hsa_query hsa_executable_symbol_get_info executable
              "HSA_EXECUTABLE_SYMBOL_INFO_KERNEL_GROUP_SEGMENT_SIZE" ;;
  CHECK_HSA status "hsa_executable_symbol_get_info()" ;;;
  status <- hsa_query hsa_executable_symbol_get_info executable
              "HSA_EXECUTABLE_SYMBOL_INFO_KERNEL_PRIVATE_SEGMENT_SIZE" ;;
  CHECK_HSA status "hsa_executable_symbol_get_info()" ;;;
  ret (drv_symbol drv executable kernelname).

(** [map.emplace(key, value)]: no effect when the key is present. *)
Definition emplace {K V} `{Countable K} (k : K) (v : V) (m : gmap K V) : gmap K V :=
  match m !! k with
  | Some _ => m
  | None => <[k := v]> m
  end.

(** One step of a thread inside [load_kernel]. *)
Definition lk_step (dev : Z) (filename kernelname : string) (pc : lk_pc) : M lk_pc :=
  match pc with
  | LkEntry =>
      emit (EvLock dev) ;;;
      d <- device dev ;;
      match programs d !! filename with
      | None => emit (EvUnlock dev) ;;; ret LkCompile
      | Some executable => lk_lookup_kernel dev executable kernelname
      end
  | LkCompile =>
      executable <- lk_compile dev filename ;;
      ret (LkPublish executable)
  | LkPublish executable =>
      emit (EvLock dev) ;;;
      d <- device dev ;;
      update_device dev (with_programs (<[filename := executable]> (programs d))) ;;;
      lk_lookup_kernel dev executable kernelname
  | LkResolve executable =>
      k <- lk_resolve dev executable kernelname ;;
      ret (LkPublishKernel executable k)
  | LkPublishKernel executable k =>
      emit (EvLock dev) ;;;
      d <- device dev ;;
      let kernel_map := default ∅ (kernels d !! executable) in
      update_device dev
        (with_kernels (<[executable := emplace kernelname k kernel_map]> (kernels d))) ;;;
      emit (EvUnlock dev) ;;;
      ret (LkReturn executable k)
  | LkReturn executable k => ret (LkReturn executable k)
  end.

(** A thread run alone from [pc] to its return. *)
Fixpoint lk_run (fuel : nat) (dev : Z) (filename kernelname : string) (pc : lk_pc)
  : M (Z * kernel_info) :=
  match pc with
  | LkReturn executable k => ret (executable, k)
  | _ =>
      match fuel with
      | O => undefined "load_kernel: out of fuel"
      | S fuel' =>
          pc' <- lk_step dev filename kernelname pc ;;
          lk_run fuel' dev filename kernelname pc'
      end
  end.

(** [HSAPlatform::load_kernel] called by one thread: no path takes more than
    five steps. *)
Definition load_kernel (dev : Z) (filename kernelname : string) : M kernel_info :=
  r <- lk_run 5 dev filename kernelname LkEntry ;;
  ret (snd r).

(** The executable [load_kernel] settles on, next to its result. *)
Definition load_kernel_executable (dev : Z) (filename kernelname : string)
  : M (Z * kernel_info) :=
  lk_run 5 dev filename kernelname LkEntry.

(** Threads inside [load_kernel] on one platform object. *)
Record thread : Type := {
  t_dev : Z;
  t_file : string;
  t_kernel : string;
  t_pc : lk_pc
}.

Definition with_pc (pc : lk_pc) (t : thread) : thread :=
  {| t_dev := t_dev t; t_file := t_file t; t_kernel := t_kernel t; t_pc := pc |}.

(** An interleaving: each entry of the schedule lets that thread take its
    next step. *)
Fixpoint run_schedule (sched : list nat) (ts : list thread) : M (list thread) :=
  match sched with
  | [] => ret ts
  | i :: sched' =>
      match ts !! i with
      | None => run_schedule sched' ts
      | Some t =>
          pc' <- lk_step (t_dev t) (t_file t) (t_kernel t) (t_pc t) ;;
          run_schedule sched' (<[i := with_pc pc' t]> ts)
      end
  end.

(** The executable a returned thread holds in its local [executable]. *)
Definition returned_executable (t : thread) : option Z :=
  match t_pc t with
  | LkReturn executable _ => Some executable
  | _ => None
  end.

Definition returned_kernel (t : thread) : option kernel_info :=
  match t_pc t with
  | LkReturn _ k => Some k
  | _ => None
  end.

(** ** Signals and queues *)

(** [hsa_signal_value_t] is a signed 64-bit integer. *)
Definition wrap_s64 (x : Z) : Z := (x + 2 ^ 63) mod 2 ^ 64 - 2 ^ 63.

Definition signal_value (w : World) (s : Z) : Z := default 0 (signals w !! s).

Definition signal_create (initial : Z) : M (Z * Z) :=
  status <- hsa_call hsa_signal_create [initial; 0] ;;
  if decide (status = HSA_STATUS_SUCCESS) then
    s <- fresh ;;
    modify (λ w, set_signals (<[s := initial]> (signals w)) w) ;;;
    ret (status, s)
  else ret (status, 0).

Definition signal_add_relaxed (s v : Z) : M unit :=
  hsa_do hsa_signal_add_relaxed [s; v] ;;;
  modify (λ w, set_signals (<[s := wrap_s64 (signal_value w s + v)]> (signals w)) w).

Definition signal_subtract_relaxed (s v : Z) : M unit :=
  hsa_do hsa_signal_subtract_relaxed [s; v] ;;;
  modify (λ w, set_signals (<[s := wrap_s64 (signal_value w s - v)]> (signals w)) w).

(** [hsa_signal_store_relaxed(s, v)]: the parameter is an
    [hsa_signal_value_t], so what is passed is [v] as a signed 64-bit
    integer. *)
Definition signal_store_relaxed (s v : Z) : M unit :=
  hsa_do hsa_signal_store_relaxed [s; wrap_s64 v] ;;;
  modify (λ w, set_signals (<[s := wrap_s64 v]> (signals w)) w).

(** [hsa_signal_wait_relaxed(s, cond, value, timeout, state)]: returns the
    value the waiter observes. *)
Definition signal_wait_relaxed (s cond value timeout state : Z) : M Z := λ w,
  (Ret (drv_wait drv (length (trace w)) s),
   set_trace (trace w ++ [EvHsa hsa_signal_wait_relaxed [s; cond; value; timeout; state]]) w).

(** [*queue], undefined for a dangling pointer. *)
Definition queue_deref (q : Z) : M hsa_queue_t := λ w,
  match queues w !! q with
  | Some qd => (Ret qd, w)
  | None => (Undefined "dangling queue pointer", w)
  end.

Definition with_ring (r : gmap Z hsa_kernel_dispatch_packet_t) (q : hsa_queue_t)
  : hsa_queue_t :=
  {| q_size := q_size q; q_doorbell_signal := q_doorbell_signal q;
     q_ring := r; q_write_index := q_write_index q |}.

Definition with_write_index (i : Z) (q : hsa_queue_t) : hsa_queue_t :=
  {| q_size := q_size q; q_doorbell_signal := q_doorbell_signal q;
     q_ring := q_ring q; q_write_index := i |}.

Definition queue_load_write_index_relaxed (q : Z) : M Z :=
  hsa_do hsa_queue_load_write_index_relaxed [q] ;;;
  qd <- queue_deref q ;;
  ret (q_write_index qd).

Definition queue_store_write_index_relaxed (q v : Z) : M unit :=
  hsa_do hsa_queue_store_write_index_relaxed [q; v] ;;;
  modify (λ w, set_queues (alter (with_write_index v) q (queues w)) w).

(** The assignment into the ring buffer behind [queue->base_address]. *)
Definition write_packet (q slot : Z) (aql : hsa_kernel_dispatch_packet_t) : M unit :=
  emit (EvPacketWrite q slot aql) ;;;
  modify (λ w,
    set_queues (alter (λ qd, with_ring (<[slot := aql]> (q_ring qd)) qd) q (queues w)) w).

(** [hsa_queue_create(agent, size, ...)]: a queue of [size] packets with its
    doorbell, write index 0. *)
Definition queue_create (agent size : Z) : M (Z * Z) :=
  status <- hsa_call hsa_queue_create
              [agent; size; HSA_QUEUE_TYPE_SINGLE; UINT32_MAX; UINT32_MAX] ;;
  if decide (status = HSA_STATUS_SUCCESS) then
    q <- fresh ;;
    doorbell <- fresh ;;
    modify (λ w, set_queues
      (<[q := {| q_size := size; q_doorbell_signal := doorbell;
                 q_ring := ∅; q_write_index := 0 |}]> (queues w)) w) ;;;
    ret (status, q)
  else ret (status, 0).

(** ** Launch engine *)

Definition dim3 : Type := (Z * Z * Z)%type.

Definition aql_header : Z :=
  wrap16 (Z.lor (Z.lor
    (Z.shiftl HSA_FENCE_SCOPE_SYSTEM HSA_PACKET_HEADER_ACQUIRE_FENCE_SCOPE)
    (Z.shiftl HSA_FENCE_SCOPE_SYSTEM HSA_PACKET_HEADER_RELEASE_FENCE_SCOPE))
    (Z.shiftl HSA_PACKET_TYPE_KERNEL_DISPATCH HSA_PACKET_HEADER_TYPE)).

(** Lines 286-338 of [launch_kernel]: completion signal, AQL packet, ring
    buffer, doorbell, and the detached profiling thread. *)
Definition dispatch (dev queue : Z) (k : kernel_info) (kernarg_address : Z)
    (grid block : dim3) : M unit :=
  let '(kernel, kernarg_segment_size, group_segment_size, private_segment_size) := k in
  d <- device dev ;;
  let signal := signal d in
  signal_add_relaxed signal 1 ;;;
  w <- get ;;
  launch_signal <-
    (if profiling_enabled w then
       r <- signal_create 1 ;;
       CHECK_HSA (fst r) "hsa_signal_create()" ;;;
       ret (snd r)
     else ret signal) ;;
  (* construct aql packet *)
  let '(grid0, grid1, grid2) := grid in
  let '(block0, block1, block2) := block in
  let aql :=
    {| header := aql_header;
       setup := wrap16 (Z.shiftl 3 HSA_KERNEL_DISPATCH_PACKET_SETUP_DIMENSIONS);
       workgroup_size_x := wrap16 block0;
       workgroup_size_y := wrap16 block1;
       workgroup_size_z := wrap16 block2;
       grid_size_x := grid0;
       grid_size_y := grid1;
       grid_size_z := grid2;
       private_segment_size := private_segment_size;
       group_segment_size := group_segment_size;
       kernel_object := kernel;
       kernarg_address := kernarg_address;
       completion_signal := launch_signal |} in
  (* write to command queue *)
  index <- queue_load_write_index_relaxed queue ;;
  qd <- queue_deref queue ;;
  let queue_mask := wrap32 (q_size qd - 1) in
  write_packet queue (Z.land index queue_mask) aql ;;;
  queue_store_write_index_relaxed queue (wrap64 (index + 1)) ;;;
  signal_store_relaxed (q_doorbell_signal qd) index ;;;
  w <- get ;;
  if profiling_enabled w then emit (EvDetach launch_signal signal dev)
  else ret tt.

(** [HSAPlatform::launch_kernel]. [grid] and [block] are the three-element
    arrays, [args] and [sizes] the arrays of [num_args] entries. The block
    allocated for the arguments has [kernarg_segment_size] bytes, whatever the
    arguments need: a [memcpy] of the packing loop that ends past it is
    undefined, and so is then the launch. *)
Definition launch_kernel (dev : Z) (file name : string) (grid block : dim3)
    (args sizes : list Z) : M unit :=
  d <- device dev ;;
  queue <- match queue d with
           | Some q => ret q
           | None => error ("The selected HSA device '" +:+ to_string dev +:+
                            "' cannot execute kernels")
           end ;;
  k <- load_kernel dev file name ;;
  (* set up arguments *)
  d <- device dev ;;
  r <- memory_allocate (kernarg_region d) (kernarg_size k) ;;
  let '(status, kernarg_address) := r in
  CHECK_HSA status "hsa_memory_allocate()" ;;;
  offset <- (if within_segment (kernarg_size k) args sizes 0
             then pack_args kernarg_address args sizes 0
             else undefined "memcpy past the kernarg segment") ;;
  (if decide (offset = kernarg_size k) then ret tt
   else debug ("HSA kernarg segment size for kernel '" +:+ name +:+
               "' differs from argument size: " +:+ to_string (kernarg_size k) +:+
               " vs. " +:+ to_string offset)) ;;;
  dispatch dev queue k kernarg_address grid block.

(** The body of the detached thread of a profiled launch (lines 324-338).
    The conversion of the tick difference to microseconds is floating point
    and is left out; the ticks are what is logged here. *)
Definition profiling_unit (dev launch_signal signal : Z) : M unit :=
  completion <- signal_wait_relaxed launch_signal HSA_SIGNAL_CONDITION_EQ 0
                  UINT64_MAX HSA_WAIT_STATE_ACTIVE ;;
  (if decide (completion = 0) then ret tt
   else debug "HSA launch_signal completion failed") ;;;
  d <- device dev ;;
  status <- hsa_call hsa_amd_profiling_get_dispatch_time [agent d; launch_signal] ;;
  CHECK_HSA status "hsa_amd_profiling_get_dispatch_time()" ;;;
  let '(t_start, t_end) := drv_dispatch_time drv launch_signal in
  info ("anydsl_kernel_time ticks " +:+ to_string (wrap64 (t_end - t_start))) ;;;
  signal_subtract_relaxed signal 1 ;;;
  status <- hsa_call hsa_signal_destroy [launch_signal] ;;
  CHECK_HSA status "hsa_signal_destroy()".

(** [HSAPlatform::synchronize]. *)
Definition synchronize (dev : Z) : M unit :=
  d <- device dev ;;
  completion <- signal_wait_relaxed (signal d) HSA_SIGNAL_CONDITION_EQ 0
                  UINT64_MAX HSA_WAIT_STATE_ACTIVE ;;
  if decide (completion = 0) then ret tt
  else debug "HSA signal completion failed".


(** Whether an event is a wait on a signal. *)
Definition is_wait (e : event) : bool :=
  match e with
  | EvHsa hsa_signal_wait_relaxed _ => true
  | _ => false
  end.

(** ** Device registry *)

(** [HSAPlatform::iterate_regions_callback]; [dev] is the index of the
    [DeviceData] the [data] pointer refers to. *)
Definition iterate_regions_callback (region : RegionInfo) (dev : Z) : M Z :=
  let h := r_handle region in
  status <- hsa_query hsa_region_get_info h "HSA_REGION_INFO_SEGMENT" ;;
  CHECK_HSA status "hsa_region_get_info()" ;;;
  debug ("      Region Segment: " +:+ get_region_segment_str (r_segment region)) ;;;
  status <- hsa_query hsa_region_get_info h "HSA_REGION_INFO_GLOBAL_FLAGS" ;;
  CHECK_HSA status "hsa_region_get_info()" ;;;
  let flags := r_global_flags region in
  d <- device dev ;;
  let kernarg := bool_decide (Z.land flags HSA_REGION_GLOBAL_FLAG_KERNARG ≠ 0) in
  let fine := bool_decide (Z.land flags HSA_REGION_GLOBAL_FLAG_FINE_GRAINED ≠ 0) in
  let coarse := bool_decide (Z.land flags HSA_REGION_GLOBAL_FLAG_COARSE_GRAINED ≠ 0) in
  update_device dev (with_regions
    (if kernarg then h else kernarg_region d)
    (if fine then h else finegrained_region d)
    (if coarse then h else coarsegrained_region d)) ;;;
  let global_flags :=
    (if kernarg then "HSA_REGION_GLOBAL_FLAG_KERNARG " else "") +:+
    (if fine then "HSA_REGION_GLOBAL_FLAG_FINE_GRAINED " else "") +:+
    (if coarse then "HSA_REGION_GLOBAL_FLAG_COARSE_GRAINED " else "") in
  debug ("      Region Global Flags: " +:+ global_flags) ;;;
  status <- hsa_query hsa_region_get_info h "HSA_REGION_INFO_RUNTIME_ALLOC_ALLOWED" ;;
  CHECK_HSA status "hsa_region_get_info()" ;;;
  debug ("      Region Runtime Alloc Allowed: " +:+
         (if r_runtime_alloc_allowed region then "1" else "0")) ;;;
  ret HSA_STATUS_SUCCESS.

(** The traversal inside [hsa_agent_iterate_regions]: it stops at the first
    callback that does not return success. *)
Fixpoint iterate_regions (regions : list RegionInfo) (dev : Z) : M Z :=
  match regions with
  | [] => ret HSA_STATUS_SUCCESS
  | r :: regions' =>
      status <- iterate_regions_callback r dev ;;
      if decide (status = HSA_STATUS_SUCCESS) then iterate_regions regions' dev
      else ret status
  end.

Definition new_device (agent profile float_mode : Z) (isa_name : string)
    (queue : option Z) (signal : Z) : DeviceData :=
  {| agent := agent; profile := profile; float_mode := float_mode;
     isa := isa_name; queue := queue; signal := signal;
     kernarg_region := 0; finegrained_region := 0; coarsegrained_region := 0;
     programs := ∅; kernels := ∅ |}.

(** [HSAPlatform::iterate_agents_callback]. The agent name, the vendor name
    and the ISA name go through one buffer [name], and the status of the two
    [hsa_isa_get_info_alt] calls is never tested: when the query of the ISA
    name fails, the buffer still holds what the vendor query wrote. *)
Definition iterate_agents_callback (agent : Z) : M Z :=
  let a := drv_agent drv agent in
  w <- get ;;
  status <- hsa_query hsa_agent_get_info agent "HSA_AGENT_INFO_NAME" ;;
  CHECK_HSA status "hsa_agent_get_info()" ;;;
  debug ("  (" +:+ pretty (length (devices_ w)) +:+ ") Device Name: " +:+ a_name a) ;;;
  status <- hsa_query hsa_agent_get_info agent "HSA_AGENT_INFO_VENDOR_NAME" ;;
  CHECK_HSA status "hsa_agent_get_info()" ;;;
  debug ("      Device Vendor: " +:+ a_vendor_name a) ;;;
  status <- hsa_query hsa_agent_get_info agent "HSA_AGENT_INFO_PROFILE" ;;
  CHECK_HSA status "hsa_agent_get_info()" ;;;
  let profile := a_profile a in
  debug ("      Device profile: " +:+ get_device_profile_str profile) ;;;
  status <- hsa_query hsa_agent_get_info agent
              "HSA_AGENT_INFO_DEFAULT_FLOAT_ROUNDING_MODE" ;;
  CHECK_HSA status "hsa_agent_get_info()" ;;;
  let float_mode := a_float_rounding_mode a in
  status <- hsa_query hsa_agent_get_info agent "HSA_AGENT_INFO_ISA" ;;
  CHECK_HSA status "hsa_agent_get_info()" ;;;
  let isa := a_isa a in
  _ <- hsa_query hsa_isa_get_info_alt isa "HSA_ISA_INFO_NAME_LENGTH" ;;
  status <- hsa_query hsa_isa_get_info_alt isa "HSA_ISA_INFO_NAME" ;;
  let name_string := if decide (status = HSA_STATUS_SUCCESS) then a_isa_name a
                     else a_vendor_name a in
  debug ("      Device ISA: " +:+ name_string) ;;;
  let isa_name := match rfind "-" name_string with
                  | Some dash_pos => substr (dash_pos + 1) name_string
                  | None => ""
                  end in
  status <- hsa_query hsa_agent_get_info agent "HSA_AGENT_INFO_DEVICE" ;;
  CHECK_HSA status "hsa_agent_get_info()" ;;;
  debug ("      Device Type: " +:+ get_device_type_str (a_device_type a)) ;;;
  status <- hsa_query hsa_agent_get_info agent "HSA_AGENT_INFO_VERSION_MAJOR" ;;
  CHECK_HSA status "hsa_agent_get_info()" ;;;
  status <- hsa_query hsa_agent_get_info agent "HSA_AGENT_INFO_VERSION_MINOR" ;;
  CHECK_HSA status "hsa_agent_get_info()" ;;;
  debug ("      HSA Runtime Version: " +:+ to_string (a_version_major a) +:+ "." +:+
         to_string (a_version_minor a)) ;;;
  status <- hsa_query hsa_agent_get_info agent "HSA_AGENT_INFO_QUEUE_MAX_SIZE" ;;
  CHECK_HSA status "hsa_agent_get_info()" ;;;
  let queue_size := wrap32 (a_queue_max_size a) in
  debug ("      Queue Size: " +:+ to_string queue_size) ;;;
  queue <-
    (if decide (queue_size > 0) then
       r <- queue_create agent queue_size ;;
       CHECK_HSA (fst r) "hsa_queue_create()" ;;;
       status <- hsa_call hsa_amd_profiling_set_profiler_enabled [snd r; 1] ;;
       CHECK_HSA status "hsa_amd_profiling_set_profiler_enabled()" ;;;
       ret (Some (snd r))
     else ret None) ;;
  r <- signal_create 0 ;;
  CHECK_HSA (fst r) "hsa_signal_create()" ;;;
  let signal := snd r in
  w <- get ;;
  let dev := Z.of_nat (length (devices_ w)) in
  modify (set_devices
    (devices_ w ++ [new_device agent profile float_mode isa_name queue signal])) ;;;
  status <- hsa_call hsa_agent_iterate_regions [agent] ;;
  status' <- iterate_regions (a_regions a) dev ;;
  CHECK_HSA (if decide (status' = HSA_STATUS_SUCCESS) then status else status')
    "hsa_agent_iterate_regions()" ;;;
  ret HSA_STATUS_SUCCESS.

(** The traversal inside [hsa_iterate_agents]. *)
Fixpoint iterate_agents (agents : list Z) : M Z :=
  match agents with
  | [] => ret HSA_STATUS_SUCCESS
  | a :: agents' =>
      status <- iterate_agents_callback a ;;
      if decide (status = HSA_STATUS_SUCCESS) then iterate_agents agents'
      else ret status
  end.

(** The constructor [HSAPlatform::HSAPlatform]. *)
Definition HSAPlatform : M unit :=
  status <- hsa_call hsa_init [] ;;
  CHECK_HSA status "hsa_init()" ;;;
  status <- hsa_query hsa_system_get_info 0 "HSA_SYSTEM_INFO_VERSION_MAJOR" ;;
  CHECK_HSA status "hsa_system_get_info()" ;;;
  status <- hsa_query hsa_system_get_info 0 "HSA_SYSTEM_INFO_VERSION_MINOR" ;;
  CHECK_HSA status "hsa_system_get_info()" ;;;
  debug "HSA System Runtime Version" ;;;
  status <- hsa_query hsa_system_get_info 0 "HSA_SYSTEM_INFO_TIMESTAMP_FREQUENCY" ;;
  modify (set_frequency (drv_timestamp_frequency drv)) ;;;
  CHECK_HSA status "hsa_system_get_info()" ;;;
  status <- hsa_call hsa_iterate_agents [] ;;
  status' <- iterate_agents (drv_agents drv) ;;
  CHECK_HSA (if decide (status' = HSA_STATUS_SUCCESS) then status else status')
    "hsa_iterate_agents()".

(** The per-device part of the destructor [HSAPlatform::~HSAPlatform]. *)
Fixpoint destroy_executables (exes : list Z) : M unit :=
  match exes with
  | [] => ret tt
  | e :: exes' =>
      status <- hsa_call hsa_executable_destroy [e] ;;
      CHECK_HSA status "hsa_executable_destroy()" ;;;
      destroy_executables exes'
  end.

Definition destroy_device (d : DeviceData) : M unit :=
  w <- get ;;
  destroy_executables
    (snd <$> drv_map_order drv (length (trace w)) (map_to_list (programs d))) ;;;
  match queue d with
  | Some q =>
      status <- hsa_call hsa_queue_destroy [q] ;;
      CHECK_HSA status "hsa_queue_destroy()"
  | None => ret tt
  end ;;;
  status <- hsa_call hsa_signal_destroy [signal d] ;;
  CHECK_HSA status "hsa_signal_destroy()".

Fixpoint destroy_devices (ds : list DeviceData) : M unit :=
  match ds with
  | [] => ret tt
  | d :: ds' => destroy_device d ;;; destroy_devices ds'
  end.

Definition HSAPlatform_destroy : M unit :=
  w <- get ;;
  destroy_devices (devices_ w) ;;;
  hsa_do hsa_shut_down [].

(** Number of calls to [api] in a trace. *)
Definition is_api (api : hsa_api) (e : event) : bool :=
  match e with
  | EvHsa api' _ => bool_decide (api' = api)
  | _ => false
  end.

Definition count_api (api : hsa_api) (t : list event) : nat :=
  length (List.filter (is_api api) t).

End Platform.

(** ** The CUDA driver path, [cuda/cu_runtime.cpp] *)

Module Cuda.

(** [struct dim3], components [unsigned int]. *)
Record dim3 : Type := { x : Z; y : Z; z : Z }.

(** Driver calls made by [launch_kernel] and [synchronize]. *)
Inductive cu_call : Type :=
| cuEventCreate
| cuEventRecord
| cuLaunchKernel (gridDimX gridDimY gridDimZ blockDimX blockDimY blockDimZ : Z)
| cuCtxSynchronize
| cuEventSynchronize
| cuEventElapsedTime
| cuEventDestroy.

Global Instance cu_call_eq_dec : EqDecision cu_call.
Proof. solve_decision. Defined.

(** The globals of the file that the launch path touches, and the calls made
    so far. *)
Record State : Type := {
  cuDimProblem : dim3;
  cuDimBlock : dim3;
  cuArgs : list Z;
  cuArgIdx : Z;
  cuArgIdxMax : Z;
  calls : list cu_call
}.

Definition C (A : Type) : Type := State → outcome A * State.

Definition cret {A} (a : A) : C A := λ s, (Ret a, s).

Definition cbind {A B} (m : C A) (k : A → C B) : C B := λ s,
  match m s with
  | (Ret a, s') => k a s'
  | (Fatal msg, s') => (Fatal msg, s')
  | (Undefined why, s') => (Undefined why, s')
  end.

Notation "x <~ m ;; k" := (cbind m (λ x, k))
  (at level 100, m at next level, right associativity).

Definition CUDA_SUCCESS : Z := 0.

Section Driver.

(** [cu_status n] is the [CUresult] of the driver call made when [n] calls
    have been recorded. *)
Variable cu_status : nat → Z.

Definition cu (c : cu_call) : C Z := λ s,
  (Ret (cu_status (length (calls s))),
   {| cuDimProblem := cuDimProblem s; cuDimBlock := cuDimBlock s;
      cuArgs := cuArgs s; cuArgIdx := cuArgIdx s; cuArgIdxMax := cuArgIdxMax s;
      calls := calls s ++ [c] |}).

(** [__checkCudaErrors]: [exit(EXIT_FAILURE)] on any other result. *)
Definition checkErrDrv (err : Z) (name : string) : C unit :=
  if decide (err = CUDA_SUCCESS) then cret tt
  else λ s, (Fatal ("checkErrDrv(" +:+ name +:+ ")"), s).

(** [set_problem_size]: the [size_t] arguments are stored as [unsigned int]. *)
Definition set_problem_size (size_x size_y size_z : Z) : C unit := λ s,
  (Ret tt,
   {| cuDimProblem := {| x := wrap32 size_x; y := wrap32 size_y; z := wrap32 size_z |};
      cuDimBlock := cuDimBlock s;
      cuArgs := cuArgs s; cuArgIdx := cuArgIdx s; cuArgIdxMax := cuArgIdxMax s;
      calls := calls s |}).

(** [set_config_size]. *)
Definition set_config_size (size_x size_y size_z : Z) : C unit := λ s,
  (Ret tt,
   {| cuDimProblem := cuDimProblem s;
      cuDimBlock := {| x := wrap32 size_x; y := wrap32 size_y; z := wrap32 size_z |};
      cuArgs := cuArgs s; cuArgIdx := cuArgIdx s; cuArgIdxMax := cuArgIdxMax s;
      calls := calls s |}).

(** Unsigned division; by zero it is undefined. *)
Definition udiv (a b : Z) : C Z := λ s,
  if decide (b = 0) then (Undefined "division by zero", s)
  else (Ret (a / b), s).

(** The launch configuration of [launch_kernel] (lines 276-279). *)
Definition launch_grid : C dim3 :=
  s <~ (λ s, (Ret s, s)) ;;
  gx <~ udiv (x (cuDimProblem s)) (x (cuDimBlock s)) ;;
  gy <~ udiv (y (cuDimProblem s)) (y (cuDimBlock s)) ;;
  gz <~ udiv (z (cuDimProblem s)) (z (cuDimBlock s)) ;;
  cret {| x := gx; y := gy; z := gz |}.

(** [launch_kernel]. *)
Definition launch_kernel (kernel_name : string) : C unit :=
  let error_string := "cuLaunchKernel(" +:+ kernel_name +:+ ")" in
  grid <~ launch_grid ;;
  _ <~ cu cuEventCreate ;;
  _ <~ cu cuEventCreate ;;
  _ <~ cu cuEventRecord ;;
  s <~ (λ s, (Ret s, s)) ;;
  err <~ cu (cuLaunchKernel (x grid) (y grid) (z grid)
               (x (cuDimBlock s)) (y (cuDimBlock s)) (z (cuDimBlock s))) ;;
  _ <~ checkErrDrv err error_string ;;
  err <~ cu cuCtxSynchronize ;;
  _ <~ checkErrDrv err error_string ;;
  _ <~ cu cuEventRecord ;;
  _ <~ cu cuEventSynchronize ;;
  _ <~ cu cuEventElapsedTime ;;
  _ <~ cu cuEventDestroy ;;
  _ <~ cu cuEventDestroy ;;
  λ s, (Ret tt,
        {| cuDimProblem := cuDimProblem s; cuDimBlock := cuDimBlock s;
           cuArgs := cuArgs s; cuArgIdx := 0; cuArgIdxMax := cuArgIdxMax s;
           calls := calls s |}).

(** [synchronize]. *)
Definition synchronize : C unit :=
  err <~ cu cuCtxSynchronize ;;
  checkErrDrv err "cuCtxSynchronize()".

End Driver.

(** [set_kernel_arg]. [realloc_ok] tells whether the [realloc] of a growing
    [cuArgs] returns memory; its result is used without a null test.
    [realloc] keeps the cells both sizes have in common. The cell that
    receives the [malloc] result is overwritten by [host] in the next
    statement, so that block is never reachable again. Incrementing the [int]
    index past [INT_MAX] is undefined. *)
Definition set_kernel_arg (realloc_ok : bool) (host : Z) : C unit := λ s,
  if decide (cuArgIdx s = INT_MAX) then (Undefined "signed integer overflow", s)
  else
    let idx := cuArgIdx s + 1 in
    let grow := bool_decide (idx > cuArgIdxMax s) in
    if grow && negb realloc_ok then (Undefined "cuArgs is null", s)
    else
      let args := if grow then resize (Z.to_nat idx) 0 (cuArgs s) else cuArgs s in
      let idx_max := if grow then idx else cuArgIdxMax s in
      if decide (0 ≤ idx - 1 < Z.of_nat (length args)) then
        (Ret tt,
         {| cuDimProblem := cuDimProblem s; cuDimBlock := cuDimBlock s;
            cuArgs := <[Z.to_nat (idx - 1) := host]> args;
            cuArgIdx := idx; cuArgIdxMax := idx_max; calls := calls s |})
      else (Undefined "cuArgs index out of range", s).

(** The calls of [set_kernel_arg] a program makes before a launch, one per
    kernel argument, every [realloc] succeeding. *)
Fixpoint set_kernel_args (hosts : list Z) : C unit :=
  match hosts with
  | [] => cret tt
  | host :: hosts' => _ <~ set_kernel_arg true host ;; set_kernel_args hosts'
  end.

(** The grid a trace was launched with. *)
Definition launched_grids (cs : list cu_call) : list dim3 :=
  omap (λ c, match c with
             | cuLaunchKernel gx gy gz _ _ _ => Some {| x := gx; y := gy; z := gz |}
             | _ => None
             end) cs.

(** Globals at program start: both [dim3] default to (1,1,1). *)
Definition initial : State :=
  {| cuDimProblem := {| x := 1; y := 1; z := 1 |};
     cuDimBlock := {| x := 1; y := 1; z := 1 |};
     cuArgs := [0]; cuArgIdx := 0; cuArgIdxMax := 1; calls := [] |}.

End Cuda.

(** ** Layout and numerals as the specification words them *)

(** [o] is [base] rounded up to the next multiple of [a]. *)
Definition rounded_up (base a o : Z) : Prop :=
  (a | o) ∧ base ≤ o < base + a.

(** Every argument sits at the end of the one before it, rounded up to the
    alignment of its own size capped at 8; [total] is the end of the last. *)
Fixpoint packed_layout (base : Z) (sizes offsets : list Z) (total : Z) : Prop :=
  match sizes, offsets with
  | [], [] => total = base
  | s :: sizes', o :: offsets' =>
      rounded_up base (Z.min s 8) o ∧ packed_layout (o + s) sizes' offsets' total
  | _, _ => False
  end.

(** The [memcpy] calls that place [args] at [offsets]. *)
Fixpoint copies (kernarg_address : Z) (offsets args sizes : list Z) : list event :=
  match offsets, args, sizes with
  | o :: offsets', a :: args', s :: sizes' =>
      EvMemcpy (kernarg_address + o) a s :: copies kernarg_address offsets' args' sizes'
  | _, _, _ => []
  end.

(** Room the arguments need at most: every size plus 7 bytes of padding. *)
Definition packed_bound (sizes : list Z) : Z :=
  foldr (λ s acc, s + 7 + acc) 0 sizes.

(** The [s] bytes at [dst] in [m] are the bytes that were at [src] in [m0]. *)
Definition bytes_copied (m0 m : gmap Z Z) (dst src s : Z) : Prop :=
  ∀ j, 0 ≤ j < s → m !! (dst + j) = Some (default 0 (m0 !! (src + j))).

(** Every argument's bytes, as they were in [m0], lie at its offset in [m]. *)
Fixpoint args_stored (m0 m : gmap Z Z) (kernarg_address : Z)
    (offsets args sizes : list Z) : Prop :=
  match offsets, args, sizes with
  | o :: offsets', a :: args', s :: sizes' =>
      bytes_copied m0 m (kernarg_address + o) a s ∧
      args_stored m0 m kernarg_address offsets' args' sizes'
  | _, _, _ => True
  end.

(** No argument has source bytes between [lo] and [hi]. *)
Fixpoint sources_outside (lo hi : Z) (args sizes : list Z) : Prop :=
  match args, sizes with
  | a :: args', s :: sizes' =>
      (a + s ≤ lo ∨ hi ≤ a) ∧ sources_outside lo hi args' sizes'
  | _, _ => True
  end.

(** A decimal numeral, most significant digit first, and its value. *)
Definition digit_char (d : Z) : ascii := ascii_of_nat (Z.to_nat (48 + d)).

Fixpoint digit_string (ds : list Z) : string :=
  match ds with
  | [] => EmptyString
  | d :: ds' => String (digit_char d) (digit_string ds')
  end.

Definition digits_value (ds : list Z) : Z :=
  foldl (λ acc d, acc * 10 + d) 0 ds.

Definition starts_with_digit (s : string) : bool :=
  match s with
  | String c _ => is_digit c
  | EmptyString => false
  end.

(** ** A machine to run the model on *)

Definition gpu_agent : AgentInfo :=
  {| a_name := "gfx803"; a_vendor_name := "AMD"; a_profile := HSA_PROFILE_BASE;
     a_float_rounding_mode := 2; a_isa := 77;
     a_isa_name := "amdgcn-amd-amdhsa--gfx803";
     a_device_type := HSA_DEVICE_TYPE_GPU;
     a_version_major := 1; a_version_minor := 1; a_queue_max_size := 8;
     a_regions :=
       [ {| r_handle := 501; r_segment := HSA_REGION_SEGMENT_GLOBAL;
            r_global_flags := 3; r_runtime_alloc_allowed := true |};
         {| r_handle := 502; r_segment := HSA_REGION_SEGMENT_GLOBAL;
            r_global_flags := 4; r_runtime_alloc_allowed := true |} ] |}.

(** An agent that reports no queue, as host CPU agents may. *)
Definition cpu_agent : AgentInfo :=
  {| a_name := "cpu"; a_vendor_name := "CPU"; a_profile := HSA_PROFILE_FULL;
     a_float_rounding_mode := 2; a_isa := 0; a_isa_name := "";
     a_device_type := HSA_DEVICE_TYPE_CPU;
     a_version_major := 1; a_version_minor := 1; a_queue_max_size := 0;
     a_regions := [] |}.

(** A driver on which every call succeeds. The kernel object of a symbol
    depends on the executable it was loaded into. *)
Definition drv_ok : Driver :=
  {| drv_status := λ _ _, HSA_STATUS_SUCCESS;
     drv_map_order := λ _ l, reverse l;
     drv_agents := [7; 8];
     drv_agent := λ a, if decide (a = 7) then gpu_agent else cpu_agent;
     drv_symbol := λ e _, (e * 4096, 40, 0, 0);
     drv_validate := λ _, 0;
     drv_wait := λ _ _, 0;
     drv_dispatch_time := λ _, (0, 0);
     drv_timestamp_frequency := 1000;
     llvm_parse_ok := λ _, true;
     llvm_triple := λ _, "amdgcn-amd-amdhsa";
     llvm_target_ok := λ _, true;
     llvm_file_ok := λ _, true;
     llvm_link_fails := λ _, false;
     llvm_codegen := λ p _, p;
     fs_writable := λ _, true;
     ld_lld := λ o, Some o |}.

Definition w_boot : World :=
  {| devices_ := []; files_ := ∅; frequency_ := 0; profiling_enabled := false;
     fs := ∅; mem := ∅; signals := ∅; queues := ∅; next_handle := 1; trace := [] |}.


(** ... and one on which no program parses as LLVM IR. *)
Definition drv_no_ir : Driver :=
  {| drv_status := drv_status drv_ok;
     drv_map_order := drv_map_order drv_ok;
     drv_agents := drv_agents drv_ok;
     drv_agent := drv_agent drv_ok;
     drv_symbol := drv_symbol drv_ok;
     drv_validate := drv_validate drv_ok;
     drv_wait := drv_wait drv_ok;
     drv_dispatch_time := drv_dispatch_time drv_ok;
     drv_timestamp_frequency := drv_timestamp_frequency drv_ok;
     llvm_parse_ok := λ _, false;
     llvm_triple := llvm_triple drv_ok;
     llvm_target_ok := llvm_target_ok drv_ok;
     llvm_file_ok := llvm_file_ok drv_ok;
     llvm_link_fails := llvm_link_fails drv_ok;
     llvm_codegen := llvm_codegen drv_ok;
     fs_writable := fs_writable drv_ok;
     ld_lld := ld_lld drv_ok |}.

(** The platform after construction on [drv_ok]: device 0 is the GPU,
    device 1 the CPU agent. *)
Definition w_discovered : World := snd (HSAPlatform drv_ok w_boot).

(** ... with the code object of [k.gcn] registered. *)
Definition w_ready : World := snd (register_file "k.gcn" "ELF" w_discovered).

(** Two threads entering [load_kernel] for the same device and file. *)
Definition racer : thread :=
  {| t_dev := 0; t_file := "k.gcn"; t_kernel := "main"; t_pc := LkEntry |}.

(** Events on the command queue and its signals. *)
Definition is_queue_event (e : event) : bool :=
  match e with
  | EvPacketWrite _ _ _
  | EvHsa hsa_queue_store_write_index_relaxed _
  | EvHsa hsa_queue_load_write_index_relaxed _
  | EvHsa hsa_signal_store_relaxed _
  | EvHsa hsa_signal_add_relaxed _ => true
  | _ => false
  end.

(** ** Trace and frame predicates *)

(** [m] only ever appends events that satisfy [P]. *)
Definition emits (P : event → bool) {A} (m : M A) : Prop :=
  ∀ w, ∃ t, trace (snd (m w)) = trace w ++ t ∧ Forall (λ e, P e = true) t.

(** [m] leaves the [proj] part of the world as it was. *)
Definition preserves {B} (proj : World → B) {A} (m : M A) : Prop :=
  ∀ w, proj (snd (m w)) = proj w.

(** What the cache of device [dev] holds for a thread of [load_kernel] at
    [pc] when no other thread runs: past the program stage the file maps to
    the thread's executable; on return the kernel is cached as well. *)
Definition lk_inv (dev : Z) (filename kernelname : string) (w : World) (pc : lk_pc)
  : Prop :=
  match pc with
  | LkEntry | LkCompile | LkPublish _ => True
  | LkResolve e | LkPublishKernel e _ =>
      0 ≤ dev ∧ ∃ d, devices_ w !! Z.to_nat dev = Some d ∧
        programs d !! filename = Some e ∧
        ∃ km, kernels d !! e = Some km ∧ km !! kernelname = None
  | LkReturn e k =>
      0 ≤ dev ∧ ∃ d, devices_ w !! Z.to_nat dev = Some d ∧
        programs d !! filename = Some e ∧
        ∃ km, kernels d !! e = Some km ∧ km !! kernelname = Some k
  end.

(** The threads of a schedule that ran to its end. *)
Definition threads_of (o : outcome (list thread)) : list thread :=
  match o with
  | Ret ts => ts
  | _ => []
  end.

(** What identifies a device and its two lifetime resources. *)
Definition device_core (d : DeviceData) : Z * option Z * Z :=
  (agent d, queue d, signal d).

Definition cores (w : World) : list (Z * option Z * Z) :=
  device_core <$> devices_ w.

(** Creation and destruction of queues and signals. *)
Definition is_create (e : event) : bool :=
  match e with
  | EvHsa hsa_queue_create _ | EvHsa hsa_signal_create _ => true
  | _ => false
  end.

Definition is_destroy (e : event) : bool :=
  match e with
  | EvHsa hsa_queue_destroy _ | EvHsa hsa_signal_destroy _ => true
  | _ => false
  end.

Definition no_create (e : event) : bool := negb (is_create e).

(** Neither a wait on a signal nor the destruction of a queue or signal. *)
Definition calm (e : event) : bool := negb (is_wait e || is_destroy e).

(** ... nor anything on the command queue or its signals. *)
Definition inert (e : event) : bool :=
  negb (is_wait e || is_destroy e || is_queue_event e).

(** From [w] to [w1] only inert events happened, and no queue and no
    device's agent, queue or signal changed. *)
Definition undisturbed (w w1 : World) : Prop :=
  ∃ t, trace w1 = trace w ++ t ∧ Forall (λ e, inert e = true) t ∧
       queues w1 = queues w ∧ cores w1 = cores w.

(** From [w] to [w1] nothing was created and no queue, signal or device
    record changed. *)
Definition quiet (w w1 : World) : Prop :=
  ∃ t, trace w1 = trace w ++ t ∧ Forall (λ e, no_create e = true) t ∧
       queues w1 = queues w ∧ signals w1 = signals w ∧ devices_ w1 = devices_ w.

(** The argument array is as large as [cuArgIdxMax] says and the index lies
    inside it. *)
Definition args_in_bounds (s : Cuda.State) : Prop :=
  0 ≤ Cuda.cuArgIdx s ≤ Cuda.cuArgIdxMax s ∧
  Cuda.cuArgIdxMax s = Z.of_nat (length (Cuda.cuArgs s)).

(** Steps a thread of [load_kernel] at [pc] has left at most. *)
Definition lk_rank (pc : lk_pc) : nat :=
  match pc with
  | LkEntry => 5
  | LkCompile => 4
  | LkPublish _ => 3
  | LkResolve _ => 2
  | LkPublishKernel _ _ => 1
  | LkReturn _ _ => 0
  end.

(** ** Vocabulary of the statements on files, regions, cache and teardown *)

(** Whether the character [c] occurs in [s]. *)
Fixpoint contains (c : ascii) (s : string) : bool :=
  match s with
  | EmptyString => false
  | String a s' => Ascii.eqb a c || contains c s'
  end.

(** The handle a region role holds after the regions were visited in order:
    that of the last region carrying [flag], [init] when none does. *)
Definition region_for (flag : Z) (regions : list RegionInfo) (init : Z) : Z :=
  foldl (λ h r, if bool_decide (Z.land (r_global_flags r) flag ≠ 0)
                then r_handle r else h) init regions.

(** From [w] to [w'] no device went away, no cached file name was dropped, a
    file name not [touched] kept its executable, and every kernel entry stayed
    as it was. *)
Definition cache_grows (touched : nat → string → Prop) (w w' : World) : Prop :=
  ∀ i d, devices_ w !! i = Some d →
    ∃ d', devices_ w' !! i = Some d' ∧
      (∀ f, is_Some (programs d !! f) → is_Some (programs d' !! f)) ∧
      (∀ f, ¬ touched i f → programs d' !! f = programs d !! f) ∧
      (∀ e km, kernels d !! e = Some km →
               ∃ km', kernels d' !! e = Some km' ∧ km ⊆ km').

(** The device and file a thread of [load_kernel] works on. *)
Definition touched_by (ts : list thread) (i : nat) (f : string) : Prop :=
  ∃ t, t ∈ ts ∧ Z.to_nat (t_dev t) = i ∧ t_file t = f.

(** The packet [launch_kernel] builds for kernel [k]. *)
Definition launch_packet (k : kernel_info) (kernarg : Z) (grid block : dim3)
    (completion : Z) : hsa_kernel_dispatch_packet_t :=
  {| header := 5122; setup := 3;
     workgroup_size_x := block.1.1 mod 2 ^ 16;
     workgroup_size_y := block.1.2 mod 2 ^ 16;
     workgroup_size_z := block.2 mod 2 ^ 16;
     grid_size_x := grid.1.1; grid_size_y := grid.1.2; grid_size_z := grid.2;
     private_segment_size := k.2;
     group_segment_size := k.1.2;
     kernel_object := k.1.1.1;
     kernarg_address := kernarg;
     completion_signal := completion |}.

(** What the destructor does for one device when the program cache yields
    the executables [exes]. *)
Definition device_teardown (exes : list Z) (d : DeviceData) : list event :=
  ((λ e, EvHsa hsa_executable_destroy [e]) <$> exes)
  ++ match queue d with
     | Some q => [EvHsa hsa_queue_destroy [q]]
     | None => []
     end
  ++ [EvHsa hsa_signal_destroy [signal d]].

(** [part] is a teardown of [d]: every cached executable destroyed once, in
    some order, then the queue if there is one, then the signal. *)
Definition tears_down (d : DeviceData) (part : list event) : Prop :=
  ∃ exes, exes ≡ₚ (snd <$> map_to_list (programs d)) ∧
          part = device_teardown exes d.

(** The stages of [emit_gcn] for an accepted ISA, in order. *)
Definition gcn_pipeline (drv : Driver) (program cpu filename : string) (opt target : Z)
  : list event :=
  [EvLlvm LLVMInitializeAMDGPU; EvLlvm (parseIR program);
   EvLlvm (lookupTarget (llvm_triple drv program));
   EvLlvm (createTargetMachine (llvm_triple drv program) cpu);
   EvLlvm (parseIRFile "/opt/rocm/lib/ocml.amdgcn.bc");
   EvLlvm (parseIRFile "/opt/rocm/lib/irif.amdgcn.bc");
   EvLlvm (parseIR (get_ocml_config target));
   EvLlvm setDataLayout; EvLlvm setDataLayout; EvLlvm setDataLayout;
   EvLlvm setDataLayout;
   EvLlvm (linkInModule "config"); EvLlvm (linkInModule "ocml");
   EvLlvm (linkInModule "irif");
   EvLlvm (populatePasses opt); EvLlvm addPassesToEmitFile;
   EvLlvm runFunctionPasses; EvLlvm runModulePasses;
   EvStoreFile (filename +:+ ".obj");
   EvSystem ("ld.lld -shared " +:+ (filename +:+ ".obj") +:+ " -o " +:+
             (filename +:+ ".gcn"))].

(** The five symbol queries of a kernel miss. *)
Definition symbol_queries (executable : Z) (kernelname : string) : list event :=
  [EvQuery hsa_executable_get_symbol_by_name executable kernelname;
   EvQuery hsa_executable_symbol_get_info executable
     "HSA_EXECUTABLE_SYMBOL_INFO_KERNEL_OBJECT";
   EvQuery hsa_executable_symbol_get_info executable
     "HSA_EXECUTABLE_SYMBOL_INFO_KERNEL_KERNARG_SEGMENT_SIZE";
   EvQuery hsa_executable_symbol_get_info executable
     "HSA_EXECUTABLE_SYMBOL_INFO_KERNEL_GROUP_SEGMENT_SIZE";
   EvQuery hsa_executable_symbol_get_info executable
     "HSA_EXECUTABLE_SYMBOL_INFO_KERNEL_PRIVATE_SEGMENT_SIZE"].

(** The world with profiling switched on or off in the runtime. *)
Definition with_profiling (b : bool) (w : World) : World :=
  {| devices_ := devices_ w; files_ := files_ w; frequency_ := frequency_ w;
     profiling_enabled := b; fs := fs w; mem := mem w;
     signals := signals w; queues := queues w; next_handle := next_handle w;
     trace := trace w |}.

(** Whether an event releases memory. *)
Definition is_free (e : event) : bool :=
  match e with
  | EvHsa hsa_memory_free _ => true
  | _ => false
  end.

Definition is_shut_down (e : event) : bool :=
  match e with
  | EvHsa hsa_shut_down _ => true
  | _ => false
  end.

(** Writing the object file and running the linker. *)
Definition is_store_or_system (e : event) : bool :=
  match e with
  | EvStoreFile _ | EvSystem _ => true
  | _ => false
  end.

(** ** Further vocabulary *)

(** Anything but the runtime's shutdown. *)
Definition not_shut_down (e : event) : bool := negb (is_shut_down e).

(** Anything but a release of memory. *)
Definition not_free (e : event) : bool := negb (is_free e).

(** Running [m] from [w] adds an event satisfying [P] only if [C] holds. *)
Definition adds_only_if (P : event → bool) (C : Prop) {A} (m : M A) (w : World) : Prop :=
  ∃ t, trace (snd (m w)) = trace w ++ t ∧ (existsb P t = true → C).

(** A driver all of whose status-checked calls succeed. The status of
    [hsa_isa_get_info_alt] is the one the platform does not check. *)
Definition checked_calls_succeed (drv : Driver) : Prop :=
  ∀ i api, api ≠ hsa_isa_get_info_alt → drv_status drv i api = HSA_STATUS_SUCCESS.

(** ... after a first [load_kernel] of [main] from [k.gcn] on device 0. *)
Definition w_loaded : World :=
  snd (load_kernel_executable drv_ok 0 "k.gcn" "main" w_ready).

(** ... with profiling enabled. *)
Definition w_profiled : World := with_profiling true w_ready.

(** The discovered platform with the IR of [k.amdgpu] registered. *)
Definition w_jit : World := snd (register_file "k.amdgpu" "ir" w_discovered).

(** * Properties *)

(** ** Reasoning about the monad *)

Lemma bind_unfold {A B} (m : M A) (k : A → M B) w :
  bind m k w = match m w with
               | (Ret a, w') => k a w'
               | (Fatal msg, w') => (Fatal msg, w')
               | (Undefined why, w') => (Undefined why, w')
               end.
Proof. reflexivity. Qed.

Lemma bind_Ret_inv {A B} (m : M A) (k : A → M B) w b w2 :
  bind m k w = (Ret b, w2) →
  ∃ a w1, m w = (Ret a, w1) ∧ k a w1 = (Ret b, w2).
Proof.
  rewrite bind_unfold. destruct (m w) as [[a|msg|why] w1]; intros H;
    [eauto | discriminate | discriminate].
Qed.

Lemma bind_Ret {A B} (m : M A) (k : A → M B) w a w1 :
  m w = (Ret a, w1) → bind m k w = k a w1.
Proof. intros H. rewrite bind_unfold, H. reflexivity. Qed.

Lemma trace_set_trace t w : trace (set_trace t w) = t.
Proof. reflexivity. Qed.

Lemma CHECK_HSA_success drv name w :
  CHECK_HSA drv HSA_STATUS_SUCCESS name w = (Ret tt, w).
Proof. reflexivity. Qed.

Lemma CHECK_HSA_Ret_inv drv err name w u w' :
  CHECK_HSA drv err name w = (Ret u, w') → err = HSA_STATUS_SUCCESS ∧ w' = w.
Proof.
  unfold CHECK_HSA. destruct (decide (err = HSA_STATUS_SUCCESS)) as [->|Hne].
  - intros [= <-]. done.
  - intros H. apply bind_Ret_inv in H as (r & w1 & _ & H).
    apply bind_Ret_inv in H as ([] & w2 & _ & H). discriminate.
Qed.

Lemma CHECK_HSA_failure drv err name w :
  err ≠ HSA_STATUS_SUCCESS → is_Fatal (fst (CHECK_HSA drv err name w)) = true.
Proof.
  intros Hne. unfold CHECK_HSA. destruct (decide _) as [|_]; [done|].
  rewrite bind_unfold. cbn.
  destruct (decide _); reflexivity.
Qed.

Lemma CHECK_HSA_fail drv err name w :
  err ≠ HSA_STATUS_SUCCESS →
  ∃ msg t, CHECK_HSA drv err name w = (Fatal msg, set_trace (trace w ++ t) w).
Proof.
  intros Hne. unfold CHECK_HSA. destruct (decide _) as [|_]; [done|].
  unfold bind, hsa_call. cbn. destruct (decide _); cbn.
  - eexists _, [_]. reflexivity.
  - eexists _, [_; _]. unfold set_trace. cbn. rewrite <- app_assoc. reflexivity.
Qed.

Lemma memory_allocate_eq drv region size w :
  memory_allocate drv region size w =
  let st := drv_status drv (length (trace w)) hsa_memory_allocate in
  let w1 := set_trace (trace w ++ [EvHsa hsa_memory_allocate [region; size]]) w in
  if decide (st = HSA_STATUS_SUCCESS)
  then (Ret (st, next_handle w), set_next_handle (next_handle w + Z.max size 1) w1)
  else (Ret (st, 0), w1).
Proof.
  unfold memory_allocate, bind, hsa_call. cbn. destruct (decide _); reflexivity.
Qed.

(** C9. [alloc_hsa]: a request of size zero returns the null pointer and
    leaves the world, its trace of driver calls included, as it was; any other
    size goes to [hsa_memory_allocate] with the requested region and size, and
    the result is the driver's allocation when the call succeeds and a fatal
    error when it fails. *)
Theorem alloc_hsa_zero_or_driver (drv : Driver) (size region : Z) (w : World) :
  let r := alloc_hsa drv size region w in
  if decide (size = 0) then r = (Ret 0, w)
  else
    ∃ rest,
      trace (snd r)
      = trace w ++ EvHsa hsa_memory_allocate [region; wrap64 size] :: rest ∧
      if decide (drv_status drv (length (trace w)) hsa_memory_allocate
                 = HSA_STATUS_SUCCESS)
      then fst r = Ret (next_handle w) ∧ rest = []
      else is_Fatal (fst r) = true.
Proof.
  cbn zeta. unfold alloc_hsa.
  destruct (decide (size = 0)) as [|Hsz]; [reflexivity|].
  rewrite bind_unfold, memory_allocate_eq. cbn zeta.
  destruct (decide (drv_status drv (length (trace w)) hsa_memory_allocate
                    = HSA_STATUS_SUCCESS)) as [Hok|Hfail].
  - rewrite Hok, bind_unfold, CHECK_HSA_success. cbn. exists []. done.
  - rewrite bind_unfold.
    destruct (CHECK_HSA_fail drv _ "hsa_memory_allocate()"
                (set_trace (trace w ++ [EvHsa hsa_memory_allocate [region; wrap64 size]]) w)
                Hfail) as (msg & t & ->).
    cbn. exists t. rewrite <- app_assoc. done.
Qed.

(** ** Argument packing *)

Lemma align_address_zero base : align_address base 0 = Undefined "division by zero".
Proof. reflexivity. Qed.

Lemma align_address_pos base s :
  1 ≤ s →
  align_address base s
  = Ret (wrap64 (wrap64 (base + Z.min s 8 - 1) / Z.min s 8 * Z.min s 8)).
Proof.
  intros Hs. unfold align_address.
  destruct (decide (s > 8)).
  - rewrite Z.min_r by lia. reflexivity.
  - rewrite Z.min_l by lia. destruct (decide (s = 0)); [lia | reflexivity].
Qed.

Lemma round_up_div base a :
  0 < a → 0 ≤ base → rounded_up base a ((base + a - 1) / a * a).
Proof.
  intros Ha Hb. split.
  - exists ((base + a - 1) / a). reflexivity.
  - pose proof (Z.div_mod (base + a - 1) a ltac:(lia)) as Hdm.
    pose proof (Z.mod_pos_bound (base + a - 1) a Ha) as Hm.
    nia.
Qed.

Lemma align_address_rounds base s :
  1 ≤ s → 0 ≤ base → base + 8 ≤ 2 ^ 64 →
  ∃ o, align_address base s = Ret o ∧ rounded_up base (Z.min s 8) o.
Proof.
  intros Hs Hb Hfit. rewrite align_address_pos by done.
  set (a := Z.min s 8). assert (1 ≤ a ≤ 8) as Ha by (unfold a; lia).
  destruct (round_up_div base a ltac:(lia) Hb) as [Hdiv Hrange].
  unfold wrap64. rewrite (Z.mod_small (base + a - 1)) by lia.
  rewrite Z.mod_small by lia.
  eexists; split; [reflexivity | split; assumption].
Qed.

Lemma memcpy_eq dst src n w :
  memcpy dst src n w
  = (Ret tt, set_mem (memcpy_bytes (mem w) dst src (Z.to_nat n) (mem w))
               (set_trace (trace w ++ [EvMemcpy dst src n]) w)).
Proof. reflexivity. Qed.

Lemma pack_args_cons kernarg_address a args s sizes base w :
  pack_args kernarg_address (a :: args) (s :: sizes) base w
  = match align_address base s with
    | Ret o =>
        pack_args kernarg_address args sizes (wrap64 (o + s))
          (set_mem (memcpy_bytes (mem w) (kernarg_address + o) a (Z.to_nat s) (mem w))
             (set_trace (trace w ++ [EvMemcpy (kernarg_address + o) a s]) w))
    | Fatal msg => (Fatal msg, w)
    | Undefined why => (Undefined why, w)
    end.
Proof.
  cbn [pack_args]. rewrite bind_unfold. unfold lift at 1.
  destruct (align_address base s); reflexivity.
Qed.

Lemma packed_bound_nonneg sizes : Forall (λ s, 0 < s) sizes → 0 ≤ packed_bound sizes.
Proof.
  induction 1 as [|s sizes Hs _ IH]; cbn; [lia|]. unfold packed_bound in IH. lia.
Qed.

Lemma memcpy_bytes_lookup m0 n :
  ∀ dst src acc a,
    memcpy_bytes m0 dst src n acc !! a
    = if decide (dst ≤ a < dst + Z.of_nat n)
      then Some (default 0 (m0 !! (src + (a - dst))))
      else acc !! a.
Proof.
  induction n as [|n IH]; intros dst src acc a; cbn [memcpy_bytes].
  - destruct (decide _); [lia | reflexivity].
  - rewrite IH. destruct (decide (dst + 1 ≤ a < dst + 1 + Z.of_nat n)).
    + destruct (decide _); [|lia]. do 3 f_equal. lia.
    + destruct (decide (dst ≤ a < dst + Z.of_nat (S n))).
      * assert (a = dst) as -> by lia. rewrite lookup_insert_eq.
        do 3 f_equal. lia.
      * rewrite lookup_insert_ne by lia. reflexivity.
Qed.

Lemma sources_outside_narrow lo hi lo' hi' sizes :
  ∀ args, lo ≤ lo' → hi' ≤ hi →
          sources_outside lo hi args sizes → sources_outside lo' hi' args sizes.
Proof.
  induction sizes as [|s sizes IH]; intros [|a args] Hlo Hhi H; cbn in *; try done.
  destruct H as [Ha H]. split; [lia | by apply IH].
Qed.

Lemma args_stored_sources m0 m1 m kernarg_address lo hi sizes :
  (∀ a, ¬ (lo ≤ a < hi) → m1 !! a = m0 !! a) →
  Forall (λ s, 0 < s) sizes →
  ∀ offsets args,
    sources_outside lo hi args sizes →
    args_stored m1 m kernarg_address offsets args sizes →
    args_stored m0 m kernarg_address offsets args sizes.
Proof.
  intros Hsame Hpos. induction Hpos as [|s sizes Hs _ IH];
    intros [|o offsets] [|a args] Hout Hst; cbn in *; try done.
  destruct Hout as [Ha Hout], Hst as [Hb Hst]. split; [|by apply IH].
  intros j Hj. rewrite (Hb j Hj). by rewrite Hsame by lia.
Qed.

Lemma pack_args_from kernarg_address sizes :
  ∀ args base w,
    length args = length sizes →
    Forall (λ s, 0 < s) sizes →
    0 ≤ base →
    base + packed_bound sizes < 2 ^ 64 →
    ∃ offsets total w',
      pack_args kernarg_address args sizes base w = (Ret total, w') ∧
      trace w' = trace w ++ copies kernarg_address offsets args sizes ∧
      packed_layout base sizes offsets total ∧
      base ≤ total ≤ base + packed_bound sizes ∧
      (∀ a, ¬ (kernarg_address + base ≤ a < kernarg_address + total) →
            mem w' !! a = mem w !! a) ∧
      (sources_outside (kernarg_address + base)
         (kernarg_address + base + packed_bound sizes) args sizes →
       args_stored (mem w) (mem w') kernarg_address offsets args sizes) ∧
      (∀ capacity,
         within_segment capacity args sizes base = true
         ↔ Forall2 (λ o s, o + s ≤ capacity) offsets sizes).
Proof.
  induction sizes as [|s sizes IH]; intros args base w Hlen Hpos Hbase Hfit.
  - destruct args; [|discriminate]. exists [], base, w. cbn.
    rewrite app_nil_r. repeat split; try done; lia.
  - destruct args as [|a args]; [discriminate|].
    pose proof Hpos as Hpos0.
    apply Forall_cons in Hpos as [Hs Hpos].
    pose proof (packed_bound_nonneg sizes Hpos) as Hnn.
    cbn [packed_bound foldr] in Hfit |- *. fold (packed_bound sizes) in Hfit |- *.
    destruct (align_address_rounds base s) as (o & Ho & Hr); [lia..|].
    pose proof Hr as [_ Hrange].
    assert (o < base + 8) as Ho8 by lia.
    cbn [pack_args]. rewrite bind_unfold. unfold lift at 1. rewrite Ho.
    rewrite bind_unfold, memcpy_eq.
    assert (wrap64 (o + s) = o + s) as -> by (unfold wrap64; apply Z.mod_small; lia).
    set (w1 := set_mem _ _).
    edestruct (IH args (o + s) w1)
      as (offsets & total & w' & Hrun & Htr & Hlay & Htot & Hframe & Hstored & Hwithin);
      [by injection Hlen | done | lia | lia | ].
    assert (∀ x, mem w1 !! x
                 = if decide (kernarg_address + o ≤ x < kernarg_address + o + s)
                   then Some (default 0 (mem w !! (a + (x - (kernarg_address + o)))))
                   else mem w !! x) as Hw1.
    { intros x. unfold w1. cbn [mem set_mem set_trace].
      rewrite memcpy_bytes_lookup, Z2Nat.id by lia. reflexivity. }
    exists (o :: offsets), total, w'.
    split; [exact Hrun|]. split; [|split; [|split; [|split; [|split]]]].
    + rewrite Htr. cbn. rewrite <- app_assoc. reflexivity.
    + cbn. done.
    + lia.
    + intros x Hx. rewrite Hframe by lia. rewrite Hw1.
      destruct (decide _); [lia | reflexivity].
    + intros [Ha Hout]. cbn [args_stored]. split.
      * intros j Hj. rewrite Hframe by lia. rewrite Hw1.
        destruct (decide _); [|lia]. do 3 f_equal. lia.
      * eapply (args_stored_sources (mem w) (mem w1) (mem w') kernarg_address
                  (kernarg_address + o) (kernarg_address + o + s)); [|done| |].
        -- intros x Hx. rewrite Hw1. destruct (decide _); [lia | reflexivity].
        -- eapply sources_outside_narrow; [| |exact Hout]; lia.
        -- apply Hstored. eapply sources_outside_narrow; [| |exact Hout]; lia.
    + intros capacity. cbn [within_segment]. rewrite Ho.
      assert (wrap64 (o + s) = o + s) as -> by (unfold wrap64; apply Z.mod_small; lia).
      rewrite andb_true_iff, bool_decide_eq_true, Hwithin, Forall2_cons. reflexivity.
Qed.

(** C2. Argument packing. With every size at least 1 and the arguments fitting
    the address space, the loop returns, its [memcpy] calls are the arguments
    in call order, and every argument lies at the end of the previous one
    rounded up to the alignment of its own size capped at 8; when no source
    lies inside the buffer, the buffer ends up holding every argument's bytes
    at its offset. For the sizes [4; 8; 4; 16] the offsets are [0; 8; 16; 24]
    and the packed size is 40. *)
Theorem pack_args_layout (kernarg_address : Z) (args sizes : list Z) (w : World) :
  length args = length sizes →
  Forall (λ s, 0 < s) sizes →
  packed_bound sizes < 2 ^ 64 →
  (∃ offsets total w',
     pack_args kernarg_address args sizes 0 w = (Ret total, w') ∧
     trace w' = trace w ++ copies kernarg_address offsets args sizes ∧
     packed_layout 0 sizes offsets total ∧
     (sources_outside kernarg_address (kernarg_address + packed_bound sizes)
        args sizes →
      args_stored (mem w) (mem w') kernarg_address offsets args sizes)) ∧
  (∀ a1 a2 a3 a4,
     let r := pack_args kernarg_address [a1; a2; a3; a4] [4; 8; 4; 16] 0 w in
     fst r = Ret 40 ∧
     trace (snd r)
     = trace w ++ copies kernarg_address [0; 8; 16; 24] [a1; a2; a3; a4] [4; 8; 4; 16]).
Proof.
  intros Hlen Hpos Hfit. split.
  - destruct (pack_args_from kernarg_address sizes args 0 w)
      as (offsets & total & w' & Hrun & Htr & Hlay & _ & _ & Hstored & _);
      [done | done | lia | lia |].
    exists offsets, total, w'. rewrite !Z.add_0_r in Hstored. done.
  - intros a1 a2 a3 a4. cbn zeta. split; [reflexivity|].
    rewrite pack_args_cons. change (align_address 0 4) with (Ret (A:=Z) 0). cbv beta iota.
    rewrite pack_args_cons. change (align_address (wrap64 (0 + 4)) 8) with (Ret (A:=Z) 8). cbv beta iota.
    rewrite pack_args_cons. change (align_address (wrap64 (8 + 8)) 4) with (Ret (A:=Z) 16). cbv beta iota.
    rewrite pack_args_cons. change (align_address (wrap64 (16 + 4)) 16) with (Ret (A:=Z) 24). cbv beta iota.
    cbn. rewrite <- !app_assoc. reflexivity.
Qed.

Lemma pack_args_layout_witness :
  ∃ offsets total w',
    pack_args 4096 [100; 200; 300; 400] [4; 8; 4; 16] 0 w_boot = (Ret total, w') ∧
    trace w' = trace w_boot ++ copies 4096 offsets [100; 200; 300; 400] [4; 8; 4; 16] ∧
    packed_layout 0 [4; 8; 4; 16] offsets total ∧
    args_stored (mem w_boot) (mem w') 4096 offsets [100; 200; 300; 400] [4; 8; 4; 16].
Proof.
  destruct (pack_args_layout 4096 [100; 200; 300; 400] [4; 8; 4; 16] w_boot)
    as ((offsets & total & w' & Hrun & Htr & Hlay & Hstored) & _).
  - reflexivity.
  - repeat constructor.
  - vm_compute. reflexivity.
  - exists offsets, total, w'. split; [exact Hrun|]. split; [exact Htr|].
    split; [exact Hlay|]. apply Hstored. cbn. lia.
Defined.

Lemma pack_args_ret_iff kernarg_address sizes :
  ∀ args base w,
    length args = length sizes →
    Forall (λ s, 0 ≤ s) sizes →
    is_Ret (fst (pack_args kernarg_address args sizes base w)) = true
    ↔ Forall (λ s, 1 ≤ s) sizes.
Proof.
  induction sizes as [|s sizes IH]; intros args base w Hlen Hnn.
  - destruct args; [|discriminate]. cbn. split; [constructor | done].
  - destruct args as [|a args]; [discriminate|].
    apply Forall_cons in Hnn as [Hs Hnn].
    cbn [pack_args]. rewrite bind_unfold. unfold lift at 1.
    destruct (decide (s = 0)) as [->|Hs0].
    + rewrite align_address_zero. cbn. split; [discriminate|].
      intros H. apply Forall_cons in H as [? _]. lia.
    + rewrite align_address_pos by lia. rewrite bind_unfold, memcpy_eq.
      rewrite IH; [|by injection Hlen | done].
      split.
      * intros H. constructor; [lia | done].
      * intros H. by apply Forall_cons in H as [_ ?].
Qed.

(** C10. The offset of an argument is [(base + align - 1) / align * align]
    with [align] the argument's size capped at 8. For size 0 this is a division
    by zero, at any base; for a size of at least 1 it is defined. So, over
    unsigned sizes, the packing loop returns exactly when every argument size
    is at least 1. *)
Theorem pack_args_total_iff_sizes_positive
    (kernarg_address : Z) (args sizes : list Z) (base : Z) (w : World) :
  length args = length sizes →
  Forall (λ s, 0 ≤ s) sizes →
  (∀ b, align_address b 0 = Undefined "division by zero") ∧
  (∀ b s, 1 ≤ s →
     align_address b s
     = Ret (wrap64 (wrap64 (b + Z.min s 8 - 1) / Z.min s 8 * Z.min s 8))) ∧
  (is_Ret (fst (pack_args kernarg_address args sizes base w)) = true
   ↔ Forall (λ s, 1 ≤ s) sizes).
Proof.
  intros Hlen Hnn. split; [exact align_address_zero|].
  split; [exact align_address_pos|]. by apply pack_args_ret_iff.
Qed.

Lemma pack_args_size_zero_witness :
  is_Ret (fst (pack_args 4096 [100; 200] [4; 0] 0 w_boot)) = true
  ↔ Forall (λ s, 1 ≤ s) [4; 0].
Proof.
  apply (pack_args_total_iff_sizes_positive 4096 [100; 200] [4; 0] 0 w_boot).
  - reflexivity.
  - repeat constructor; lia.
Defined.

(** ** Grid geometry of the CUDA driver path *)

Lemma wrap32_small n : 0 ≤ n < 2 ^ 32 → wrap32 n = n.
Proof. intros H. unfold wrap32. by apply Z.mod_small. Qed.

Lemma cuda_launch_grid_eq (s : Cuda.State) :
  Cuda.x (Cuda.cuDimBlock s) ≠ 0 →
  Cuda.y (Cuda.cuDimBlock s) ≠ 0 →
  Cuda.z (Cuda.cuDimBlock s) ≠ 0 →
  Cuda.launch_grid s
  = (Ret {| Cuda.x := Cuda.x (Cuda.cuDimProblem s) / Cuda.x (Cuda.cuDimBlock s);
            Cuda.y := Cuda.y (Cuda.cuDimProblem s) / Cuda.y (Cuda.cuDimBlock s);
            Cuda.z := Cuda.z (Cuda.cuDimProblem s) / Cuda.z (Cuda.cuDimBlock s) |}, s).
Proof.
  intros Hx Hy Hz. unfold Cuda.launch_grid, Cuda.cbind, Cuda.udiv, Cuda.cret.
  destruct (decide (Cuda.x (Cuda.cuDimBlock s) = 0)); [done|].
  destruct (decide (Cuda.y (Cuda.cuDimBlock s) = 0)); [done|].
  destruct (decide (Cuda.z (Cuda.cuDimBlock s) = 0)); [done|].
  reflexivity.
Qed.

Lemma cbind_Ret {A B} (m : Cuda.C A) (k : A → Cuda.C B) s a s1 :
  m s = (Ret a, s1) → Cuda.cbind m k s = k a s1.
Proof. intros H. unfold Cuda.cbind. rewrite H. reflexivity. Qed.

Lemma cuda_launch_kernel_calls cu_status name (s : Cuda.State) g :
  Cuda.launch_grid s = (Ret g, s) →
  ∃ post,
    Cuda.calls (snd (Cuda.launch_kernel cu_status name s))
    = Cuda.calls s
      ++ [Cuda.cuEventCreate; Cuda.cuEventCreate; Cuda.cuEventRecord;
          Cuda.cuLaunchKernel (Cuda.x g) (Cuda.y g) (Cuda.z g)
            (Cuda.x (Cuda.cuDimBlock s)) (Cuda.y (Cuda.cuDimBlock s))
            (Cuda.z (Cuda.cuDimBlock s))]
      ++ post ∧
    Forall (λ c, match c with Cuda.cuLaunchKernel _ _ _ _ _ _ => False | _ => True end) post ∧
    (fst (Cuda.launch_kernel cu_status name s) = Ret tt →
     ∃ post', post = Cuda.cuCtxSynchronize :: post').
Proof.
  intros Hg. unfold Cuda.launch_kernel. rewrite !(cbind_Ret _ _ _ _ _ Hg).
  unfold Cuda.cbind, Cuda.cu, Cuda.checkErrDrv, Cuda.cret. cbn.
  repeat (destruct (decide _); cbn);
    (eexists; split; [rewrite <- !app_assoc; reflexivity|];
     split; [repeat constructor | intros H; try discriminate H; eexists; reflexivity]).
Qed.

(** C6. Grid geometry. After [set_problem_size] and [set_config_size] with
    values that fit [unsigned int] and non-zero block sizes, [launch_kernel]
    calls [cuLaunchKernel] once, with the grid [problem / block] in each axis
    and the block as configured. The quotient is truncated: grid times block
    never exceeds the problem size, and when the block size does not divide
    the problem size it is strictly less, below the rounded-up quotient. For
    problem (256,256,1) and block (16,16,1) the grid is (16,16,1). *)
Theorem cuda_grid_truncating_division
    (cu_status : nat → Z) (name : string) (s : Cuda.State)
    (px py pz bx by_ bz : Z) :
  0 ≤ px < 2 ^ 32 → 0 ≤ py < 2 ^ 32 → 0 ≤ pz < 2 ^ 32 →
  0 < bx < 2 ^ 32 → 0 < by_ < 2 ^ 32 → 0 < bz < 2 ^ 32 →
  let run p b :=
    Cuda.cbind (Cuda.set_problem_size p.1.1 p.1.2 p.2) (λ _,
    Cuda.cbind (Cuda.set_config_size b.1.1 b.1.2 b.2) (λ _,
    Cuda.launch_kernel cu_status name)) s in
  Cuda.launched_grids (Cuda.calls (snd (run (px, py, pz) (bx, by_, bz))))
  = Cuda.launched_grids (Cuda.calls s)
    ++ [{| Cuda.x := px / bx; Cuda.y := py / by_; Cuda.z := pz / bz |}] ∧
  (px / bx * bx ≤ px ∧ py / by_ * by_ ≤ py ∧ pz / bz * bz ≤ pz) ∧
  (px mod bx ≠ 0 → px / bx * bx < px ∧ px / bx < (px + bx - 1) / bx) ∧
  (py mod by_ ≠ 0 → py / by_ * by_ < py ∧ py / by_ < (py + by_ - 1) / by_) ∧
  (pz mod bz ≠ 0 → pz / bz * bz < pz ∧ pz / bz < (pz + bz - 1) / bz) ∧
  Cuda.launched_grids (Cuda.calls (snd (run (256, 256, 1) (16, 16, 1))))
  = Cuda.launched_grids (Cuda.calls s) ++ [{| Cuda.x := 16; Cuda.y := 16; Cuda.z := 1 |}].
Proof.
  intros Hpx Hpy Hpz Hbx Hby Hbz run.
  assert (Hrun : ∀ p1 p2 p3 b1 b2 b3,
    0 ≤ p1 < 2 ^ 32 → 0 ≤ p2 < 2 ^ 32 → 0 ≤ p3 < 2 ^ 32 →
    0 < b1 < 2 ^ 32 → 0 < b2 < 2 ^ 32 → 0 < b3 < 2 ^ 32 →
    Cuda.launched_grids (Cuda.calls (snd (run (p1, p2, p3) (b1, b2, b3))))
    = Cuda.launched_grids (Cuda.calls s)
      ++ [{| Cuda.x := p1 / b1; Cuda.y := p2 / b2; Cuda.z := p3 / b3 |}]).
  { intros p1 p2 p3 b1 b2 b3 H1 H2 H3 H4 H5 H6. unfold run. cbn [fst snd].
    unfold Cuda.cbind at 1 2. cbn [Cuda.set_problem_size Cuda.set_config_size].
    rewrite !wrap32_small by lia.
    set (s1 := {| Cuda.cuDimProblem := _ |}).
    edestruct (cuda_launch_kernel_calls cu_status name s1) as (post & -> & Hpost & _).
    { apply cuda_launch_grid_eq; cbn; lia. }
    cbn [s1 Cuda.calls Cuda.cuDimProblem Cuda.cuDimBlock Cuda.x Cuda.y Cuda.z].
    unfold Cuda.launched_grids. rewrite !omap_app. cbn.
    f_equal. f_equal.
    clear -Hpost. induction Hpost as [|c post Hc _ IH]; [done|].
    destruct c; cbn; done. }
  split; [by apply Hrun|].
  assert (Hdiv : ∀ p b, 0 ≤ p → 0 < b →
            p / b * b ≤ p ∧ (p mod b ≠ 0 → p / b * b < p ∧ p / b < (p + b - 1) / b)).
  { intros p b Hp Hb.
    pose proof (Z.div_mod p b ltac:(lia)) as Hdm.
    pose proof (Z.mod_pos_bound p b Hb) as Hm.
    split; [nia|]. intros Hne. split; [nia|].
    rewrite <- (Z.div_unique_pos (p + b - 1) b (p / b + 1) (p mod b - 1)); lia. }
  destruct (Hdiv px bx) as [? ?]; [lia..|].
  destruct (Hdiv py by_) as [? ?]; [lia..|].
  destruct (Hdiv pz bz) as [? ?]; [lia..|].
  split; [done|]. split; [done|]. split; [done|]. split; [done|].
  exact (Hrun 256 256 1 16 16 1 ltac:(lia) ltac:(lia) ltac:(lia)
           ltac:(lia) ltac:(lia) ltac:(lia)).
Qed.

Lemma cuda_grid_truncating_division_witness :
  Cuda.launched_grids (Cuda.calls (snd
    (Cuda.cbind (Cuda.set_problem_size 100 7 1) (λ _,
     Cuda.cbind (Cuda.set_config_size 16 2 1) (λ _,
     Cuda.launch_kernel (λ _, Cuda.CUDA_SUCCESS) "kernel")) Cuda.initial)))
  = [{| Cuda.x := 6; Cuda.y := 3; Cuda.z := 1 |}] ∧
  100 / 16 * 16 < 100 ∧ 100 / 16 < (100 + 16 - 1) / 16.
Proof.
  pose proof (cuda_grid_truncating_division (λ _, Cuda.CUDA_SUCCESS) "kernel"
                Cuda.initial 100 7 1 16 2 1
                ltac:(lia) ltac:(lia) ltac:(lia) ltac:(lia) ltac:(lia) ltac:(lia))
    as (Hgrid & _ & Hx & _).
  split; [exact Hgrid|]. apply Hx. vm_compute. discriminate.
Defined.

(** ** Dispatch into the command queue *)

Lemma device_eq dev w d :
  0 ≤ dev → devices_ w !! Z.to_nat dev = Some d → device dev w = (Ret d, w).
Proof.
  intros Hdev Hd. unfold device. destruct (decide (0 ≤ dev)); [|lia].
  rewrite Hd. reflexivity.
Qed.

Lemma queue_mask_slot index n :
  0 ≤ n < 32 → Z.land index (wrap32 (2 ^ n - 1)) = index mod 2 ^ n.
Proof.
  intros Hn. rewrite wrap32_small.
  - rewrite <- Z.land_ones by lia. f_equal. rewrite Z.ones_equiv. lia.
  - assert (0 < 2 ^ n) by (apply Z.pow_pos_nonneg; lia).
    assert (2 ^ n ≤ 2 ^ 31) by (apply Z.pow_le_mono_r; lia). lia.
Qed.

Lemma get_eq w : get w = (Ret w, w).
Proof. reflexivity. Qed.

Lemma ret_eq {A} (a : A) w : ret a w = (Ret a, w).
Proof. reflexivity. Qed.

Lemma emit_eq e w : emit e w = (Ret tt, set_trace (trace w ++ [e]) w).
Proof. reflexivity. Qed.

Lemma signal_add_relaxed_eq s v w :
  signal_add_relaxed s v w
  = (Ret tt, set_signals (<[s := wrap_s64 (signal_value w s + v)]> (signals w))
               (set_trace (trace w ++ [EvHsa hsa_signal_add_relaxed [s; v]]) w)).
Proof. reflexivity. Qed.

Lemma signal_store_relaxed_eq s v w :
  signal_store_relaxed s v w
  = (Ret tt, set_signals (<[s := wrap_s64 v]> (signals w))
               (set_trace (trace w ++ [EvHsa hsa_signal_store_relaxed [s; wrap_s64 v]]) w)).
Proof. reflexivity. Qed.

Lemma signal_create_ok drv initial w :
  drv_status drv (length (trace w)) hsa_signal_create = HSA_STATUS_SUCCESS →
  signal_create drv initial w
  = (Ret (HSA_STATUS_SUCCESS, next_handle w),
     set_signals (<[next_handle w := initial]> (signals w))
       (set_next_handle (next_handle w + 1)
          (set_trace (trace w ++ [EvHsa hsa_signal_create [initial; 0]]) w))).
Proof.
  intros Hok. unfold signal_create. rewrite bind_unfold. unfold hsa_call.
  rewrite Hok. reflexivity.
Qed.

Lemma queue_deref_eq q w qd :
  queues w !! q = Some qd → queue_deref q w = (Ret qd, w).
Proof. intros H. unfold queue_deref. rewrite H. reflexivity. Qed.

Lemma queue_load_write_index_relaxed_eq q w qd :
  queues w !! q = Some qd →
  queue_load_write_index_relaxed q w
  = (Ret (q_write_index qd),
     set_trace (trace w ++ [EvHsa hsa_queue_load_write_index_relaxed [q]]) w).
Proof.
  intros H. unfold queue_load_write_index_relaxed, hsa_do.
  rewrite (bind_Ret _ _ _ _ _ (emit_eq _ _)).
  erewrite (bind_Ret _ _ _ qd); [reflexivity|].
  apply queue_deref_eq. exact H.
Qed.

Lemma queue_store_write_index_relaxed_eq q v w :
  queue_store_write_index_relaxed q v w
  = (Ret tt, set_queues (alter (with_write_index v) q (queues w))
       (set_trace (trace w ++ [EvHsa hsa_queue_store_write_index_relaxed [q; v]]) w)).
Proof. reflexivity. Qed.

Lemma write_packet_eq q slot aql w :
  write_packet q slot aql w
  = (Ret tt,
     set_queues (alter (λ qd, with_ring (<[slot := aql]> (q_ring qd)) qd) q (queues w))
       (set_trace (trace w ++ [EvPacketWrite q slot aql]) w)).
Proof. reflexivity. Qed.

(** One step of symbolic execution: the first computation of a [bind] is
    replaced by its result. *)
Ltac mprim :=
  first
    [ apply get_eq | apply ret_eq | apply emit_eq
    | apply signal_add_relaxed_eq | apply signal_store_relaxed_eq
    | apply write_packet_eq | apply queue_store_write_index_relaxed_eq
    | apply CHECK_HSA_success
    | apply device_eq; [lia | eassumption]
    | apply queue_deref_eq; eassumption
    | apply queue_load_write_index_relaxed_eq; eassumption
    | apply signal_create_ok; solve [eauto] ].

Ltac mstep := erewrite bind_Ret; [| solve [mprim] ].

Lemma dispatch_run drv dev queue k kernarg grid block w d qd n :
  0 ≤ dev → devices_ w !! Z.to_nat dev = Some d →
  queues w !! queue = Some qd →
  q_size qd = 2 ^ n → 0 ≤ n < 32 →
  (∀ i, drv_status drv i hsa_signal_create = HSA_STATUS_SUCCESS) →
  ∃ aql mid tail w',
    dispatch drv dev queue k kernarg grid block w = (Ret tt, w') ∧
    trace w' = trace w
      ++ [EvHsa hsa_signal_add_relaxed [signal d; 1]] ++ mid
      ++ [EvHsa hsa_queue_load_write_index_relaxed [queue];
          EvPacketWrite queue (q_write_index qd mod q_size qd) aql;
          EvHsa hsa_queue_store_write_index_relaxed [queue; wrap64 (q_write_index qd + 1)];
          EvHsa hsa_signal_store_relaxed
            [q_doorbell_signal qd; wrap_s64 (q_write_index qd)]]
      ++ tail ∧
    Forall (λ e, is_queue_event e = false) (mid ++ tail) ∧
    kernel_object aql = k.1.1.1 ∧
    kernarg_address aql = kernarg ∧
    devices_ w' = devices_ w ∧
    queues w' !! queue =
      Some (with_write_index (wrap64 (q_write_index qd + 1))
              (with_ring (<[q_write_index qd mod q_size qd := aql]> (q_ring qd)) qd)).
Proof.
  intros Hdev Hd Hq Hsize Hn Hcreate.
  destruct k as [[[kernel ks] gs] ps], grid as [[g0 g1] g2], block as [[b0 b1] b2].
  unfold dispatch. do 3 mstep.
  cbn [profiling_enabled set_signals set_trace].
  destruct (profiling_enabled w) eqn:Hprof.
  - erewrite (bind_Ret _ _ _ (next_handle _)).
    2:{ mstep. cbn [fst snd]. mstep. reflexivity. }
    do 6 mstep.
    cbn [profiling_enabled set_signals set_trace set_queues set_next_handle].
    rewrite Hprof, emit_eq.
    rewrite Hsize, (queue_mask_slot _ n Hn).
    eexists _, [_], [_], _. split; [reflexivity|].
    cbn [trace devices_ queues set_signals set_trace set_queues set_next_handle
         kernel_object kernarg_address fst].
    split; [rewrite <- !app_assoc; reflexivity|].
    split; [repeat constructor|].
    do 3 (split; [reflexivity|]).
    rewrite !lookup_alter_eq, Hq. reflexivity.
  - mstep. do 6 mstep.
    cbn [profiling_enabled set_signals set_trace set_queues set_next_handle].
    rewrite Hprof, ret_eq.
    rewrite Hsize, (queue_mask_slot _ n Hn).
    eexists _, [], [], _. split; [reflexivity|].
    cbn [trace devices_ queues set_signals set_trace set_queues set_next_handle
         kernel_object kernarg_address fst].
    split; [rewrite <- !app_assoc; reflexivity|].
    split; [repeat constructor|].
    do 3 (split; [reflexivity|]).
    rewrite !lookup_alter_eq, Hq. reflexivity.
Qed.

(** ** What a computation adds to the trace *)


Section Emits.

Context (P : event → bool).

Lemma emits_silent {A} (m : M A) :
  (∀ w, trace (snd (m w)) = trace w) → emits P m.
Proof. intros H w. exists []. rewrite app_nil_r. split; [apply H | constructor]. Qed.

Lemma emits_bind {A B} (m : M A) (k : A → M B) :
  emits P m → (∀ a, emits P (k a)) → emits P (bind m k).
Proof.
  intros Hm Hk w. destruct (Hm w) as (t1 & Ht1 & HP1).
  rewrite bind_unfold. destruct (m w) as [[a|msg|why] w1]; cbn in Ht1.
  - destruct (Hk a w1) as (t2 & Ht2 & HP2). exists (t1 ++ t2).
    rewrite Ht2, Ht1, app_assoc. split; [done | by apply Forall_app].
  - exists t1. done.
  - exists t1. done.
Qed.

Lemma emits_ret {A} (a : A) : emits P (ret a).
Proof. by apply emits_silent. Qed.

Lemma emits_error {A} msg : emits P (error (A:=A) msg).
Proof. by apply emits_silent. Qed.

Lemma emits_undefined {A} why : emits P (undefined (A:=A) why).
Proof. by apply emits_silent. Qed.

Lemma emits_get : emits P get.
Proof. by apply emits_silent. Qed.

Lemma emits_lift {A} (o : outcome A) : emits P (lift o).
Proof. by apply emits_silent. Qed.

Lemma emits_fresh : emits P fresh.
Proof. by apply emits_silent. Qed.

Lemma emits_modify f : (∀ w, trace (f w) = trace w) → emits P (modify f).
Proof. intros H. apply emits_silent. intros w. apply H. Qed.

Lemma emits_emit e : P e = true → emits P (emit e).
Proof. intros He w. exists [e]. split; [reflexivity | by constructor]. Qed.

Lemma emits_hsa_call drv api args :
  P (EvHsa api args) = true → emits P (hsa_call drv api args).
Proof. intros He w. exists [EvHsa api args]. split; [reflexivity | by constructor]. Qed.

Lemma emits_hsa_query drv api h what :
  P (EvQuery api h what) = true → emits P (hsa_query drv api h what).
Proof. intros He w. exists [EvQuery api h what]. split; [reflexivity | by constructor]. Qed.

Lemma emits_device dev : emits P (device dev).
Proof.
  apply emits_silent. intros w. unfold device.
  destruct (decide (0 ≤ dev)); [|done]. by destruct (devices_ w !! Z.to_nat dev).
Qed.

Lemma emits_queue_deref q : emits P (queue_deref q).
Proof.
  apply emits_silent. intros w. unfold queue_deref. by destruct (queues w !! q).
Qed.

End Emits.

(** Structural steps shared by the trace and frame arguments below. *)
Ltac head_of t := lazymatch t with ?f _ => head_of f | _ => t end.

Ltac emits_step :=
  lazymatch goal with
  | |- emits _ (bind _ _) => apply emits_bind; [| intros ?; cbv beta]
  | |- emits _ (ret _) => apply emits_ret
  | |- emits _ (error _) => apply emits_error
  | |- emits _ (undefined _) => apply emits_undefined
  | |- emits _ get => apply emits_get
  | |- emits _ fresh => apply emits_fresh
  | |- emits _ (lift _) => apply emits_lift
  | |- emits _ (device _) => apply emits_device
  | |- emits _ (queue_deref _) => apply emits_queue_deref
  | |- emits _ (emit _) => apply emits_emit; reflexivity
  | |- emits _ (hsa_call _ _ _) => apply emits_hsa_call; reflexivity
  | |- emits _ (hsa_query _ _ _ _) => apply emits_hsa_query; reflexivity
  | |- emits _ (modify _) => apply emits_modify; intros ?; reflexivity
  | |- emits _ (λ w, _) => apply emits_silent; intros ?; reflexivity
  | |- emits _ (match ?x with _ => _ end) => destruct x
  | |- emits _ (let (_, _) := ?x in _) => destruct x
  | |- emits _ ?m => let h := head_of m in unfold h
  end.

Ltac emits_auto := repeat emits_step.

Lemma emits_CHECK_HSA P drv err name :
  P (EvHsa hsa_status_string [err]) = true →
  P (EvInfo "hsa_status_string failed") = true →
  emits P (CHECK_HSA drv err name).
Proof.
  intros H1 H2. unfold CHECK_HSA. destruct (decide _); [apply emits_ret|].
  apply emits_bind; [by apply emits_hsa_call|]. intros r.
  apply emits_bind; [|intros; apply emits_error].
  destruct (decide _); [apply emits_ret | by apply emits_emit].
Qed.


Lemma emits_pack_args_inert kernarg sizes :
  ∀ args base, emits inert (pack_args kernarg args sizes base).
Proof.
  induction sizes as [|s sizes IH]; intros [|a args] base; cbn [pack_args];
    try apply emits_ret.
  emits_step; [emits_auto|]. emits_step; [emits_auto|]. apply IH.
Qed.

Lemma emits_load_file_inert f : emits inert (load_file f).
Proof. emits_auto. Qed.

Lemma emits_emit_gcn_inert drv program cpu filename opt :
  emits inert (emit_gcn drv program cpu filename opt).
Proof. emits_auto. Qed.

Lemma emits_lk_step_inert drv dev filename kernelname pc :
  emits inert (lk_step drv dev filename kernelname pc).
Proof.
  destruct pc; cbn [lk_step]; emits_auto.
Qed.

Lemma emits_lk_run_inert drv fuel dev filename kernelname :
  ∀ pc, emits inert (lk_run drv fuel dev filename kernelname pc).
Proof.
  induction fuel as [|fuel IH]; intros pc.
  - destruct pc; cbn [lk_run]; emits_auto.
  - destruct pc; cbn [lk_run]; try apply emits_ret;
      (apply emits_bind; [apply emits_lk_step_inert | intros; apply IH]).
Qed.

Lemma emits_dispatch_calm drv dev queue k kernarg grid block :
  emits calm (dispatch drv dev queue k kernarg grid block).
Proof.
  destruct k as [[[kernel ks] gs] ps], grid as [[g0 g1] g2], block as [[b0 b1] b2].
  unfold dispatch. emits_auto.
Qed.

Lemma emits_weaken (P Q : event → bool) {A} (m : M A) :
  (∀ e, P e = true → Q e = true) → emits P m → emits Q m.
Proof.
  intros HPQ Hm w. destruct (Hm w) as (t & Ht & HP). exists t. split; [done|].
  eapply Forall_impl; [exact HP | exact HPQ].
Qed.

Lemma inert_calm e : inert e = true → calm e = true.
Proof. unfold inert, calm. by destruct (is_wait e), (is_destroy e). Qed.

Lemma emits_load_kernel_inert drv dev file name :
  emits inert (load_kernel drv dev file name).
Proof. unfold load_kernel. emits_step; [apply emits_lk_run_inert | emits_auto]. Qed.

Lemma emits_launch_kernel_calm drv dev file name grid block args sizes :
  emits calm (launch_kernel drv dev file name grid block args sizes).
Proof.
  unfold launch_kernel.
  emits_step; [emits_auto|]. emits_step; [emits_auto|].
  emits_step.
  { apply (emits_weaken inert); [exact inert_calm | apply emits_load_kernel_inert]. }
  emits_step; [emits_auto|]. emits_step; [emits_auto|].
  emits_step.
  emits_step; [emits_auto|].
  emits_step.
  { destruct (within_segment _ _ _ _); [|apply emits_undefined].
    apply (emits_weaken inert); [exact inert_calm | apply emits_pack_args_inert]. }
  emits_step; [emits_auto|]. apply emits_dispatch_calm.
Qed.


(** ** What a computation leaves untouched *)

Section Preserves.

Context {B : Type} (proj : World → B).

Lemma preserves_bind {A C} (m : M A) (k : A → M C) :
  preserves proj m → (∀ a, preserves proj (k a)) → preserves proj (bind m k).
Proof.
  intros Hm Hk w. rewrite bind_unfold. specialize (Hm w).
  destruct (m w) as [[a|msg|why] w1]; cbn in Hm; [|done..].
  rewrite Hk. exact Hm.
Qed.

Lemma preserves_same {A} (m : M A) : (∀ w, snd (m w) = w) → preserves proj m.
Proof. intros H w. by rewrite H. Qed.

Lemma preserves_device dev : preserves proj (device dev).
Proof.
  apply preserves_same. intros w. unfold device.
  destruct (decide (0 ≤ dev)); [|done]. by destruct (devices_ w !! Z.to_nat dev).
Qed.

Lemma preserves_queue_deref q : preserves proj (queue_deref q).
Proof.
  apply preserves_same. intros w. unfold queue_deref. by destruct (queues w !! q).
Qed.

End Preserves.

Ltac preserves_step :=
  lazymatch goal with
  | |- preserves _ (bind _ _) => apply preserves_bind; [| intros ?; cbv beta]
  | |- preserves _ (device _) => apply preserves_device
  | |- preserves _ (queue_deref _) => apply preserves_queue_deref
  | |- preserves _ (ret _) => intros ?; reflexivity
  | |- preserves _ (error _) => intros ?; reflexivity
  | |- preserves _ (undefined _) => intros ?; reflexivity
  | |- preserves _ get => intros ?; reflexivity
  | |- preserves _ fresh => intros ?; reflexivity
  | |- preserves _ (lift _) => intros ?; reflexivity
  | |- preserves _ (emit _) => intros ?; reflexivity
  | |- preserves _ (hsa_call _ _ _) => intros ?; reflexivity
  | |- preserves _ (hsa_query _ _ _ _) => intros ?; reflexivity
  | |- preserves _ (modify _) => intros ?; reflexivity
  | |- preserves _ (λ w, _) => intros ?; reflexivity
  | |- preserves _ (match ?x with _ => _ end) => destruct x
  | |- preserves _ ?m => let h := head_of m in unfold h
  end.

Ltac preserves_auto := repeat preserves_step.

Lemma preserves_devices_lk_compile drv dev filename :
  preserves devices_ (lk_compile drv dev filename).
Proof. preserves_auto. Qed.

Lemma preserves_devices_lk_resolve drv dev executable kernelname :
  preserves devices_ (lk_resolve drv dev executable kernelname).
Proof. preserves_auto. Qed.

(** ** The cache after a call by one thread *)

Lemma device_Ret_inv dev w d w' :
  device dev w = (Ret d, w') →
  w' = w ∧ 0 ≤ dev ∧ devices_ w !! Z.to_nat dev = Some d.
Proof.
  unfold device. destruct (decide (0 ≤ dev)); [|discriminate].
  destruct (devices_ w !! Z.to_nat dev); [|discriminate].
  intros [= <- <-]. done.
Qed.

Lemma alter_fixed {A} (f : A → A) (l : list A) i x :
  l !! i = Some x → f x = x → alter f i l = l.
Proof.
  intros Hl Hf. apply list_eq. intros j. destruct (decide (i = j)) as [<-|Hne].
  - rewrite list_lookup_alter_eq, Hl. cbn. by rewrite Hf.
  - by rewrite list_lookup_alter_ne.
Qed.

Lemma update_device_eq dev f w :
  update_device dev f w = (Ret tt, set_devices (alter f (Z.to_nat dev) (devices_ w)) w).
Proof. reflexivity. Qed.

Section Cache.

Context (drv : Driver) (dev : Z) (filename kernelname : string).

Lemma lk_lookup_kernel_inv e w pc w' d :
  0 ≤ dev → devices_ w !! Z.to_nat dev = Some d →
  programs d !! filename = Some e →
  lk_lookup_kernel dev e kernelname w = (Ret pc, w') →
  lk_inv dev filename kernelname w' pc.
Proof.
  intros Hdev Hd Hprog. unfold lk_lookup_kernel.
  rewrite (bind_Ret _ _ _ _ _ (device_eq dev w d Hdev Hd)).
  rewrite (bind_Ret _ _ _ _ _ (update_device_eq _ _ _)).
  set (km := default ∅ (kernels d !! e)).
  destruct (km !! kernelname) as [k|] eqn:Hk.
  - rewrite (bind_Ret _ _ _ _ _ (emit_eq _ _)). intros [= <- <-].
    cbn. split; [done|]. eexists. split.
    { rewrite list_lookup_alter_eq, Hd. reflexivity. }
    cbn. split; [done|]. exists km. by rewrite lookup_insert_eq.
  - rewrite (bind_Ret _ _ _ _ _ (emit_eq _ _)). intros [= <- <-].
    cbn. split; [done|]. eexists. split.
    { rewrite list_lookup_alter_eq, Hd. reflexivity. }
    cbn. split; [done|]. exists km. by rewrite lookup_insert_eq.
Qed.

Lemma lk_step_inv pc w pc' w' :
  lk_inv dev filename kernelname w pc →
  lk_step drv dev filename kernelname pc w = (Ret pc', w') →
  lk_inv dev filename kernelname w' pc'.
Proof.
  intros Hinv Hstep. destruct pc as [| |e|e|e k|e k]; cbn [lk_step] in Hstep.
  - rewrite (bind_Ret _ _ _ _ _ (emit_eq _ _)) in Hstep.
    apply bind_Ret_inv in Hstep as (d & w1 & Hdev & Hstep).
    apply device_Ret_inv in Hdev as (-> & Hdev & Hd).
    destruct (programs d !! filename) as [e|] eqn:Hprog.
    + by eapply lk_lookup_kernel_inv.
    + rewrite (bind_Ret _ _ _ _ _ (emit_eq _ _)) in Hstep.
      by injection Hstep as <- <-.
  - apply bind_Ret_inv in Hstep as (e & w1 & _ & Hstep). by injection Hstep as <- <-.
  - rewrite (bind_Ret _ _ _ _ _ (emit_eq _ _)) in Hstep.
    apply bind_Ret_inv in Hstep as (d & w1 & Hdev & Hstep).
    apply device_Ret_inv in Hdev as (-> & Hdev & Hd).
    cbn [devices_ set_trace] in Hd.
    rewrite (bind_Ret _ _ _ _ _ (update_device_eq _ _ _)) in Hstep.
    eapply lk_lookup_kernel_inv; [done | | | exact Hstep].
    + cbn. rewrite list_lookup_alter_eq, Hd. reflexivity.
    + cbn. by rewrite lookup_insert_eq.
  - apply bind_Ret_inv in Hstep as (k & w1 & Hres & Hstep). injection Hstep as <- <-.
    pose proof (preserves_devices_lk_resolve drv dev e kernelname w) as Hfr.
    rewrite Hres in Hfr. cbn in Hfr.
    destruct Hinv as (Hdev & d & Hd & Hprog & km & Hkm & Hk).
    cbn. rewrite Hfr. eauto 10.
  - destruct Hinv as (Hdev & d & Hd & Hprog & km & Hkm & Hk).
    rewrite (bind_Ret _ _ _ _ _ (emit_eq _ _)) in Hstep.
    erewrite (bind_Ret _ _ _ d) in Hstep; [|apply device_eq; [done | exact Hd]].
    rewrite (bind_Ret _ _ _ _ _ (update_device_eq _ _ _)) in Hstep.
    rewrite (bind_Ret _ _ _ _ _ (emit_eq _ _)) in Hstep.
    injection Hstep as <- <-. cbn. split; [done|]. eexists. split.
    { rewrite list_lookup_alter_eq, Hd. reflexivity. }
    cbn. split; [done|]. eexists. rewrite lookup_insert_eq. split; [done|].
    rewrite Hkm. cbn. unfold emplace. rewrite Hk. by rewrite lookup_insert_eq.
  - by injection Hstep as <- <-.
Qed.

Lemma lk_run_cached fuel :
  ∀ pc w e k w',
    lk_inv dev filename kernelname w pc →
    lk_run drv fuel dev filename kernelname pc w = (Ret (e, k), w') →
    lk_inv dev filename kernelname w' (LkReturn e k).
Proof.
  induction fuel as [|fuel IH]; intros pc w e k w' Hinv Hrun.
  - destruct pc; cbn in Hrun; try discriminate. by injection Hrun as <- <- <-.
  - destruct pc; cbn [lk_run] in Hrun;
      try (apply bind_Ret_inv in Hrun as (pc' & w1 & Hstep & Hrun);
           eapply IH; [eapply lk_step_inv; [exact Hinv | exact Hstep] | exact Hrun]).
    by injection Hrun as <- <- <-.
Qed.

Lemma lk_run_hit fuel w e k :
  lk_inv dev filename kernelname w (LkReturn e k) →
  lk_run drv (S fuel) dev filename kernelname LkEntry w
  = (Ret (e, k), set_trace (trace w ++ [EvLock dev; EvUnlock dev]) w).
Proof.
  intros (Hdev & d & Hd & Hprog & km & Hkm & Hk).
  cbn [lk_run lk_step].
  erewrite (bind_Ret _ _ _ (LkReturn e k)).
  - destruct fuel; reflexivity.
  - rewrite (bind_Ret _ _ _ _ _ (emit_eq _ _)).
    erewrite (bind_Ret _ _ _ d); [|by apply device_eq].
    rewrite Hprog. unfold lk_lookup_kernel.
    erewrite (bind_Ret _ _ _ d); [|by apply device_eq].
    rewrite (bind_Ret _ _ _ _ _ (update_device_eq _ _ _)).
    rewrite Hkm. cbn [default from_option id]. rewrite Hk.
    rewrite (bind_Ret _ _ _ _ _ (emit_eq _ _)). rewrite ret_eq.
    f_equal. cbn [devices_ set_trace set_devices trace].
    rewrite (alter_fixed _ _ _ d); [ | done | ].
    + unfold set_trace, set_devices. cbn. rewrite <- app_assoc. reflexivity.
    + rewrite insert_id by done. by destruct d.
Qed.

End Cache.

(** With the file cached, a call for any kernel of it goes from the entry
    straight to the kernel lookup in the cached executable: it never enters
    the compile stage. *)
Lemma lk_step_entry_cached drv dev filename kernelname kernelname' w e k :
  lk_inv dev filename kernelname w (LkReturn e k) →
  ∃ pc' w',
    lk_step drv dev filename kernelname' LkEntry w = (Ret pc', w') ∧
    (pc' = LkResolve e ∨ ∃ k', pc' = LkReturn e k') ∧
    trace w' = trace w ++ [EvLock dev; EvUnlock dev].
Proof.
  intros (Hdev & d & Hd & Hprog & _).
  cbn [lk_step]. rewrite (bind_Ret _ _ _ _ _ (emit_eq _ _)).
  erewrite (bind_Ret _ _ _ d); [|by apply device_eq].
  rewrite Hprog. unfold lk_lookup_kernel.
  erewrite (bind_Ret _ _ _ d); [|by apply device_eq].
  rewrite (bind_Ret _ _ _ _ _ (update_device_eq _ _ _)).
  destruct (default ∅ (kernels d !! e) !! kernelname') as [k'|];
    rewrite (bind_Ret _ _ _ _ _ (emit_eq _ _)), ret_eq;
    eexists _, _; (split; [reflexivity|]); (split; [eauto|]);
    cbn; by rewrite <- app_assoc.
Qed.

(** ** Five steps are enough for [load_kernel] *)

Lemma lk_lookup_kernel_rank dev e kernelname w pc w' :
  lk_lookup_kernel dev e kernelname w = (Ret pc, w') → (lk_rank pc ≤ 2)%nat.
Proof.
  unfold lk_lookup_kernel. intros H.
  apply bind_Ret_inv in H as (d & w1 & _ & H).
  apply bind_Ret_inv in H as ([] & w2 & _ & H).
  destruct (_ !! kernelname);
    apply bind_Ret_inv in H as ([] & w3 & _ & H); injection H as <- <-; cbn; lia.
Qed.

Lemma lk_step_rank drv dev filename kernelname pc w pc' w' :
  lk_step drv dev filename kernelname pc w = (Ret pc', w') →
  (lk_rank pc' ≤ pred (lk_rank pc))%nat.
Proof.
  intros H. destruct pc; cbn [lk_step] in H.
  - apply bind_Ret_inv in H as ([] & w1 & _ & H).
    apply bind_Ret_inv in H as (d & w2 & _ & H).
    destruct (programs d !! filename).
    + apply lk_lookup_kernel_rank in H. cbn. lia.
    + apply bind_Ret_inv in H as ([] & w3 & _ & H). injection H as <- <-. cbn. lia.
  - apply bind_Ret_inv in H as (e & w1 & _ & H). injection H as <- <-. cbn. lia.
  - apply bind_Ret_inv in H as ([] & w1 & _ & H).
    apply bind_Ret_inv in H as (d & w2 & _ & H).
    apply bind_Ret_inv in H as ([] & w3 & _ & H).
    apply lk_lookup_kernel_rank in H. cbn. lia.
  - apply bind_Ret_inv in H as (k & w1 & _ & H). injection H as <- <-. cbn. lia.
  - apply bind_Ret_inv in H as ([] & w1 & _ & H).
    apply bind_Ret_inv in H as (d & w2 & _ & H).
    apply bind_Ret_inv in H as ([] & w3 & _ & H).
    apply bind_Ret_inv in H as ([] & w4 & _ & H).
    injection H as <- <-. cbn. lia.
  - injection H as <- <-. cbn. lia.
Qed.

(** Fuel beyond the rank of the program point changes nothing; in
    particular [load_kernel] never runs out of its five steps. *)
Lemma lk_run_fuel drv dev filename kernelname fuel :
  ∀ extra pc w,
    (lk_rank pc ≤ fuel)%nat →
    lk_run drv (fuel + extra) dev filename kernelname pc w
    = lk_run drv fuel dev filename kernelname pc w.
Proof.
  induction fuel as [|fuel IH]; intros extra pc w Hrank.
  - destruct pc; cbn in Hrank; try lia. by destruct extra.
  - destruct pc; try reflexivity;
      (cbn [Nat.add lk_run]; rewrite !bind_unfold;
       match goal with
       | |- context [lk_step ?d ?v ?f ?kn ?pc0 ?w0] =>
           destruct (lk_step d v f kn pc0 w0) as [[pc'|msg|why] w1] eqn:Hstep
       end; [|reflexivity..];
       apply lk_step_rank in Hstep; apply IH; cbn in Hstep, Hrank; lia).
Qed.

(** C4. The program cache is keyed by the file name alone. Once a call of
    [load_kernel] has returned for a device, file and kernel, registering any
    other text under the same file name changes nothing for the next call: it
    returns the same executable and the same kernel, and all it does is take
    and release the device lock; no file is read, nothing is compiled and no
    driver call is made. A call for another kernel of the same file goes from
    the entry to the kernel lookup in that same executable as well. *)
Theorem cache_keyed_by_filename_only
    (drv : Driver) (dev : Z) (filename kernelname text' : string)
    (w w1 : World) (e : Z) (k : kernel_info) :
  load_kernel_executable drv dev filename kernelname w = (Ret (e, k), w1) →
  let w2 := snd (register_file filename text' w1) in
  let w3 := set_trace (trace w2 ++ [EvLock dev; EvUnlock dev]) w2 in
  files_ w2 !! filename = Some text' ∧
  load_kernel_executable drv dev filename kernelname w2 = (Ret (e, k), w3) ∧
  load_kernel drv dev filename kernelname w2 = (Ret k, w3) ∧
  (∀ kernelname',
     ∃ pc' w',
       lk_step drv dev filename kernelname' LkEntry w2 = (Ret pc', w') ∧
       (pc' = LkResolve e ∨ ∃ k', pc' = LkReturn e k') ∧
       trace w' = trace w2 ++ [EvLock dev; EvUnlock dev]).
Proof.
  intros Hfirst w2 w3.
  assert (lk_inv dev filename kernelname w2 (LkReturn e k)) as Hcached.
  { apply (lk_run_cached drv dev filename kernelname 5 LkEntry w e k w1 I) in Hfirst.
    exact Hfirst. }
  pose proof (lk_run_hit drv dev filename kernelname 4 w2 e k Hcached) as Hhit.
  split; [apply lookup_insert_eq|]. split; [exact Hhit|]. split.
  - unfold load_kernel. rewrite (bind_Ret _ _ _ _ _ Hhit). reflexivity.
  - intros kernelname'. by eapply lk_step_entry_cached.
Qed.

Lemma cache_keyed_by_filename_only_witness :
  let w1 := snd (load_kernel_executable drv_ok 0 "k.gcn" "main" w_ready) in
  let w2 := snd (register_file "k.gcn" "another code object" w1) in
  files_ w2 !! "k.gcn" = Some "another code object" ∧
  fst (load_kernel drv_ok 0 "k.gcn" "main" w2) = Ret (24576, 40, 0, 0).
Proof.
  cbv zeta.
  destruct (cache_keyed_by_filename_only drv_ok 0 "k.gcn" "main" "another code object"
              w_ready (snd (load_kernel_executable drv_ok 0 "k.gcn" "main" w_ready))
              6 (24576, 40, 0, 0)) as (Hfile & _ & Hload & _).
  - vm_compute. reflexivity.
  - split; [exact Hfile|]. rewrite Hload. reflexivity.
Defined.

(** C1. Two threads call [load_kernel] for the same device and file, and
    both miss the cache before either publishes. Each builds an executable
    (6 and 8). The first to re-take the lock publishes 6; the second finds
    that entry present and overwrites it with 8. The two calls return with
    different executables and different kernel objects, and executable 6 is no
    longer reachable from the cache: the last publish wins. *)
Theorem load_kernel_race_last_publish_wins :
  let first_publish := run_schedule drv_ok [0; 1; 0; 1; 0]%nat [racer; racer] w_ready in
  let final := run_schedule drv_ok [0; 1; 0; 1; 0; 1; 0; 1; 0; 1]%nat [racer; racer] w_ready in
  t_pc <$> threads_of (fst first_publish) = [LkResolve 6; LkPublish 8] ∧
  (programs <$> devices_ (snd first_publish) !! 0%nat) ≫= (.!! "k.gcn") = Some 6 ∧
  returned_executable <$> threads_of (fst final) = [Some 6; Some 8] ∧
  returned_kernel <$> threads_of (fst final)
  = [Some (24576, 40, 0, 0); Some (32768, 40, 0, 0)] ∧
  (programs <$> devices_ (snd final) !! 0%nat) ≫= (.!! "k.gcn") = Some 8 ∧
  count_api hsa_executable_create_alt (trace (snd final)) = 2%nat.
Proof. vm_compute. repeat split; reflexivity. Qed.

(** ** The ISA check of the GCN pipeline *)

Lemma string_app_assoc (s1 s2 s3 : string) : (s1 +:+ s2) +:+ s3 = s1 +:+ s2 +:+ s3.
Proof.
  induction s1 as [|c s1 IH]; [reflexivity|].
  change (String c ((s1 +:+ s2) +:+ s3) = String c (s1 +:+ s2 +:+ s3)).
  by rewrite IH.
Qed.

Lemma compare_prefix_gfx cpu :
  compare_prefix_eq cpu 3 "gfx" = true ↔ ∃ rest, cpu = "gfx" +:+ rest.
Proof.
  unfold compare_prefix_eq. rewrite String.eqb_eq. split.
  - destruct cpu as [|c1 [|c2 [|c3 rest]]]; cbn; try discriminate.
    intros H. exists rest.
    assert (String.substring 0 0 rest = "") as Hnil by (by destruct rest).
    rewrite Hnil in H. injection H as -> -> ->. reflexivity.
  - intros (rest & ->). cbn. by destruct rest.
Qed.

Lemma digit_char_spec d :
  0 ≤ d ≤ 9 →
  is_digit (digit_char d) = true ∧ digit_val (digit_char d) = d ∧
  is_space (digit_char d) = false ∧
  digit_char d ≠ "-"%char ∧ digit_char d ≠ "+"%char.
Proof.
  intros Hd.
  assert (d = 0 ∨ d = 1 ∨ d = 2 ∨ d = 3 ∨ d = 4 ∨ d = 5 ∨ d = 6 ∨ d = 7 ∨ d = 8 ∨ d = 9)
    as Hcases by lia.
  repeat destruct Hcases as [->|Hcases]; try subst d; repeat split; done.
Qed.

Lemma read_digits_numeral ds tail :
  Forall (λ d, 0 ≤ d ≤ 9) ds → starts_with_digit tail = false →
  ∀ acc any,
    read_digits (digit_string ds +:+ tail) acc any
    = (foldl (λ acc d, acc * 10 + d) acc ds,
       any || bool_decide (ds ≠ [])).
Proof.
  intros Hds Htail. induction Hds as [|d ds Hd _ IH]; intros acc any.
  - change (digit_string [] +:+ tail) with tail.
    rewrite bool_decide_false by (intros H; by apply H).
    rewrite orb_false_r. destruct tail as [|c tail]; [reflexivity|].
    cbn [read_digits]. cbn [starts_with_digit] in Htail. by rewrite Htail.
  - destruct (digit_char_spec d Hd) as (Hdig & Hval & _).
    change (digit_string (d :: ds) +:+ tail)
      with (String (digit_char d) (digit_string ds +:+ tail)).
    cbn [read_digits foldl]. rewrite Hdig, Hval, IH.
    rewrite (bool_decide_true (d :: ds ≠ [])) by done.
    cbn [orb]. by rewrite orb_true_r.
Qed.

Lemma stoi_numeral ds tail :
  ds ≠ [] → Forall (λ d, 0 ≤ d ≤ 9) ds → starts_with_digit tail = false →
  digits_value ds ≤ INT_MAX →
  stoi (digit_string ds +:+ tail) = Some (digits_value ds).
Proof.
  intros Hne Hds Htail Hmax.
  assert (∀ acc, 0 ≤ acc → 0 ≤ foldl (λ acc d, acc * 10 + d) acc ds) as Hnn.
  { clear -Hds. induction Hds as [|d ds Hd _ IH]; intros acc Hacc; cbn; [done|].
    apply IH. lia. }
  specialize (Hnn 0 ltac:(lia)). fold (digits_value ds) in Hnn.
  destruct ds as [|d ds]; [done|].
  apply Forall_cons in Hds as Hd. destruct Hd as [Hd Hds'].
  destruct (digit_char_spec d Hd) as (Hdig & Hval & Hsp & Hminus & Hplus).
  unfold stoi. 
  assert (skip_spaces (digit_string (d :: ds) +:+ tail) = digit_string (d :: ds) +:+ tail) as ->.
  { change (digit_string (d :: ds) +:+ tail)
      with (String (digit_char d) (digit_string ds +:+ tail)).
    cbn [skip_spaces]. by rewrite Hsp. }
  assert ((match digit_string (d :: ds) +:+ tail with
           | String "-"%char r => (true, r)
           | String "+"%char r => (false, r)
           | _ => (false, digit_string (d :: ds) +:+ tail)
           end) = (false, digit_string (d :: ds) +:+ tail)) as ->.
  { change (digit_string (d :: ds) +:+ tail)
      with (String (digit_char d) (digit_string ds +:+ tail)).
    destruct (digit_char d) as [[] [] [] [] [] [] [] []]; try reflexivity; done. }
  rewrite read_digits_numeral by done.
  fold (digits_value (d :: ds)). cbn [orb].
  rewrite bool_decide_true by done. cbn [andb].
  assert ((INT_MIN <=? digits_value (d :: ds)) = true) as ->.
  { apply Z.leb_le. unfold INT_MIN. lia. }
  assert ((digits_value (d :: ds) <=? INT_MAX) = true) as ->.
  { by apply Z.leb_le. }
  reflexivity.
Qed.

Lemma emits_anything {A} (m : M A) P :
  emits P m → ∀ w, ∃ t, trace (snd (m w)) = trace w ++ t.
Proof. intros H w. destruct (H w) as (t & Ht & _). eauto. Qed.

Lemma emit_gcn_config drv program cpu filename opt w n :
  compare_prefix_eq cpu 3 "gfx" = true →
  stoi (substr 3 cpu) = Some n →
  llvm_parse_ok drv program = true →
  llvm_target_ok drv (llvm_triple drv program) = true →
  llvm_file_ok drv "/opt/rocm/lib/ocml.amdgcn.bc" = true →
  llvm_file_ok drv "/opt/rocm/lib/irif.amdgcn.bc" = true →
  ∃ post,
    trace (snd (emit_gcn drv program cpu filename opt w))
    = trace w
      ++ [EvLlvm LLVMInitializeAMDGPU; EvLlvm (parseIR program);
          EvLlvm (lookupTarget (llvm_triple drv program));
          EvLlvm (createTargetMachine (llvm_triple drv program) cpu);
          EvLlvm (parseIRFile "/opt/rocm/lib/ocml.amdgcn.bc");
          EvLlvm (parseIRFile "/opt/rocm/lib/irif.amdgcn.bc");
          EvLlvm (parseIR (get_ocml_config n))]
      ++ post.
Proof.
  intros Hcpu Hstoi Hparse Htarget Hocml Hirif. unfold emit_gcn, llvm, parse_ir_file, llvm.
  rewrite (bind_Ret _ _ _ _ _ (emit_eq _ _)).
  rewrite (bind_Ret _ _ _ _ _ (emit_eq _ _)).
  rewrite Hparse, (bind_Ret _ _ _ _ _ (ret_eq _ _)).
  rewrite (bind_Ret _ _ _ _ _ (emit_eq _ _)).
  rewrite Htarget, (bind_Ret _ _ _ _ _ (ret_eq _ _)).
  rewrite (bind_Ret _ _ _ _ _ (emit_eq _ _)).
  rewrite Hcpu, (bind_Ret _ _ _ _ _ (ret_eq _ _)).
  rewrite Hstoi, (bind_Ret _ _ _ _ _ (ret_eq _ _)).
  rewrite Hocml, Hirif.
  erewrite (bind_Ret _ _ _ tt);
    [|rewrite (bind_Ret _ _ _ _ _ (emit_eq _ _)); apply ret_eq].
  erewrite (bind_Ret _ _ _ tt);
    [|rewrite (bind_Ret _ _ _ _ _ (emit_eq _ _)); apply ret_eq].
  rewrite (bind_Ret _ _ _ _ _ (emit_eq _ _)).
  match goal with
  | |- context [snd (bind ?m ?k ?w1)] =>
      destruct (emits_anything (bind m k) (λ _, true)) with (w := w1) as (post & Hpost)
  end.
  { emits_auto. }
  exists post. rewrite Hpost. cbn [trace set_trace]. rewrite <- !app_assoc. reflexivity.
Qed.

Lemma substring_all s : String.substring 0 (String.length s) s = s.
Proof. induction s as [|c s IH]; cbn; [reflexivity | by rewrite IH]. Qed.

Lemma substr_gfx rest : substr 3 ("gfx" +:+ rest) = rest.
Proof.
  unfold substr.
  change (String.length ("gfx" +:+ rest)) with (S (S (S (String.length rest)))).
  change (S (S (S (String.length rest))) - 3)%nat with (String.length rest - 0)%nat.
  rewrite Nat.sub_0_r.
  change (String.substring 3 (String.length rest) ("gfx" +:+ rest))
    with (String.substring 0 (String.length rest) rest).
  apply substring_all.
Qed.

Lemma get_ocml_config_isa_version n :
  ∃ pre,
    get_ocml_config n
    = pre +:+ "define i32 @__oclc_ISA_version() alwaysinline { ret i32 "
          +:+ to_string n +:+ " }".
Proof.
  unfold get_ocml_config.
  match goal with
  | |- context [?c +:+ to_string n +:+ " }"] => set (config := c)
  end.
  set (line := "define i32 @__oclc_ISA_version() alwaysinline { ret i32 ").
  exists (String.substring 0 (String.length config - String.length line) config).
  assert (config
          = String.substring 0 (String.length config - String.length line) config
            +:+ line) as Hc by (vm_compute; reflexivity).
  rewrite Hc at 1. apply string_app_assoc.
Qed.

Lemma pretty_N_char_digit d :
  0 ≤ d ≤ 9 → pretty_N_char (Z.to_N d) = digit_char d.
Proof.
  intros Hd.
  assert (d = 0 ∨ d = 1 ∨ d = 2 ∨ d = 3 ∨ d = 4 ∨ d = 5 ∨ d = 6 ∨ d = 7 ∨ d = 8 ∨ d = 9)
    as Hcases by lia.
  repeat destruct Hcases as [->|Hcases]; try subst d; reflexivity.
Qed.

Lemma digits_value_snoc ds d : digits_value (ds ++ [d]) = digits_value ds * 10 + d.
Proof. unfold digits_value. by rewrite foldl_app. Qed.

Lemma digit_string_snoc ds d s :
  digit_string (ds ++ [d]) +:+ s = digit_string ds +:+ String (digit_char d) s.
Proof.
  induction ds as [|d0 ds IH]; [reflexivity|].
  change (String (digit_char d0) (digit_string (ds ++ [d]) +:+ s)
          = String (digit_char d0) (digit_string ds +:+ String (digit_char d) s)).
  by rewrite IH.
Qed.

Lemma digits_value_nonneg ds : Forall (λ d, 0 ≤ d ≤ 9) ds → 0 ≤ digits_value ds.
Proof.
  induction ds as [|d ds IH] using rev_ind; intros Hds; [done|].
  apply Forall_app in Hds as [Hds Hd]. rewrite Forall_singleton in Hd.
  rewrite digits_value_snoc. specialize (IH Hds). lia.
Qed.

Lemma digits_value_pos ds :
  Forall (λ d, 0 ≤ d ≤ 9) ds → ds ≠ [] → head ds ≠ Some 0 → 0 < digits_value ds.
Proof.
  induction ds as [|d ds IH] using rev_ind; intros Hds Hne Hhd; [done|].
  apply Forall_app in Hds as [Hds Hd]. rewrite Forall_singleton in Hd.
  rewrite digits_value_snoc.
  destruct ds as [|d0 ds].
  - cbn in Hhd |- *. assert (d ≠ 0) by (intros ->; done). lia.
  - assert (0 < digits_value (d0 :: ds)) by (apply IH; done). lia.
Qed.

Lemma pretty_N_go_digits ds s :
  Forall (λ d, 0 ≤ d ≤ 9) ds → head ds ≠ Some 0 →
  pretty_N_go (Z.to_N (digits_value ds)) s = digit_string ds +:+ s.
Proof.
  revert s. induction ds as [|d ds IH] using rev_ind; intros s Hds Hhd; [done|].
  apply Forall_app in Hds as [Hds Hd]. rewrite Forall_singleton in Hd.
  assert (head ds ≠ Some 0) as Hhd'.
  { destruct ds as [|d1 ds1]; [intros H; discriminate H | exact Hhd]. }
  pose proof (digits_value_nonneg ds Hds) as Hnn.
  assert (0 < digits_value (ds ++ [d])) as Hpos.
  { apply digits_value_pos; [|by destruct ds | exact Hhd].
    apply Forall_app. split; [done|]. by apply Forall_singleton. }
  rewrite pretty_N_go_step by lia.
  rewrite digits_value_snoc in Hpos |- *.
  assert ((Z.to_N (digits_value ds * 10 + d) `div` 10)%N = Z.to_N (digits_value ds)) as ->.
  { change 10%N with (Z.to_N 10). rewrite <- Z2N.inj_div by lia. f_equal.
    replace (digits_value ds * 10 + d) with (d + digits_value ds * 10) by lia.
    rewrite Z.div_add by lia. rewrite Z.div_small by lia. lia. }
  assert ((Z.to_N (digits_value ds * 10 + d) `mod` 10)%N = Z.to_N d) as ->.
  { change 10%N with (Z.to_N 10). rewrite <- Z2N.inj_mod by lia. f_equal.
    replace (digits_value ds * 10 + d) with (d + digits_value ds * 10) by lia.
    rewrite Z.mod_add by lia. apply Z.mod_small. lia. }
  rewrite pretty_N_char_digit by done.
  rewrite IH by done. symmetry. apply digit_string_snoc.
Qed.

Lemma to_string_numeral ds :
  ds ≠ [] → Forall (λ d, 0 ≤ d ≤ 9) ds → head ds ≠ Some 0 →
  to_string (digits_value ds) = digit_string ds.
Proof.
  intros Hne Hds Hhd.
  pose proof (digits_value_pos ds Hds Hne Hhd) as Hpos.
  pose proof (pretty_N_go_digits ds "" Hds Hhd) as Hgo.
  unfold to_string, pretty, pretty_Z.
  destruct (digits_value ds) as [|p|p] eqn:Hv; [lia| |lia].
  unfold pretty, pretty_positive, pretty, pretty_N.
  destruct (decide (N.pos p = 0%N)) as [|_]; [done|].
  cbn [Z.to_N] in Hgo. rewrite Hgo.
  clear. induction (digit_string ds) as [|c s IH]; [reflexivity|].
  change (String c (s +:+ "") = String c s). by rewrite IH.
Qed.

Lemma emit_gcn_unparsed drv program cpu filename opt w :
  llvm_parse_ok drv program = false →
  emit_gcn drv program cpu filename opt w
  = (Undefined "llvm_module is null",
     set_trace (trace w ++ [EvLlvm LLVMInitializeAMDGPU; EvLlvm (parseIR program)]) w).
Proof.
  intros Hparse. unfold emit_gcn, llvm.
  rewrite (bind_Ret _ _ _ _ _ (emit_eq _ _)).
  rewrite (bind_Ret _ _ _ _ _ (emit_eq _ _)).
  rewrite Hparse. cbn [trace set_trace]. rewrite <- app_assoc. reflexivity.
Qed.

Lemma emit_gcn_no_target drv program cpu filename opt w :
  llvm_parse_ok drv program = true →
  llvm_target_ok drv (llvm_triple drv program) = false →
  emit_gcn drv program cpu filename opt w
  = (Undefined "target is null",
     set_trace (trace w ++ [EvLlvm LLVMInitializeAMDGPU; EvLlvm (parseIR program);
                            EvLlvm (lookupTarget (llvm_triple drv program))]) w).
Proof.
  intros Hparse Htarget. unfold emit_gcn, llvm.
  rewrite (bind_Ret _ _ _ _ _ (emit_eq _ _)).
  rewrite (bind_Ret _ _ _ _ _ (emit_eq _ _)).
  rewrite Hparse, (bind_Ret _ _ _ _ _ (ret_eq _ _)).
  rewrite (bind_Ret _ _ _ _ _ (emit_eq _ _)).
  rewrite Htarget. cbn [trace set_trace]. rewrite <- !app_assoc. reflexivity.
Qed.

Lemma emit_gcn_rejected drv program cpu filename opt w :
  llvm_parse_ok drv program = true →
  llvm_target_ok drv (llvm_triple drv program) = true →
  compare_prefix_eq cpu 3 "gfx" = false →
  emit_gcn drv program cpu filename opt w
  = (Fatal ("Expected gfx ISA, got " +:+ cpu),
     set_trace (trace w ++ [EvLlvm LLVMInitializeAMDGPU; EvLlvm (parseIR program);
                            EvLlvm (lookupTarget (llvm_triple drv program));
                            EvLlvm (createTargetMachine (llvm_triple drv program) cpu)])
       w).
Proof.
  intros Hparse Htarget Hcpu. unfold emit_gcn, llvm.
  rewrite (bind_Ret _ _ _ _ _ (emit_eq _ _)).
  rewrite (bind_Ret _ _ _ _ _ (emit_eq _ _)).
  rewrite Hparse, (bind_Ret _ _ _ _ _ (ret_eq _ _)).
  rewrite (bind_Ret _ _ _ _ _ (emit_eq _ _)).
  rewrite Htarget, (bind_Ret _ _ _ _ _ (ret_eq _ _)).
  rewrite (bind_Ret _ _ _ _ _ (emit_eq _ _)).
  rewrite Hcpu. cbn [trace set_trace]. rewrite <- !app_assoc. reflexivity.
Qed.

(** C8. The ISA check of [emit_gcn] stands behind two uses of results that
    are never tested: the parsed program is dereferenced for its target
    triple and the looked-up target for the target machine. A request whose
    program does not parse, or whose triple has no target, is therefore
    undefined whatever the ISA string is, [hawaii] included, and is not
    rejected with an error. When both exist, an ISA string that does not begin
    with [gfx] is the fatal error "Expected gfx ISA" and nothing beyond the
    set-up of the target machine has happened: no module was loaded, linked or
    compiled. For an ISA string [gfx] followed by a decimal numeral that fits
    [int] (and then anything that is not a digit), the configuration module
    handed to the parser ends in an [__oclc_ISA_version] that returns that
    numeral. *)
Theorem emit_gcn_isa_check :
  fst (emit_gcn drv_no_ir "not LLVM IR" "hawaii" "k.amdgpu" 3 w_boot)
  = Undefined "llvm_module is null" ∧
  ∀ (drv : Driver) (program cpu filename : string) (opt : Z) (w : World),
    let r := emit_gcn drv program cpu filename opt w in
    let set_up :=
      [EvLlvm LLVMInitializeAMDGPU; EvLlvm (parseIR program);
       EvLlvm (lookupTarget (llvm_triple drv program));
       EvLlvm (createTargetMachine (llvm_triple drv program) cpu)] in
    (llvm_parse_ok drv program = false →
     r = (Undefined "llvm_module is null", set_trace (trace w ++ take 2 set_up) w)) ∧
    (llvm_parse_ok drv program = true →
     llvm_target_ok drv (llvm_triple drv program) = false →
     r = (Undefined "target is null", set_trace (trace w ++ take 3 set_up) w)) ∧
    (llvm_parse_ok drv program = true →
     llvm_target_ok drv (llvm_triple drv program) = true →
     (∀ rest, cpu ≠ "gfx" +:+ rest) →
     r = (Fatal ("Expected gfx ISA, got " +:+ cpu), set_trace (trace w ++ set_up) w)) ∧
    (∀ ds tail,
       llvm_parse_ok drv program = true →
       llvm_target_ok drv (llvm_triple drv program) = true →
       cpu = "gfx" +:+ digit_string ds +:+ tail →
       ds ≠ [] → Forall (λ d, 0 ≤ d ≤ 9) ds → head ds ≠ Some 0 →
       starts_with_digit tail = false →
       digits_value ds ≤ INT_MAX →
       llvm_file_ok drv "/opt/rocm/lib/ocml.amdgcn.bc" = true →
       llvm_file_ok drv "/opt/rocm/lib/irif.amdgcn.bc" = true →
       ∃ pre post,
         trace (snd r)
         = trace w ++ set_up
           ++ [EvLlvm (parseIRFile "/opt/rocm/lib/ocml.amdgcn.bc");
               EvLlvm (parseIRFile "/opt/rocm/lib/irif.amdgcn.bc");
               EvLlvm (parseIR
                 (pre +:+ "define i32 @__oclc_ISA_version() alwaysinline { ret i32 "
                      +:+ digit_string ds +:+ " }"))]
           ++ post).
Proof.
  split; [reflexivity|].
  intros drv program cpu filename opt w. cbv zeta. cbn [take].
  split; [by apply emit_gcn_unparsed|].
  split; [by apply emit_gcn_no_target|].
  split.
  - intros Hparse Htarget Hcpu. apply emit_gcn_rejected; [done..|].
    destruct (compare_prefix_eq cpu 3 "gfx") eqn:Hc; [|reflexivity].
    apply compare_prefix_gfx in Hc as (rest & ->). by destruct (Hcpu rest).
  - intros ds tail Hparse Htarget -> Hne Hds Hhd Htail Hmax Hocml Hirif.
    destruct (emit_gcn_config drv program ("gfx" +:+ digit_string ds +:+ tail)
                filename opt w (digits_value ds)) as (post & Hpost); try done.
    { apply compare_prefix_gfx. by eexists. }
    { rewrite substr_gfx. by apply stoi_numeral. }
    destruct (get_ocml_config_isa_version (digits_value ds)) as (pre & Hconfig).
    rewrite to_string_numeral in Hconfig by done.
    exists pre, post. rewrite Hpost, Hconfig. reflexivity.
Qed.

(** ** Device discovery *)

Lemma fmap_alter_same {A C} (g : A → C) (f : A → A) (l : list A) i :
  (∀ x, g (f x) = g x) → g <$> alter f i l = g <$> l.
Proof.
  intros H. apply list_eq. intros j. rewrite !list_lookup_fmap.
  destruct (decide (i = j)) as [<-|Hne].
  - rewrite list_lookup_alter_eq. destruct (l !! i); cbn; [by rewrite H | done].
  - by rewrite list_lookup_alter_ne.
Qed.

Lemma preserves_cores_update_device dev f :
  (∀ d, device_core (f d) = device_core d) → preserves cores (update_device dev f).
Proof. intros H w. unfold cores. cbn. by apply fmap_alter_same. Qed.

Ltac preserves_cores_step :=
  lazymatch goal with
  | |- preserves cores (update_device _ _) =>
      apply preserves_cores_update_device; intros ?; reflexivity
  | |- _ => preserves_step
  end.

Ltac preserves_cores_auto := repeat preserves_cores_step.

Lemma count_api_app api t1 t2 :
  count_api api (t1 ++ t2) = (count_api api t1 + count_api api t2)%nat.
Proof. unfold count_api. by rewrite List.filter_app, length_app. Qed.

Lemma count_api_no_create api t :
  (api = hsa_queue_create ∨ api = hsa_signal_create) →
  Forall (λ e, no_create e = true) t → count_api api t = 0%nat.
Proof.
  intros Hapi Ht. induction Ht as [|e t He _ IH]; [reflexivity|].
  unfold count_api in *. cbn [List.filter].
  destruct (is_api api e) eqn:Hapie; [|exact IH].
  exfalso. destruct e as [api' args| | | | | | | | | | |]; try discriminate.
  cbn in Hapie. apply bool_decide_eq_true in Hapie as ->.
  by destruct Hapi as [-> | ->].
Qed.

Section Regions.

Context (drv : Driver).

Lemma iterate_regions_callback_frame region dev :
  emits no_create (iterate_regions_callback drv region dev) ∧
  preserves cores (iterate_regions_callback drv region dev) ∧
  preserves queues (iterate_regions_callback drv region dev) ∧
  preserves signals (iterate_regions_callback drv region dev).
Proof.
  split; [|split; [|split]].
  - unfold iterate_regions_callback.
    repeat first [ apply emits_CHECK_HSA; reflexivity | emits_step ].
  - unfold iterate_regions_callback. preserves_cores_auto.
  - preserves_auto.
  - preserves_auto.
Qed.

Lemma iterate_regions_frame regions dev :
  emits no_create (iterate_regions drv regions dev) ∧
  preserves cores (iterate_regions drv regions dev) ∧
  preserves queues (iterate_regions drv regions dev) ∧
  preserves signals (iterate_regions drv regions dev).
Proof.
  induction regions as [|r regions (IH1 & IH2 & IH3 & IH4)]; cbn [iterate_regions].
  - repeat split; first [ apply emits_ret | intros ?; reflexivity ].
  - destruct (iterate_regions_callback_frame r dev) as (H1 & H2 & H3 & H4).
    split; [|split; [|split]].
    + apply emits_bind; [done|]. intros st. destruct (decide _); [done | apply emits_ret].
    + apply preserves_bind; [done|]. intros st. destruct (decide _); [done|]. by intros ?.
    + apply preserves_bind; [done|]. intros st. destruct (decide _); [done|]. by intros ?.
    + apply preserves_bind; [done|]. intros st. destruct (decide _); [done|]. by intros ?.
Qed.

End Regions.

Lemma queue_create_eq drv ag size w :
  queue_create drv ag size w =
  let st := drv_status drv (length (trace w)) hsa_queue_create in
  let w1 := set_trace (trace w ++ [EvHsa hsa_queue_create
              [ag; size; HSA_QUEUE_TYPE_SINGLE; UINT32_MAX; UINT32_MAX]]) w in
  if decide (st = HSA_STATUS_SUCCESS) then
    (Ret (st, next_handle w),
     set_queues (<[next_handle w := {| q_size := size;
                                       q_doorbell_signal := next_handle w + 1;
                                       q_ring := ∅; q_write_index := 0 |}]> (queues w))
       (set_next_handle (next_handle w + 1 + 1) w1))
  else (Ret (st, 0), w1).
Proof.
  unfold queue_create. rewrite bind_unfold. unfold hsa_call. cbn zeta.
  destruct (decide _); reflexivity.
Qed.

Lemma signal_create_eq drv initial w :
  signal_create drv initial w =
  let st := drv_status drv (length (trace w)) hsa_signal_create in
  let w1 := set_trace (trace w ++ [EvHsa hsa_signal_create [initial; 0]]) w in
  if decide (st = HSA_STATUS_SUCCESS) then
    (Ret (st, next_handle w),
     set_signals (<[next_handle w := initial]> (signals w))
       (set_next_handle (next_handle w + 1) w1))
  else (Ret (st, 0), w1).
Proof.
  unfold signal_create. rewrite bind_unfold. unfold hsa_call. cbn zeta.
  destruct (decide _); reflexivity.
Qed.

(** Inversion of one step of a computation that returned. *)
Ltac inv_pair H := injection H; clear H; intros; subst.

Ltac inv_prim H :=
  lazymatch type of H with
  | hsa_query _ _ _ _ _ = _ => unfold hsa_query in H; inv_pair H
  | hsa_call _ _ _ _ = _ => unfold hsa_call in H; inv_pair H
  | get _ = _ => unfold get in H; inv_pair H
  | ret _ _ = _ => unfold ret in H; inv_pair H
  | debug _ _ = _ => unfold debug, emit, modify in H; inv_pair H
  | emit _ _ = _ => unfold emit, modify in H; inv_pair H
  | modify _ _ = _ => unfold modify in H; inv_pair H
  | CHECK_HSA _ _ _ _ = _ =>
      let Hs := fresh "Hstatus" in apply CHECK_HSA_Ret_inv in H as [Hs ->]
  | _ => idtac
  end.

Ltac inv_bind H :=
  let a := fresh "a" in
  let w1 := fresh "w" in
  let H1 := fresh "Hm" in
  apply bind_Ret_inv in H as (a & w1 & H1 & H); inv_prim H1.

Lemma quiet_refl w : quiet w w.
Proof. exists []. rewrite app_nil_r. repeat split; constructor. Qed.

Lemma quiet_trans w1 w2 w3 : quiet w1 w2 → quiet w2 w3 → quiet w1 w3.
Proof.
  intros (t1 & Ht1 & HP1 & Hq1 & Hs1 & Hd1) (t2 & Ht2 & HP2 & Hq2 & Hs2 & Hd2).
  exists (t1 ++ t2). rewrite Ht2, Ht1, app_assoc.
  split; [done|]. split; [by apply Forall_app|]. by rewrite Hq2, Hs2, Hd2.
Qed.

Lemma quiet_of {A} (m : M A) w a w1 :
  emits no_create m → preserves queues m → preserves signals m →
  preserves devices_ m →
  m w = (Ret a, w1) → quiet w w1.
Proof.
  intros He Hq Hs Hd Hrun. destruct (He w) as (t & Ht & HP).
  specialize (Hq w). specialize (Hs w). specialize (Hd w).
  rewrite Hrun in Ht, Hq, Hs, Hd. by exists t.
Qed.

Ltac quiet_bind H Hq :=
  let a := fresh "a" in
  let w1 := fresh "w" in
  let Hm := fresh "Hm" in
  apply bind_Ret_inv in H as (a & w1 & Hm & H);
  apply quiet_of in Hm;
  [ let Hq' := fresh "Hq" in
    pose proof (quiet_trans _ _ _ Hq Hm) as Hq'; clear Hq Hm; rename Hq' into Hq
  | repeat first [ apply emits_CHECK_HSA; reflexivity | emits_step ]
  | preserves_auto | preserves_auto | preserves_auto ].

Lemma discovery_queue_inv drv ag queue_size w queue wq :
  (if decide (queue_size > 0) then
     r <- queue_create drv ag queue_size ;;
     CHECK_HSA drv (fst r) "hsa_queue_create()" ;;;
     status <- hsa_call drv hsa_amd_profiling_set_profiler_enabled [snd r; 1] ;;
     CHECK_HSA drv status "hsa_amd_profiling_set_profiler_enabled()" ;;;
     ret (Some (snd r))
   else ret None) w = (Ret queue, wq) →
  signals wq = signals w ∧ devices_ wq = devices_ w ∧
  if decide (queue_size > 0) then
    ∃ q, queue = Some q ∧
      trace wq = trace w
        ++ [EvHsa hsa_queue_create
              [ag; queue_size; HSA_QUEUE_TYPE_SINGLE; UINT32_MAX; UINT32_MAX];
            EvHsa hsa_amd_profiling_set_profiler_enabled [q; 1]] ∧
      ∃ qd, queues wq !! q = Some qd ∧ q_size qd = queue_size
  else queue = None ∧ wq = w.
Proof.
  destruct (decide (queue_size > 0)) as [Hpos|Hzero].
  - intros H. apply bind_Ret_inv in H as (r & w1 & Hcreate & H).
    apply bind_Ret_inv in H as ([] & w2 & Hchk & H).
    apply CHECK_HSA_Ret_inv in Hchk as [Hok ->].
    apply bind_Ret_inv in H as (status & w3 & Hcall & H).
    unfold hsa_call in Hcall. injection Hcall as <- <-.
    apply bind_Ret_inv in H as ([] & w4 & Hchk & H).
    apply CHECK_HSA_Ret_inv in Hchk as [_ ->].
    injection H as <- <-.
    rewrite queue_create_eq in Hcreate. cbn zeta in Hcreate.
    destruct (decide _) as [Hst|Hst] in Hcreate; injection Hcreate as <- <-;
      [|done].
    cbn. split; [done|]. split; [done|].
    eexists. split; [reflexivity|]. split.
    { rewrite <- app_assoc. reflexivity. }
    eexists. rewrite lookup_insert_eq. done.
  - intros [= <- <-]. done.
Qed.

Lemma iterate_agents_callback_inv drv ag w st w' :
  iterate_agents_callback drv ag w = (Ret st, w') →
  let queue_size := wrap32 (a_queue_max_size (drv_agent drv ag)) in
  ∃ t d,
    trace w' = trace w ++ t ∧
    count_api hsa_signal_create t = 1%nat ∧
    count_api hsa_queue_create t = (if decide (queue_size > 0) then 1%nat else 0%nat) ∧
    cores w' = cores w ++ [device_core d] ∧
    agent d = ag ∧
    signals w' !! signal d = Some 0 ∧
    match queue d with
    | Some q =>
        queue_size > 0 ∧
        EvHsa hsa_queue_create
          [ag; queue_size; HSA_QUEUE_TYPE_SINGLE; UINT32_MAX; UINT32_MAX] ∈ t ∧
        ∃ qd, queues w' !! q = Some qd ∧ q_size qd = queue_size
    | None => queue_size = 0
    end.
Proof.
  intros H queue_size. unfold iterate_agents_callback in H.
  pose proof (quiet_refl w) as Hq.
  do 28 quiet_bind H Hq.
  fold queue_size in H.
  apply bind_Ret_inv in H as (qo & wq & Hqueue & H).
  apply bind_Ret_inv in H as (r & ws & Hsig & H).
  apply bind_Ret_inv in H as ([] & wc & Hchk & H).
  apply CHECK_HSA_Ret_inv in Hchk as [Hsigok ->].
  rewrite (bind_Ret _ _ _ _ _ (get_eq _)) in H.
  apply bind_Ret_inv in H as ([] & wm & Hmod & H).
  unfold modify in Hmod. injection Hmod as <-.
  apply bind_Ret_inv in H as (status & wi & Hcall & H).
  unfold hsa_call in Hcall. injection Hcall as <- <-.
  apply bind_Ret_inv in H as (status' & wr & Hregions & H).
  apply bind_Ret_inv in H as ([] & wf & Hchk & H).
  apply CHECK_HSA_Ret_inv in Hchk as [_ ->].
  injection H as <- <-.
  apply discovery_queue_inv in Hqueue as (Hqs & Hqd & Hqueue).
  rewrite signal_create_eq in Hsig. cbn zeta in Hsig.
  destruct (decide _) as [Hst|Hst] in Hsig; injection Hsig as <- <-; [|done].
  cbn [fst snd] in *.
  match type of Hregions with
  | iterate_regions _ ?rs ?dv ?w0 = _ =>
      destruct (iterate_regions_frame drv rs dv) as (He & Hc & Hrq & Hrs);
      destruct (He w0) as (tr & Htr & HPr);
      specialize (Hc w0); specialize (Hrq w0); specialize (Hrs w0)
  end.
  rewrite Hregions in Htr, Hc, Hrq, Hrs. cbn [fst snd] in Htr, Hc, Hrq, Hrs.
  cbn [trace queues signals set_trace set_devices set_signals set_next_handle]
    in Htr, Hrq, Hrs.
  unfold cores in Hc at 2.
  cbn [devices_ set_trace set_devices set_signals set_next_handle] in Hc.
  rewrite fmap_app in Hc. cbn [fmap list_fmap] in Hc.
  destruct Hq as (t0 & Ht0 & HP0 & Hq0 & Hs0 & Hd0).
  assert (∀ api, api = hsa_queue_create ∨ api = hsa_signal_create →
            count_api api t0 = 0%nat ∧ count_api api tr = 0%nat) as Hquiet.
  { intros api Hapi. split; by apply count_api_no_create. }
  destruct (Hquiet hsa_queue_create ltac:(by left)) as [Hq1 Hq2].
  destruct (Hquiet hsa_signal_create ltac:(by right)) as [Hs1 Hs2].
  destruct (decide (queue_size > 0)) as [Hpos|Hzero].
  - destruct Hqueue as (q & -> & Htq & qd & Hqd' & Hsize).
    eexists (t0 ++ [_; _] ++ [_; _] ++ tr), _.
    split; [|split; [|split; [|split; [|split; [|split]]]]].
    + rewrite Htr, Htq, Ht0. rewrite <- !app_assoc. reflexivity.
    + rewrite !count_api_app, Hs1, Hs2. reflexivity.
    + rewrite !count_api_app, Hq1, Hq2. reflexivity.
    + rewrite Hc. unfold cores. rewrite Hqd, Hd0. reflexivity.
    + reflexivity.
    + rewrite Hrs. cbn. apply lookup_insert_eq.
    + cbn [queue new_device]. split; [done|]. split.
      * apply elem_of_app. right. apply elem_of_cons. by left.
      * exists qd. by rewrite Hrq.
  - destruct Hqueue as (-> & ->).
    eexists (t0 ++ [_; _] ++ tr), _.
    split; [|split; [|split; [|split; [|split; [|split]]]]].
    + rewrite Htr, Ht0. rewrite <- !app_assoc. reflexivity.
    + rewrite !count_api_app, Hs1, Hs2. reflexivity.
    + rewrite !count_api_app, Hq1, Hq2. reflexivity.
    + rewrite Hc. unfold cores. rewrite Hd0. reflexivity.
    + reflexivity.
    + rewrite Hrs. cbn. apply lookup_insert_eq.
    + cbn [queue new_device].
      assert (0 ≤ queue_size) by (unfold queue_size, wrap32; apply Z.mod_pos_bound; lia).
      lia.
Qed.

(** ** Lifetime of a device's queue and signal *)

Lemma preserves_cores_pack_args kernarg sizes :
  ∀ args base, preserves cores (pack_args kernarg args sizes base).
Proof.
  induction sizes as [|s sizes IH]; intros [|a args] base; cbn [pack_args];
    try (intros ?; reflexivity).
  apply preserves_bind; [preserves_auto|]. intros o.
  apply preserves_bind; [preserves_auto | intros; apply IH].
Qed.

Lemma preserves_cores_lk_step drv dev filename kernelname pc :
  preserves cores (lk_step drv dev filename kernelname pc).
Proof. destruct pc; cbn [lk_step]; preserves_cores_auto. Qed.

Lemma preserves_cores_lk_run drv fuel dev filename kernelname :
  ∀ pc, preserves cores (lk_run drv fuel dev filename kernelname pc).
Proof.
  induction fuel as [|fuel IH]; intros pc.
  - destruct pc; cbn [lk_run]; intros ?; reflexivity.
  - destruct pc; cbn [lk_run]; try (intros ?; reflexivity);
      (apply preserves_bind; [apply preserves_cores_lk_step | intros; apply IH]).
Qed.

Lemma preserves_cores_dispatch drv dev queue k kernarg grid block :
  preserves cores (dispatch drv dev queue k kernarg grid block).
Proof.
  destruct k as [[[kernel ks] gs] ps], grid as [[g0 g1] g2], block as [[b0 b1] b2].
  unfold dispatch. preserves_auto.
Qed.

Lemma preserves_cores_launch_kernel drv dev file name grid block args sizes :
  preserves cores (launch_kernel drv dev file name grid block args sizes).
Proof.
  unfold launch_kernel.
  preserves_step; [preserves_auto|]. preserves_step; [preserves_auto|].
  preserves_step.
  { unfold load_kernel. apply preserves_bind; [apply preserves_cores_lk_run|].
    intros; intros ?; reflexivity. }
  preserves_step; [preserves_auto|]. preserves_step; [preserves_auto|].
  preserves_step.
  preserves_step; [preserves_auto|].
  preserves_step.
  { destruct (within_segment _ _ _ _); [apply preserves_cores_pack_args|].
    intros ?; reflexivity. }
  preserves_step; [preserves_auto|]. apply preserves_cores_dispatch.
Qed.

Lemma preserves_cores_synchronize drv dev : preserves cores (synchronize drv dev).
Proof. preserves_auto. Qed.

Lemma emits_synchronize_no_destroy drv dev :
  emits (λ e, negb (is_destroy e)) (synchronize drv dev).
Proof.
  unfold synchronize. emits_step; [emits_auto|]. emits_step; [|emits_auto].
  intros w. eexists [_]. split; [reflexivity | by repeat constructor].
Qed.

Lemma destroy_executables_inv drv es :
  ∀ w w', destroy_executables drv es w = (Ret tt, w') →
          trace w' = trace w ++ ((λ e, EvHsa hsa_executable_destroy [e]) <$> es).
Proof.
  induction es as [|e es IH]; intros w w' H; cbn [destroy_executables] in H.
  - injection H as <-. by rewrite app_nil_r.
  - inv_bind H. inv_bind H. apply IH in H. rewrite H. cbn.
    rewrite <- app_assoc. reflexivity.
Qed.

Lemma destroy_device_inv drv d w w' :
  destroy_device drv d w = (Ret tt, w') →
  ∃ t, trace w' = trace w ++ t
         ++ match queue d with
            | Some q => [EvHsa hsa_queue_destroy [q]]
            | None => []
            end
         ++ [EvHsa hsa_signal_destroy [signal d]] ∧
       Forall (λ e, is_destroy e = false) t.
Proof.
  intros H. unfold destroy_device in H.
  rewrite (bind_Ret _ _ _ _ _ (get_eq _)) in H.
  apply bind_Ret_inv in H as ([] & w1 & Hexe & H).
  apply destroy_executables_inv in Hexe.
  apply bind_Ret_inv in H as ([] & w2 & Hqueue & H).
  inv_bind H. inv_prim H.
  eexists ((λ e, EvHsa hsa_executable_destroy [e]) <$> _).
  split.
  - cbn [trace set_trace]. destruct (queue d) as [q|].
    + inv_bind Hqueue. inv_prim Hqueue. cbn [trace set_trace].
      rewrite Hexe. rewrite <- !app_assoc. reflexivity.
    + inv_prim Hqueue. rewrite Hexe. rewrite <- !app_assoc. reflexivity.
  - apply Forall_fmap. apply Forall_forall. intros e _. reflexivity.
Qed.

(** C5, as the code has it. For every agent the discovery callback returns
    for: exactly one completion signal is created, with value 0, and a
    hardware queue is created exactly when the agent's maximum queue size is
    not zero, then exactly one, of that size; an agent whose maximum queue
    size is zero gets the null queue. One device record is appended holding the
    agent, the queue and the signal, and the records before it keep theirs.
    Afterwards neither a launch nor a synchronize changes the agent, queue or
    signal of any device or destroys a queue or signal; the destructor
    destroys the queue, when there is one, and then the signal. *)
Theorem discovery_one_signal_and_queue_if_supported
    (drv : Driver) (ag : Z) (w w' : World) (st : Z) :
  iterate_agents_callback drv ag w = (Ret st, w') →
  let queue_size := wrap32 (a_queue_max_size (drv_agent drv ag)) in
  (∃ t d,
     trace w' = trace w ++ t ∧
     count_api hsa_signal_create t = 1%nat ∧
     count_api hsa_queue_create t = (if decide (queue_size > 0) then 1%nat else 0%nat) ∧
     cores w' = cores w ++ [device_core d] ∧
     agent d = ag ∧
     signals w' !! signal d = Some 0 ∧
     match queue d with
     | Some q =>
         queue_size > 0 ∧
         EvHsa hsa_queue_create
           [ag; queue_size; HSA_QUEUE_TYPE_SINGLE; UINT32_MAX; UINT32_MAX] ∈ t ∧
         ∃ qd, queues w' !! q = Some qd ∧ q_size qd = queue_size
     | None => queue_size = 0
     end) ∧
  (∀ dev file name grid block args sizes w0,
     cores (snd (launch_kernel drv dev file name grid block args sizes w0)) = cores w0 ∧
     cores (snd (synchronize drv dev w0)) = cores w0 ∧
     (∃ t, trace (snd (launch_kernel drv dev file name grid block args sizes w0))
           = trace w0 ++ t ∧
           Forall (λ e, is_destroy e = false) t) ∧
     (∃ t, trace (snd (synchronize drv dev w0)) = trace w0 ++ t ∧
           Forall (λ e, is_destroy e = false) t)) ∧
  (∀ d w0 w1,
     destroy_device drv d w0 = (Ret tt, w1) →
     ∃ t, trace w1 = trace w0 ++ t
            ++ match queue d with
               | Some q => [EvHsa hsa_queue_destroy [q]]
               | None => []
               end
            ++ [EvHsa hsa_signal_destroy [signal d]] ∧
          Forall (λ e, is_destroy e = false) t).
Proof.
  intros H queue_size. split; [|split].
  - eapply iterate_agents_callback_inv. exact H.
  - intros dev file name grid block args sizes w0.
    split; [apply preserves_cores_launch_kernel|].
    split; [apply preserves_cores_synchronize|]. split.
    + destruct (emits_launch_kernel_calm drv dev file name grid block args sizes w0)
        as (t & Ht & HP).
      exists t. split; [exact Ht|].
      eapply Forall_impl; [exact HP|]. intros e. unfold calm.
      destruct (is_wait e), (is_destroy e); done.
    + destruct (emits_synchronize_no_destroy drv dev w0) as (t & Ht & HP).
      exists t. split; [exact Ht|].
      eapply Forall_impl; [exact HP|]. intros e. cbv beta.
      by destruct (is_destroy e).
  - intros d w0 w1. apply destroy_device_inv.
Qed.

Lemma discovery_one_signal_and_queue_if_supported_witness :
  ∃ t d,
    trace (snd (iterate_agents_callback drv_ok 7 w_boot)) = trace w_boot ++ t ∧
    count_api hsa_signal_create t = 1%nat ∧
    count_api hsa_queue_create t
    = (if decide (wrap32 (a_queue_max_size (drv_agent drv_ok 7)) > 0)
       then 1%nat else 0%nat) ∧
    cores (snd (iterate_agents_callback drv_ok 7 w_boot))
    = cores w_boot ++ [device_core d].
Proof.
  destruct (discovery_one_signal_and_queue_if_supported drv_ok 7 w_boot
              (snd (iterate_agents_callback drv_ok 7 w_boot)) HSA_STATUS_SUCCESS)
    as ((t & d & Ht & Hs & Hq & Hc & _) & _).
  - vm_compute. reflexivity.
  - exists t, d. split; [exact Ht|]. split; [exact Hs|]. split; [exact Hq | exact Hc].
Defined.

(** C5, as stated, fails for an agent that reports a maximum queue size of
    zero: discovery returns success and appends the device, one signal has
    been created, but no queue, and the device's queue is null. *)
Lemma discovery_without_queue :
  let r := iterate_agents_callback drv_ok 8 w_boot in
  a_queue_max_size (drv_agent drv_ok 8) = 0 ∧
  fst r = Ret HSA_STATUS_SUCCESS ∧
  count_api hsa_queue_create (trace (snd r)) = 0%nat ∧
  count_api hsa_signal_create (trace (snd r)) = 1%nat ∧
  (device_core <$> devices_ (snd r) !! 0%nat) = Some (8, None, 1).
Proof. vm_compute. repeat split; reflexivity. Qed.

(** ** Submission order of launches *)

Lemma undisturbed_refl w : undisturbed w w.
Proof. exists []. rewrite app_nil_r. repeat split; constructor. Qed.

Lemma undisturbed_trans w1 w2 w3 :
  undisturbed w1 w2 → undisturbed w2 w3 → undisturbed w1 w3.
Proof.
  intros (t1 & Ht1 & HP1 & Hq1 & Hc1) (t2 & Ht2 & HP2 & Hq2 & Hc2).
  exists (t1 ++ t2). rewrite Ht2, Ht1, app_assoc.
  split; [done|]. split; [by apply Forall_app|]. by rewrite Hq2, Hc2.
Qed.

Lemma undisturbed_of {A} (m : M A) w a w1 :
  emits inert m → preserves queues m → preserves cores m →
  m w = (Ret a, w1) → undisturbed w w1.
Proof.
  intros He Hq Hc Hrun. destruct (He w) as (t & Ht & HP).
  specialize (Hq w). specialize (Hc w).
  rewrite Hrun in Ht, Hq, Hc. by exists t.
Qed.

Lemma preserves_queues_pack_args kernarg sizes :
  ∀ args base, preserves queues (pack_args kernarg args sizes base).
Proof.
  induction sizes as [|s sizes IH]; intros [|a args] base; cbn [pack_args];
    try (intros ?; reflexivity).
  apply preserves_bind; [preserves_auto|]. intros o.
  apply preserves_bind; [preserves_auto | intros; apply IH].
Qed.

Lemma preserves_queues_lk_step drv dev filename kernelname pc :
  preserves queues (lk_step drv dev filename kernelname pc).
Proof. destruct pc; cbn [lk_step]; preserves_auto. Qed.

Lemma preserves_queues_lk_run drv fuel dev filename kernelname :
  ∀ pc, preserves queues (lk_run drv fuel dev filename kernelname pc).
Proof.
  induction fuel as [|fuel IH]; intros pc.
  - destruct pc; cbn [lk_run]; intros ?; reflexivity.
  - destruct pc; cbn [lk_run]; try (intros ?; reflexivity);
      (apply preserves_bind; [apply preserves_queues_lk_step | intros; apply IH]).
Qed.

Lemma load_kernel_undisturbed drv dev file name w k w1 :
  load_kernel drv dev file name w = (Ret k, w1) → undisturbed w w1.
Proof.
  apply undisturbed_of.
  - apply emits_load_kernel_inert.
  - unfold load_kernel. apply preserves_bind; [apply preserves_queues_lk_run|].
    intros; intros ?; reflexivity.
  - unfold load_kernel. apply preserves_bind; [apply preserves_cores_lk_run|].
    intros; intros ?; reflexivity.
Qed.

(** A launch that returns has reached [dispatch] without touching the
    command queue. *)
Lemma launch_kernel_reaches_dispatch drv dev file name grid block args sizes w w' :
  launch_kernel drv dev file name grid block args sizes w = (Ret tt, w') →
  ∃ d q k kernarg w1,
    0 ≤ dev ∧ devices_ w !! Z.to_nat dev = Some d ∧ queue d = Some q ∧
    undisturbed w w1 ∧
    dispatch drv dev q k kernarg grid block w1 = (Ret tt, w').
Proof.
  intros H. unfold launch_kernel in H.
  apply bind_Ret_inv in H as (d & w0 & Hdev & H).
  apply device_Ret_inv in Hdev as (-> & Hdev & Hd).
  apply bind_Ret_inv in H as (q & w0 & Hqueue & H).
  destruct (queue d) as [q'|] eqn:Hq; [|discriminate].
  injection Hqueue as <- <-.
  apply bind_Ret_inv in H as (k & w1 & Hload & H).
  apply load_kernel_undisturbed in Hload.
  apply bind_Ret_inv in H as (d1 & w2 & Hdev1 & H).
  apply device_Ret_inv in Hdev1 as (-> & _ & Hd1).
  apply bind_Ret_inv in H as ([status kernarg] & w2 & Halloc & H).
  apply undisturbed_of in Halloc; [|emits_auto|preserves_auto|preserves_auto].
  apply bind_Ret_inv in H as ([] & w3 & Hchk & H).
  apply CHECK_HSA_Ret_inv in Hchk as [_ ->].
  apply bind_Ret_inv in H as (offset & w3 & Hpack & H).
  destruct (within_segment _ _ _ _); [|discriminate].
  apply undisturbed_of in Hpack;
    [|apply emits_pack_args_inert|apply preserves_queues_pack_args
     |apply preserves_cores_pack_args].
  apply bind_Ret_inv in H as ([] & w4 & Hdbg & H).
  apply undisturbed_of in Hdbg; [|emits_auto|preserves_auto|preserves_auto].
  exists d, q', k, kernarg, w4. split; [done|]. split; [done|]. split; [done|].
  split; [|exact H].
  eauto using undisturbed_trans.
Qed.

(** A launch that returns has submitted its packet: signal, ring buffer,
    write index, doorbell, and nothing else on the queue. *)
Lemma launch_kernel_submits
    drv dev hq file name grid block args sizes w w' d qd n :
  0 ≤ dev → devices_ w !! Z.to_nat dev = Some d → queue d = Some hq →
  queues w !! hq = Some qd →
  q_size qd = 2 ^ n → 0 ≤ n < 32 →
  (∀ i, drv_status drv i hsa_signal_create = HSA_STATUS_SUCCESS) →
  launch_kernel drv dev file name grid block args sizes w = (Ret tt, w') →
  ∃ pre aql mid tail,
    trace w' = trace w ++ pre
      ++ [EvHsa hsa_signal_add_relaxed [signal d; 1]] ++ mid
      ++ [EvHsa hsa_queue_load_write_index_relaxed [hq];
          EvPacketWrite hq (q_write_index qd mod q_size qd) aql;
          EvHsa hsa_queue_store_write_index_relaxed [hq; wrap64 (q_write_index qd + 1)];
          EvHsa hsa_signal_store_relaxed
            [q_doorbell_signal qd; wrap_s64 (q_write_index qd)]]
      ++ tail ∧
    Forall (λ e, is_queue_event e = false) (pre ++ mid ++ tail) ∧
    queues w' !! hq =
      Some (with_write_index (wrap64 (q_write_index qd + 1))
              (with_ring (<[q_write_index qd mod q_size qd := aql]> (q_ring qd)) qd)).
Proof.
  intros Hdev Hd Hqueue Hq Hsize Hn Hcreate Hlaunch.
  apply launch_kernel_reaches_dispatch in Hlaunch
    as (d' & q' & k & kernarg & w1 & _ & Hd' & Hq' & Hund & Hdisp).
  rewrite Hd in Hd'. injection Hd' as <-.
  rewrite Hqueue in Hq'. injection Hq' as <-.
  destruct Hund as (pre & Hpre & HPpre & Hqueues & Hcores).
  assert (∃ d1, devices_ w1 !! Z.to_nat dev = Some d1 ∧ signal d1 = signal d)
    as (d1 & Hd1 & Hsig).
  { assert (cores w1 !! Z.to_nat dev = Some (device_core d)) as Hcore.
    { rewrite Hcores. unfold cores. rewrite list_lookup_fmap, Hd. reflexivity. }
    unfold cores in Hcore. rewrite list_lookup_fmap in Hcore.
    destruct (devices_ w1 !! Z.to_nat dev) as [d1|]; [|discriminate].
    exists d1. split; [done|]. cbn in Hcore. by injection Hcore. }
  destruct (dispatch_run drv dev hq k kernarg grid block w1 d1 qd n)
    as (aql & mid & tail & w2 & Hrun & Htr & HPq & _ & _ & _ & Hqueue');
    [done | done | by rewrite Hqueues | done | done | done |].
  rewrite Hdisp in Hrun. injection Hrun as <-.
  exists pre, aql, mid, tail. split; [|split; [|exact Hqueue']].
  - rewrite Htr, Hpre, Hsig. rewrite <- !app_assoc. reflexivity.
  - apply Forall_app. split; [|exact HPq].
    eapply Forall_impl; [exact HPpre|]. intros e. unfold inert.
    destruct (is_queue_event e); [|done]. by rewrite orb_true_r.
Qed.

(** C7. Submission into the command queue. For a device whose queue holds a
    power-of-two number of packets, a launch that returns has, in this
    order, incremented the device's completion signal, written the packet
    into the ring buffer at the write index modulo the queue size, stored the
    advanced write index and rung the doorbell with the index of the packet,
    converted to the signed 64-bit value a signal holds (from [2 ^ 63] on it
    is negative); nothing else in the launch touches the queue. Two submissions made one
    after the other by the same thread use consecutive slots, in the order
    they were made. *)
Theorem launch_submission_order
    (drv : Driver) (dev hq : Z) (grid block : dim3) (w : World)
    (d : DeviceData) (qd : hsa_queue_t) (n : Z) :
  0 ≤ dev → devices_ w !! Z.to_nat dev = Some d → queue d = Some hq →
  queues w !! hq = Some qd →
  q_size qd = 2 ^ n → 0 ≤ n < 32 →
  (∀ i, drv_status drv i hsa_signal_create = HSA_STATUS_SUCCESS) →
  let index := q_write_index qd in
  let size := q_size qd in
  (∀ file name args sizes w',
     launch_kernel drv dev file name grid block args sizes w = (Ret tt, w') →
     ∃ pre aql mid tail,
       trace w' = trace w ++ pre
         ++ [EvHsa hsa_signal_add_relaxed [signal d; 1]] ++ mid
         ++ [EvHsa hsa_queue_load_write_index_relaxed [hq];
             EvPacketWrite hq (index mod size) aql;
             EvHsa hsa_queue_store_write_index_relaxed [hq; wrap64 (index + 1)];
             EvHsa hsa_signal_store_relaxed [q_doorbell_signal qd; wrap_s64 index]]
         ++ tail ∧
       Forall (λ e, is_queue_event e = false) (pre ++ mid ++ tail) ∧
       queues w' !! hq =
         Some (with_write_index (wrap64 (index + 1))
                 (with_ring (<[index mod size := aql]> (q_ring qd)) qd))) ∧
  (∀ k1 k2 kernarg1 kernarg2,
   ∃ aql1 aql2 mid1 tail1 mid2 tail2 w1 w2,
     dispatch drv dev hq k1 kernarg1 grid block w = (Ret tt, w1) ∧
     dispatch drv dev hq k2 kernarg2 grid block w1 = (Ret tt, w2) ∧
     trace w2 = trace w
       ++ [EvHsa hsa_signal_add_relaxed [signal d; 1]] ++ mid1
       ++ [EvHsa hsa_queue_load_write_index_relaxed [hq];
           EvPacketWrite hq (index mod size) aql1;
           EvHsa hsa_queue_store_write_index_relaxed [hq; wrap64 (index + 1)];
           EvHsa hsa_signal_store_relaxed [q_doorbell_signal qd; wrap_s64 index]]
       ++ tail1
       ++ [EvHsa hsa_signal_add_relaxed [signal d; 1]] ++ mid2
       ++ [EvHsa hsa_queue_load_write_index_relaxed [hq];
           EvPacketWrite hq ((index + 1) mod size) aql2;
           EvHsa hsa_queue_store_write_index_relaxed
             [hq; wrap64 (wrap64 (index + 1) + 1)];
           EvHsa hsa_signal_store_relaxed
             [q_doorbell_signal qd; wrap_s64 (wrap64 (index + 1))]]
       ++ tail2 ∧
     Forall (λ e, is_queue_event e = false) (mid1 ++ tail1 ++ mid2 ++ tail2) ∧
     (kernel_object aql1 = k1.1.1.1 ∧ kernarg_address aql1 = kernarg1) ∧
     (kernel_object aql2 = k2.1.1.1 ∧ kernarg_address aql2 = kernarg2) ∧
     (q_ring <$> queues w2 !! hq)
     = Some (<[(index + 1) mod size := aql2]> (<[index mod size := aql1]> (q_ring qd)))).
Proof.
  intros Hdev Hd Hqueue Hq Hsize Hn Hcreate index size. split.
  - intros file name args sizes w' Hlaunch.
    by eapply launch_kernel_submits.
  - intros k1 k2 kernarg1 kernarg2.
    destruct (dispatch_run drv dev hq k1 kernarg1 grid block w d qd n)
      as (aql1 & mid1 & tail1 & w1 & Hrun1 & Htr1 & Hq1 & Hk1 & Ha1 & Hdevs1 & Hqueue1);
      [done..|].
    edestruct (dispatch_run drv dev hq k2 kernarg2 grid block w1 d) with (n := n)
      as (aql2 & mid2 & tail2 & w2 & Hrun2 & Htr2 & Hq2 & Hk2 & Ha2 & Hdevs2 & Hqueue2);
      [done | by rewrite Hdevs1 | exact Hqueue1 | exact Hsize | done | done |].
    cbn [q_write_index q_size q_doorbell_signal q_ring with_write_index with_ring]
      in Htr2, Hqueue2.
    assert (wrap64 (q_write_index qd + 1) mod q_size qd = (index + 1) mod size) as Hslot.
    { unfold wrap64, index, size. rewrite Hsize.
      apply Z.mod_mod_divide.
      exists (2 ^ (64 - n)). rewrite <- Z.pow_add_r by lia. f_equal. lia. }
    rewrite Hslot in Htr2, Hqueue2.
    exists aql1, aql2, mid1, tail1, mid2, tail2, w1, w2.
    split; [done|]. split; [done|]. split.
    { rewrite Htr2, Htr1. rewrite <- !app_assoc. reflexivity. }
    split.
    { apply Forall_app in Hq1 as [? ?]. apply Forall_app in Hq2 as [? ?].
      rewrite !Forall_app. done. }
    split; [done|]. split; [done|].
    rewrite Hqueue2. reflexivity.
Qed.

Lemma launch_submission_order_witness :
  ∃ pre aql mid tail,
    trace (snd (launch_kernel drv_ok 0 "k.gcn" "main" (256, 1, 1) (64, 1, 1)
                  [9000; 9004; 9012; 9016] [4; 8; 4; 16] w_ready))
    = trace w_ready ++ pre
      ++ [EvHsa hsa_signal_add_relaxed [3; 1]] ++ mid
      ++ [EvHsa hsa_queue_load_write_index_relaxed [1];
          EvPacketWrite 1 0 aql;
          EvHsa hsa_queue_store_write_index_relaxed [1; 1];
          EvHsa hsa_signal_store_relaxed [2; 0]]
      ++ tail.
Proof.
  edestruct (launch_submission_order drv_ok 0 1 (256, 1, 1) (64, 1, 1) w_ready)
    with (n := 3) as [Hlaunch _].
  - lia.
  - vm_compute. reflexivity.
  - reflexivity.
  - vm_compute. reflexivity.
  - reflexivity.
  - lia.
  - intros i. reflexivity.
  - edestruct (Hlaunch "k.gcn" "main" [9000; 9004; 9012; 9016] [4; 8; 4; 16])
      as (pre & aql & mid & tail & Htrace & _).
    + vm_compute. reflexivity.
    + exists pre, aql, mid, tail. exact Htrace.
Defined.

(** * Further properties of the platform and of the CUDA path *)

(** ** Equations of the remaining primitives *)

Lemma hsa_call_eq drv api args w :
  hsa_call drv api args w
  = (Ret (drv_status drv (length (trace w)) api),
     set_trace (trace w ++ [EvHsa api args]) w).
Proof. reflexivity. Qed.

Lemma hsa_query_eq drv api handle what w :
  hsa_query drv api handle what w
  = (Ret (drv_status drv (length (trace w)) api),
     set_trace (trace w ++ [EvQuery api handle what]) w).
Proof. reflexivity. Qed.

Lemma fresh_eq w :
  fresh w = (Ret (next_handle w), set_next_handle (next_handle w + 1) w).
Proof. reflexivity. Qed.

Lemma modify_eq f w : modify f w = (Ret tt, f w).
Proof. reflexivity. Qed.

Lemma signal_wait_relaxed_eq drv s cond value timeout state w :
  signal_wait_relaxed drv s cond value timeout state w
  = (Ret (drv_wait drv (length (trace w)) s),
     set_trace (trace w ++
       [EvHsa hsa_signal_wait_relaxed [s; cond; value; timeout; state]]) w).
Proof. reflexivity. Qed.

Lemma signal_subtract_relaxed_eq s v w :
  signal_subtract_relaxed s v w
  = (Ret tt, set_signals (<[s := wrap_s64 (signal_value w s - v)]> (signals w))
               (set_trace (trace w ++ [EvHsa hsa_signal_subtract_relaxed [s; v]]) w)).
Proof. reflexivity. Qed.

Lemma wrap_s64_small x : - 2 ^ 63 ≤ x < 2 ^ 63 → wrap_s64 x = x.
Proof. intros H. unfold wrap_s64. rewrite Z.mod_small; lia. Qed.

(** Symbolic execution against a driver whose checked calls succeed. *)
Ltac hprim :=
  first
    [ mprim
    | apply fresh_eq | apply modify_eq | apply update_device_eq
    | apply hsa_call_eq | apply hsa_query_eq
    | apply signal_wait_relaxed_eq | apply signal_subtract_relaxed_eq ].

Ltac hstep := erewrite bind_Ret; [| solve [hprim] ].

Lemma set_trace_set_trace t1 t2 w : set_trace t2 (set_trace t1 w) = set_trace t2 w.
Proof. reflexivity. Qed.

(** ** Registered and stored files *)

Lemma register_file_eq filename text w :
  register_file filename text w = (Ret tt, set_files (<[filename := text]> (files_ w)) w).
Proof. reflexivity. Qed.

Lemma load_file_eq filename w :
  load_file filename w
  = match files_ w !! filename with
    | Some text => (Ret text, w)
    | None => match fs w !! filename with
              | Some text => (Ret text, w)
              | None => (Fatal ("Can't open source file '" +:+ filename +:+ "'"), w)
              end
    end.
Proof.
  unfold load_file. rewrite (bind_Ret _ _ _ _ _ (get_eq _)).
  destruct (files_ w !! filename); [reflexivity|].
  destruct (fs w !! filename); reflexivity.
Qed.

(** X1. [register_file] then [load_file]: the text registered under a name is
    what [load_file] returns for that name, whatever the disk holds, and the
    load changes nothing; registering leaves the disk as it was; other names
    load as before; and registering again replaces the text. *)
Theorem register_file_load_file_round_trip
    (filename text : string) (w : World) :
  let w1 := snd (register_file filename text w) in
  load_file filename w1 = (Ret text, w1) ∧
  fs w1 = fs w ∧
  (∀ other, other ≠ filename → fst (load_file other w1) = fst (load_file other w)) ∧
  (∀ text', fst (load_file filename (snd (register_file filename text' w1))) = Ret text').
Proof.
  cbn zeta. rewrite register_file_eq. cbn [snd]. split; [|split; [done|split]].
  - rewrite load_file_eq. cbn [files_ set_files]. by rewrite lookup_insert_eq.
  - intros other Hne. rewrite !load_file_eq. cbn [files_ fs set_files].
    rewrite lookup_insert_ne by done.
    destruct (files_ w !! other); [done|]. by destruct (fs w !! other).
  - intros text'. rewrite register_file_eq, load_file_eq. cbn [snd files_ set_files].
    by rewrite lookup_insert_eq.
Qed.

(** X2. [store_file] then [load_file]. [store_file] logs one write and never
    touches the registered files. When the destination can be opened the text
    is on disk, but [load_file] of that name returns the registered text if one
    exists and the stored text only otherwise; other names load as before.
    When it cannot be opened the call is a fatal error and the disk is
    unchanged. *)
Theorem store_file_load_file_shadowed
    (drv : Driver) (filename str : string) (w : World) :
  let r := store_file drv filename str w in
  trace (snd r) = trace w ++ [EvStoreFile filename] ∧
  files_ (snd r) = files_ w ∧
  if fs_writable drv filename then
    fst r = Ret tt ∧
    fs (snd r) = <[filename := str]> (fs w) ∧
    fst (load_file filename (snd r)) = Ret (default str (files_ w !! filename)) ∧
    (∀ other, other ≠ filename → fst (load_file other (snd r)) = fst (load_file other w))
  else
    fst r = Fatal ("Can't open destination file '" +:+ filename +:+ "'") ∧
    fs (snd r) = fs w.
Proof.
  cbn zeta. unfold store_file. rewrite (bind_Ret _ _ _ _ _ (emit_eq _ _)).
  destruct (fs_writable drv filename); unfold modify, error;
    cbn [fst snd trace files_ fs set_fs set_trace]; [|done].
  split; [done|]. split; [done|]. split; [done|]. split; [done|]. split.
  - rewrite load_file_eq. cbn [fst snd trace files_ fs set_fs set_trace].
    destruct (files_ w !! filename); [done|].
    by rewrite lookup_insert_eq.
  - intros other Hne. rewrite !load_file_eq.
    cbn [fst snd trace files_ fs set_fs set_trace].
    destruct (files_ w !! other); [done|]. rewrite lookup_insert_ne by done.
    by destruct (fs w !! other).
Qed.

(** ** CUDA kernel arguments and launch outcomes *)

Lemma set_kernel_arg_step host s :
  args_in_bounds s → Cuda.cuArgIdx s < INT_MAX →
  ∃ s', Cuda.set_kernel_arg true host s = (Ret tt, s') ∧
        args_in_bounds s' ∧
        Cuda.cuArgIdx s' = Cuda.cuArgIdx s + 1 ∧
        Cuda.cuArgIdxMax s' = Z.max (Cuda.cuArgIdxMax s) (Cuda.cuArgIdx s + 1) ∧
        Cuda.cuArgs s' !! Z.to_nat (Cuda.cuArgIdx s) = Some host ∧
        (∀ i, i ≠ Z.to_nat (Cuda.cuArgIdx s) → (i < length (Cuda.cuArgs s))%nat →
              Cuda.cuArgs s' !! i = Cuda.cuArgs s !! i) ∧
        Cuda.calls s' = Cuda.calls s ∧
        Cuda.cuDimProblem s' = Cuda.cuDimProblem s ∧
        Cuda.cuDimBlock s' = Cuda.cuDimBlock s.
Proof.
  intros (Hidx & Hmax) Hfit. unfold Cuda.set_kernel_arg.
  destruct (decide (Cuda.cuArgIdx s = INT_MAX)) as [|_]; [lia|].
  rewrite andb_false_r.
  replace (Cuda.cuArgIdx s + 1 - 1) with (Cuda.cuArgIdx s) by lia.
  destruct (bool_decide (Cuda.cuArgIdx s + 1 > Cuda.cuArgIdxMax s)) eqn:Hgrow.
  - apply bool_decide_eq_true in Hgrow.
    assert (length (Cuda.cuArgs s) = Z.to_nat (Cuda.cuArgIdx s)) as Hlen by lia.
    assert (resize (Z.to_nat (Cuda.cuArgIdx s + 1)) 0 (Cuda.cuArgs s)
            = Cuda.cuArgs s ++ [0]) as ->.
    { replace (Z.to_nat (Cuda.cuArgIdx s + 1)) with (length (Cuda.cuArgs s) + 1)%nat by lia.
      rewrite resize_add, resize_all. rewrite drop_all. reflexivity. }
    destruct (decide _) as [_|Hbad]; [|rewrite length_app in Hbad; cbn in Hbad; lia].
    eexists. split; [reflexivity|]. unfold args_in_bounds. cbn.
    rewrite <- Hlen.
    split; [|split; [done|split; [lia|split]]].
    + split; [lia|]. rewrite length_insert, length_app. cbn. lia.
    + apply list_lookup_insert_eq. rewrite length_app. cbn. lia.
    + split; [|done]. intros i Hne Hi.
      rewrite list_lookup_insert_ne by done. by rewrite lookup_app_l.
  - apply bool_decide_eq_false in Hgrow.
    destruct (decide _) as [_|Hbad]; [|lia].
    eexists. split; [reflexivity|]. unfold args_in_bounds. cbn.
    split; [|split; [done|split; [lia|split]]].
    + split; [lia|]. rewrite length_insert. done.
    + apply list_lookup_insert_eq. lia.
    + split; [|done]. intros i Hne Hi. by rewrite list_lookup_insert_ne.
Qed.

(** X3. [set_kernel_arg] called once per argument. Starting from a state whose
    index is within the buffer and with room below [INT_MAX], the calls
    return, the buffer grows to the highest index reached and never shrinks,
    argument [j] sits at slot [cuArgIdx + j], the slots outside the written
    range keep their value, and no driver call is made. *)
Theorem cuda_kernel_args_in_call_order (hosts : list Z) (s : Cuda.State) :
  args_in_bounds s →
  Cuda.cuArgIdx s + Z.of_nat (length hosts) ≤ INT_MAX →
  ∃ s',
    Cuda.set_kernel_args hosts s = (Ret tt, s') ∧
    args_in_bounds s' ∧
    Cuda.cuArgIdx s' = Cuda.cuArgIdx s + Z.of_nat (length hosts) ∧
    Cuda.cuArgIdxMax s' = Z.max (Cuda.cuArgIdxMax s) (Cuda.cuArgIdx s') ∧
    (∀ j host, hosts !! j = Some host →
               Cuda.cuArgs s' !! (Z.to_nat (Cuda.cuArgIdx s) + j)%nat = Some host) ∧
    (∀ i, (i < length (Cuda.cuArgs s))%nat →
          (i < Z.to_nat (Cuda.cuArgIdx s))%nat ∨ (Z.to_nat (Cuda.cuArgIdx s') ≤ i)%nat →
          Cuda.cuArgs s' !! i = Cuda.cuArgs s !! i) ∧
    Cuda.calls s' = Cuda.calls s.
Proof.
  revert s. induction hosts as [|host hosts IH]; intros s Hinv Hfit.
  - exists s. cbn [Cuda.set_kernel_args length]. unfold Cuda.cret.
    destruct Hinv as [Hidx Hmax].
    split; [done|]. split; [done|]. split; [lia|]. split; [lia|].
    split; [intros j h Hj; by destruct j|]. done.
  - cbn [length] in Hfit. cbn [Cuda.set_kernel_args].
    destruct (set_kernel_arg_step host s Hinv ltac:(lia))
      as (s1 & Hstep & Hinv1 & Hidx1 & Hmax1 & Hhost & Hsame & Hcalls & _ & _).
    destruct (IH s1 Hinv1 ltac:(lia))
      as (s' & Hrun & Hinv' & Hidx' & Hmax' & Hhosts & Hsame' & Hcalls').
    exists s'. unfold Cuda.cbind at 1. rewrite Hstep.
    pose proof Hinv as [Hi Hm]. pose proof Hinv1 as [Hi1 Hm1].
    split; [exact Hrun|]. split; [exact Hinv'|].
    split; [cbn [length]; lia|]. split; [lia|]. split; [|split].
    + intros [|j] h Hj.
      * injection Hj as <-. rewrite Nat.add_0_r.
        rewrite Hsame'; [exact Hhost | lia | left; lia].
      * cbn in Hj. apply Hhosts in Hj.
        replace (Z.to_nat (Cuda.cuArgIdx s) + S j)%nat
          with (Z.to_nat (Cuda.cuArgIdx s1) + j)%nat by lia.
        exact Hj.
    + intros i Hlen Hi'. rewrite Hsame'; [apply Hsame; [lia | done] | lia | lia].
    + congruence.
Qed.

Lemma cuda_kernel_args_in_call_order_witness :
  ∃ s', Cuda.set_kernel_args [11; 22; 33] Cuda.initial = (Ret tt, s') ∧
        Cuda.cuArgIdx s' = 3 ∧ Cuda.cuArgIdxMax s' = 3 ∧
        Cuda.cuArgs s' !! 2%nat = Some 33.
Proof.
  destruct (cuda_kernel_args_in_call_order [11; 22; 33] Cuda.initial)
    as (s' & Hrun & _ & Hidx & Hmax & Hhosts & _).
  - split; cbn; lia.
  - vm_compute. discriminate.
  - exists s'. split; [exact Hrun|]. split; [exact Hidx|].
    split; [rewrite Hmax, Hidx; reflexivity|].
    apply (Hhosts 2%nat 33). reflexivity.
Defined.

(** X4. [launch_kernel] on the CUDA path. A zero block dimension is a division
    by zero before any driver call. Otherwise the launch returns exactly when
    [cuLaunchKernel] and the following [cuCtxSynchronize] succeed; a failing
    [cuLaunchKernel] is a fatal error naming the kernel, raised before any
    synchronisation; and a launch that returns has made the ten driver calls
    in order, reset the argument index to 0 and kept the argument buffer, its
    capacity and the configured sizes. *)
Theorem cuda_launch_outcomes (cu_status : nat → Z) (name : string) (s : Cuda.State) :
  let r := Cuda.launch_kernel cu_status name s in
  let n := length (Cuda.calls s) in
  let b := Cuda.cuDimBlock s in
  let p := Cuda.cuDimProblem s in
  if decide (Cuda.x b = 0 ∨ Cuda.y b = 0 ∨ Cuda.z b = 0) then
    r = (Undefined "division by zero", s)
  else
    (fst r = Ret tt ↔
     cu_status (n + 3)%nat = Cuda.CUDA_SUCCESS ∧
     cu_status (n + 4)%nat = Cuda.CUDA_SUCCESS) ∧
    (cu_status (n + 3)%nat ≠ Cuda.CUDA_SUCCESS →
     fst r = Fatal ("checkErrDrv(" +:+ ("cuLaunchKernel(" +:+ name +:+ ")") +:+ ")") ∧
     Cuda.calls (snd r)
     = Cuda.calls s
       ++ [Cuda.cuEventCreate; Cuda.cuEventCreate; Cuda.cuEventRecord;
           Cuda.cuLaunchKernel (Cuda.x p / Cuda.x b) (Cuda.y p / Cuda.y b)
             (Cuda.z p / Cuda.z b) (Cuda.x b) (Cuda.y b) (Cuda.z b)]) ∧
    (fst r = Ret tt →
     Cuda.cuArgIdx (snd r) = 0 ∧
     Cuda.cuArgs (snd r) = Cuda.cuArgs s ∧
     Cuda.cuArgIdxMax (snd r) = Cuda.cuArgIdxMax s ∧
     Cuda.cuDimProblem (snd r) = p ∧ Cuda.cuDimBlock (snd r) = b ∧
     Cuda.calls (snd r)
     = Cuda.calls s
       ++ [Cuda.cuEventCreate; Cuda.cuEventCreate; Cuda.cuEventRecord;
           Cuda.cuLaunchKernel (Cuda.x p / Cuda.x b) (Cuda.y p / Cuda.y b)
             (Cuda.z p / Cuda.z b) (Cuda.x b) (Cuda.y b) (Cuda.z b);
           Cuda.cuCtxSynchronize; Cuda.cuEventRecord; Cuda.cuEventSynchronize;
           Cuda.cuEventElapsedTime; Cuda.cuEventDestroy; Cuda.cuEventDestroy]).
Proof.
  cbn zeta. destruct (decide _) as [Hzero|Hnz].
  - unfold Cuda.launch_kernel, Cuda.launch_grid, Cuda.cbind, Cuda.udiv.
    destruct (decide (Cuda.x (Cuda.cuDimBlock s) = 0)); [reflexivity|].
    destruct (decide (Cuda.y (Cuda.cuDimBlock s) = 0)); [reflexivity|].
    destruct (decide (Cuda.z (Cuda.cuDimBlock s) = 0)); [reflexivity|].
    tauto.
  - unfold Cuda.launch_kernel.
    rewrite (cbind_Ret _ _ _ _ _ (cuda_launch_grid_eq s ltac:(tauto) ltac:(tauto) ltac:(tauto))).
    unfold Cuda.cbind, Cuda.cu, Cuda.checkErrDrv, Cuda.cret.
    cbn [Cuda.calls Cuda.cuDimBlock Cuda.cuDimProblem Cuda.x Cuda.y Cuda.z
         Cuda.cuArgs Cuda.cuArgIdx Cuda.cuArgIdxMax].
    rewrite !length_app. cbn [length].
    replace (length (Cuda.calls s) + 1 + 1 + 1)%nat with (length (Cuda.calls s) + 3)%nat by lia.
    destruct (decide (cu_status (length (Cuda.calls s) + 3)%nat = Cuda.CUDA_SUCCESS))
      as [H3|H3]; cbn [fst snd Cuda.calls].
    + rewrite !length_app. cbn [length].
      replace (length (Cuda.calls s) + 1 + 1 + 1 + 1)%nat
        with (length (Cuda.calls s) + 4)%nat by lia.
      destruct (decide (cu_status (length (Cuda.calls s) + 4)%nat = Cuda.CUDA_SUCCESS))
        as [H4|H4]; cbn [fst snd Cuda.calls Cuda.cuArgs Cuda.cuArgIdx Cuda.cuArgIdxMax
                         Cuda.cuDimBlock Cuda.cuDimProblem].
      * split; [done|]. split; [intros Hc; destruct (Hc H3)|]. intros _.
        rewrite <- !app_assoc. done.
      * split; [split; [intros H; discriminate H | tauto]|].
        split; [intros Hc; destruct (Hc H3)|].
        intros H; discriminate H.
    + split; [split; [intros H; discriminate H | tauto]|].
      split; [|intros H; discriminate H]. intros _.
      rewrite <- !app_assoc. done.
Qed.

(** ** [load_kernel]: rejected file names *)

Lemma rfind_from_absent c s :
  contains c s = false → ∀ i last, rfind_from c s i last = last.
Proof.
  induction s as [|a s IH]; intros Hc i last; [reflexivity|].
  cbn in Hc. apply orb_false_iff in Hc as [Ha Hs].
  cbn [rfind_from]. rewrite Ha. by apply IH.
Qed.

Lemma rfind_from_last c stem ext :
  contains c ext = false →
  ∀ i last, rfind_from c (stem +:+ String c ext) i last = Some (i + String.length stem)%nat.
Proof.
  intros Hext. induction stem as [|a stem IH]; intros i last.
  - change ("" +:+ String c ext) with (String c ext). cbn [rfind_from].
    rewrite Ascii.eqb_refl, rfind_from_absent by done. cbn. f_equal. lia.
  - change (String a stem +:+ String c ext) with (String a (stem +:+ String c ext)).
    cbn [rfind_from String.length]. rewrite IH. f_equal. lia.
Qed.

Lemma rfind_last c stem ext :
  contains c ext = false →
  rfind c (stem +:+ String c ext) = Some (String.length stem).
Proof. intros H. unfold rfind. by rewrite rfind_from_last. Qed.

Lemma rfind_absent c s : contains c s = false → rfind c s = None.
Proof. intros H. unfold rfind. by rewrite rfind_from_absent. Qed.

Lemma substring_skip stem s :
  String.substring (String.length stem) (String.length s) (stem +:+ s) = s.
Proof.
  induction stem as [|a stem IH]; [apply substring_all|]. exact IH.
Qed.

Lemma string_length_app (s1 s2 : string) :
  String.length (s1 +:+ s2) = (String.length s1 + String.length s2)%nat.
Proof.
  induction s1 as [|a s1 IH]; [reflexivity|].
  change (String a s1 +:+ s2) with (String a (s1 +:+ s2)).
  cbn [String.length]. by rewrite IH.
Qed.

Lemma substr_after stem c ext :
  substr (String.length stem + 1) (stem +:+ String c ext) = ext.
Proof.
  unfold substr. rewrite string_length_app. cbn [String.length].
  replace (String.length stem + S (String.length ext) - (String.length stem + 1))%nat
    with (String.length ext) by lia.
  replace (String.length stem + 1)%nat with (String.length (stem +:+ String c "")).
  2:{ rewrite string_length_app. reflexivity. }
  replace (stem +:+ String c ext) with ((stem +:+ String c "") +:+ ext).
  2:{ rewrite string_app_assoc. reflexivity. }
  apply substring_skip.
Qed.

Lemma lk_step_entry_miss drv dev filename kernelname w d :
  0 ≤ dev → devices_ w !! Z.to_nat dev = Some d →
  programs d !! filename = None →
  lk_step drv dev filename kernelname LkEntry w
  = (Ret LkCompile, set_trace (trace w ++ [EvLock dev; EvUnlock dev]) w).
Proof.
  intros Hdev Hd Hmiss. cbn [lk_step].
  rewrite (bind_Ret _ _ _ _ _ (emit_eq _ _)).
  erewrite (bind_Ret _ _ _ d); [|by apply device_eq].
  rewrite Hmiss, (bind_Ret _ _ _ _ _ (emit_eq _ _)), ret_eq.
  f_equal. unfold set_trace. cbn. by rewrite <- app_assoc.
Qed.

Lemma load_kernel_miss drv dev filename kernelname w d :
  0 ≤ dev → devices_ w !! Z.to_nat dev = Some d →
  programs d !! filename = None →
  load_kernel_executable drv dev filename kernelname w
  = (pc <- lk_step drv dev filename kernelname LkCompile ;;
     lk_run drv 3 dev filename kernelname pc)
      (set_trace (trace w ++ [EvLock dev; EvUnlock dev]) w).
Proof.
  intros Hdev Hd Hmiss. unfold load_kernel_executable. cbn [lk_run].
  by erewrite (bind_Ret _ _ _ LkCompile); [|by eapply lk_step_entry_miss].
Qed.

Lemma lk_compile_bad_extension drv dev filename w d ext :
  0 ≤ dev → devices_ w !! Z.to_nat dev = Some d →
  match rfind "." filename with
  | Some ext_pos => substr (ext_pos + 1) filename
  | None => ""
  end = ext →
  ext ≠ "gcn" → ext ≠ "amdgpu" →
  lk_compile drv dev filename w
  = (Fatal ("Incorrect extension for kernel file '" +:+ filename +:+
            "' (should be '.gcn' or '.amdgpu')"), w).
Proof.
  intros Hdev Hd Hext Hgcn Hamd. unfold lk_compile.
  erewrite (bind_Ret _ _ _ d); [|by apply device_eq].
  rewrite Hext. rewrite !bool_decide_true by done. reflexivity.
Qed.

Lemma lk_compile_not_found drv dev filename w d ext :
  0 ≤ dev → devices_ w !! Z.to_nat dev = Some d →
  match rfind "." filename with
  | Some ext_pos => substr (ext_pos + 1) filename
  | None => ""
  end = ext →
  ext = "gcn" ∨ ext = "amdgpu" →
  files_ w !! filename = None → fs w !! filename = None →
  lk_compile drv dev filename w
  = (Fatal ("Could not find kernel file '" +:+ filename +:+ "'"), w).
Proof.
  intros Hdev Hd Hext Hk Hfiles Hfs. unfold lk_compile.
  erewrite (bind_Ret _ _ _ d); [|by apply device_eq].
  rewrite Hext.
  assert (bool_decide (ext ≠ "gcn") && bool_decide (ext ≠ "amdgpu") = false) as ->.
  { destruct Hk as [-> | ->]; reflexivity. }
  rewrite (bind_Ret _ _ _ _ _ (ret_eq _ _)), (bind_Ret _ _ _ _ _ (get_eq _)).
  rewrite Hfiles, Hfs.
  rewrite !(bool_decide_false (is_Some None)) by (by intros [? ?]).
  cbn [orb]. rewrite !andb_false_r. reflexivity.
Qed.

(** X5. [load_kernel] on a file that is not cached. An extension other than
    [gcn] and [amdgpu] (the text after the last dot), or a name without a dot,
    is the fatal error "Incorrect extension"; an accepted extension with the
    file neither registered nor on disk is the fatal error "Could not find
    kernel file". In each case the device lock has been taken and released
    once and nothing else has happened: no driver call, no compilation. *)
Theorem load_kernel_rejects_before_driver
    (drv : Driver) (dev : Z) (stem ext kernelname : string) (w : World)
    (d : DeviceData) :
  0 ≤ dev → devices_ w !! Z.to_nat dev = Some d →
  contains "." ext = false →
  let filename := stem +:+ "." +:+ ext in
  let w1 := set_trace (trace w ++ [EvLock dev; EvUnlock dev]) w in
  programs d !! filename = None →
  (ext ≠ "gcn" → ext ≠ "amdgpu" →
   load_kernel drv dev filename kernelname w
   = (Fatal ("Incorrect extension for kernel file '" +:+ filename +:+
             "' (should be '.gcn' or '.amdgpu')"), w1)) ∧
  (ext = "gcn" ∨ ext = "amdgpu" →
   files_ w !! filename = None → fs w !! filename = None →
   load_kernel drv dev filename kernelname w
   = (Fatal ("Could not find kernel file '" +:+ filename +:+ "'"), w1)) ∧
  (∀ plain, contains "." plain = false → programs d !! plain = None →
     load_kernel drv dev plain kernelname w
     = (Fatal ("Incorrect extension for kernel file '" +:+ plain +:+
               "' (should be '.gcn' or '.amdgpu')"), w1)).
Proof.
  intros Hdev Hd Hext filename w1 Hmiss.
  assert (∀ f msg, programs d !! f = None →
            lk_compile drv dev f w1 = (Fatal msg, w1) →
            load_kernel drv dev f kernelname w = (Fatal msg, w1)) as Hrun.
  { intros f msg Hf Hc. unfold load_kernel.
    fold (load_kernel_executable drv dev f kernelname).
    rewrite bind_unfold, (load_kernel_miss drv dev f kernelname w d) by done.
    fold w1. cbn [lk_step]. rewrite !bind_unfold, Hc. reflexivity. }
  assert (match rfind "." filename with
          | Some ext_pos => substr (ext_pos + 1) filename
          | None => ""
          end = ext) as Hcomputed.
  { unfold filename. change ("." +:+ ext) with (String "." ext).
    rewrite rfind_last by done. apply substr_after. }
  split; [|split].
  - intros Hgcn Hamd. apply Hrun; [done|].
    by eapply lk_compile_bad_extension.
  - intros Hk Hfiles Hfs. apply Hrun; [done|].
    by eapply lk_compile_not_found.
  - intros plain Hplain Hp. apply Hrun; [done|].
    apply (lk_compile_bad_extension drv dev plain w1 d ""); [done | done | | done | done].
    by rewrite rfind_absent.
Qed.

Lemma load_kernel_rejects_before_driver_witness :
  fst (load_kernel drv_ok 0 "k.txt" "main" w_ready)
  = Fatal "Incorrect extension for kernel file 'k.txt' (should be '.gcn' or '.amdgpu')".
Proof.
  edestruct (load_kernel_rejects_before_driver drv_ok 0 "k" "txt" "main" w_ready)
    as (Hbad & _).
  - lia.
  - vm_compute. reflexivity.
  - reflexivity.
  - vm_compute. reflexivity.
  - exact (f_equal fst (Hbad ltac:(discriminate) ltac:(discriminate))).
Defined.

(** ** The cache under interleaved [load_kernel] calls *)

Lemma cache_grows_refl T w : cache_grows T w w.
Proof.
  intros i d Hd. exists d. split; [done|]. split; [done|]. split; [done|].
  intros e km Hkm. by exists km.
Qed.

Lemma cache_grows_trans T w1 w2 w3 :
  cache_grows T w1 w2 → cache_grows T w2 w3 → cache_grows T w1 w3.
Proof.
  intros H12 H23 i d Hd.
  destruct (H12 i d Hd) as (d2 & Hd2 & Hp2 & Hu2 & Hk2).
  destruct (H23 i d2 Hd2) as (d3 & Hd3 & Hp3 & Hu3 & Hk3).
  exists d3. split; [done|]. split; [|split].
  - intros f Hf. by apply Hp3, Hp2.
  - intros f Hf. by rewrite Hu3, Hu2.
  - intros e km Hkm. destruct (Hk2 e km Hkm) as (km2 & Hkm2 & Hsub2).
    destruct (Hk3 e km2 Hkm2) as (km3 & Hkm3 & Hsub3).
    exists km3. split; [done|]. by etrans.
Qed.

Lemma cache_grows_mono (T T' : nat → string → Prop) w w' :
  (∀ i f, T i f → T' i f) → cache_grows T w w' → cache_grows T' w w'.
Proof.
  intros HT H i d Hd. destruct (H i d Hd) as (d' & Hd' & Hp & Hu & Hk).
  exists d'. split; [done|]. split; [done|]. split; [|done].
  intros f Hf. apply Hu. intros Ht. by apply Hf, HT.
Qed.

Lemma cache_grows_same T w w' : devices_ w' = devices_ w → cache_grows T w w'.
Proof.
  intros H i d Hd. exists d. rewrite H. split; [done|]. split; [done|].
  split; [done|]. intros e km Hkm. by exists km.
Qed.

(** One device record replaced by one that kept what [cache_grows] asks. *)
Lemma cache_grows_alter (T : nat → string → Prop) w w' i g d :
  devices_ w !! i = Some d →
  devices_ w' = alter g i (devices_ w) →
  (∀ f, is_Some (programs d !! f) → is_Some (programs (g d) !! f)) →
  (∀ f, ¬ T i f → programs (g d) !! f = programs d !! f) →
  (∀ e km, kernels d !! e = Some km →
           ∃ km', kernels (g d) !! e = Some km' ∧ km ⊆ km') →
  cache_grows T w w'.
Proof.
  intros Hd Hw' Hp Hu Hk j dj Hdj. rewrite Hw'.
  destruct (decide (i = j)) as [<-|Hne].
  - rewrite Hd in Hdj. injection Hdj as <-.
    exists (g d). rewrite list_lookup_alter_eq, Hd. done.
  - exists dj. rewrite list_lookup_alter_ne by done.
    split; [done|]. split; [done|]. split; [done|].
    intros e km Hkm. by exists km.
Qed.

Lemma device_cases dev w :
  (∃ d, device dev w = (Ret d, w) ∧ 0 ≤ dev ∧ devices_ w !! Z.to_nat dev = Some d) ∨
  (∃ why, device dev w = (Undefined why, w)).
Proof.
  unfold device. destruct (decide (0 ≤ dev)); [|right; eauto].
  destruct (devices_ w !! Z.to_nat dev) as [d|] eqn:Hd; [left; eauto | right; eauto].
Qed.

Lemma cache_grows_lk_lookup_kernel T dev e kernelname w :
  cache_grows T w (snd (lk_lookup_kernel dev e kernelname w)).
Proof.
  unfold lk_lookup_kernel.
  destruct (device_cases dev w) as [(d & Hdev & Hnn & Hd) | (why & Hdev)].
  2:{ rewrite bind_unfold, Hdev. apply cache_grows_refl. }
  rewrite (bind_Ret _ _ _ _ _ Hdev).
  rewrite (bind_Ret _ _ _ _ _ (update_device_eq _ _ _)).
  eapply (cache_grows_alter T _ _ (Z.to_nat dev)); [exact Hd | | | |].
  - destruct (_ !! kernelname);
      rewrite (bind_Ret _ _ _ _ _ (emit_eq _ _)), ret_eq; reflexivity.
  - done.
  - done.
  - intros e' km Hkm. cbn [kernels with_kernels].
    destruct (decide (e' = e)) as [->|Hne].
    + rewrite lookup_insert_eq, Hkm. by exists km.
    + rewrite lookup_insert_ne by done. by exists km.
Qed.

Lemma preserves_devices_any {A} (m : M A) T w :
  preserves devices_ m → cache_grows T w (snd (m w)).
Proof. intros H. apply cache_grows_same, H. Qed.

Lemma cache_grows_lk_step drv dev filename kernelname pc w :
  cache_grows (λ i f, i = Z.to_nat dev ∧ f = filename) w
    (snd (lk_step drv dev filename kernelname pc w)).
Proof.
  set (T := λ (i : nat) (f : string), i = Z.to_nat dev ∧ f = filename).
  destruct pc as [| |e|e|e k|e k]; cbn [lk_step].
  - rewrite (bind_Ret _ _ _ _ _ (emit_eq _ _)).
    set (w1 := set_trace _ w).
    apply (cache_grows_trans T w w1); [by apply cache_grows_same|].
    destruct (device_cases dev w1) as [(d & Hdev & Hnn & Hd) | (why & Hdev)].
    2:{ rewrite bind_unfold, Hdev. apply cache_grows_refl. }
    rewrite (bind_Ret _ _ _ _ _ Hdev).
    destruct (programs d !! filename).
    + apply cache_grows_lk_lookup_kernel.
    + rewrite (bind_Ret _ _ _ _ _ (emit_eq _ _)), ret_eq. by apply cache_grows_same.
  - apply preserves_devices_any.
    apply preserves_bind; [apply preserves_devices_lk_compile | by intros ? ?].
  - rewrite (bind_Ret _ _ _ _ _ (emit_eq _ _)).
    set (w1 := set_trace _ w).
    apply (cache_grows_trans T w w1); [by apply cache_grows_same|].
    destruct (device_cases dev w1) as [(d & Hdev & Hnn & Hd) | (why & Hdev)].
    2:{ rewrite bind_unfold, Hdev. apply cache_grows_refl. }
    rewrite (bind_Ret _ _ _ _ _ Hdev).
    rewrite (bind_Ret _ _ _ _ _ (update_device_eq _ _ _)).
    set (w2 := set_devices _ w1).
    apply (cache_grows_trans T w1 w2); [|apply cache_grows_lk_lookup_kernel].
    eapply (cache_grows_alter T _ _ (Z.to_nat dev)); [exact Hd | reflexivity | | |].
    + intros f Hf. cbn [programs with_programs].
      destruct (decide (f = filename)) as [->|Hne].
      * rewrite lookup_insert_eq. by eexists.
      * by rewrite lookup_insert_ne.
    + intros f Hf. cbn [programs with_programs].
      rewrite lookup_insert_ne; [done|]. intros ->. by apply Hf.
    + intros e' km Hkm. by exists km.
  - apply preserves_devices_any.
    apply preserves_bind; [apply preserves_devices_lk_resolve | by intros ? ?].
  - rewrite (bind_Ret _ _ _ _ _ (emit_eq _ _)).
    set (w1 := set_trace _ w).
    apply (cache_grows_trans T w w1); [by apply cache_grows_same|].
    destruct (device_cases dev w1) as [(d & Hdev & Hnn & Hd) | (why & Hdev)].
    2:{ rewrite bind_unfold, Hdev. apply cache_grows_refl. }
    rewrite (bind_Ret _ _ _ _ _ Hdev).
    rewrite (bind_Ret _ _ _ _ _ (update_device_eq _ _ _)).
    rewrite (bind_Ret _ _ _ _ _ (emit_eq _ _)), ret_eq.
    eapply (cache_grows_alter T _ _ (Z.to_nat dev)); [exact Hd | reflexivity | | |].
    + done.
    + done.
    + intros e' km Hkm. cbn [kernels with_kernels].
      destruct (decide (e' = e)) as [->|Hne].
      * rewrite lookup_insert_eq, Hkm. eexists. split; [reflexivity|].
        cbn. unfold emplace. destruct (km !! kernelname) eqn:Hk; [done|].
        by apply insert_subseteq.
      * rewrite lookup_insert_ne by done. by exists km.
  - apply cache_grows_refl.
Qed.

Lemma cache_grows_run_schedule drv sched :
  ∀ ts w, cache_grows (touched_by ts) w (snd (run_schedule drv sched ts w)).
Proof.
  induction sched as [|i sched IH]; intros ts w; cbn [run_schedule].
  - apply cache_grows_refl.
  - destruct (ts !! i) as [t|] eqn:Ht; [|apply IH].
    rewrite bind_unfold.
    pose proof (cache_grows_lk_step drv (t_dev t) (t_file t) (t_kernel t) (t_pc t) w) as Hstep.
    assert (cache_grows (touched_by ts) w
              (snd (lk_step drv (t_dev t) (t_file t) (t_kernel t) (t_pc t) w))) as Hstep'.
    { eapply cache_grows_mono; [|exact Hstep].
      intros j f [-> ->]. exists t. split; [|done]. by eapply list_elem_of_lookup_2. }
    destruct (lk_step _ _ _ _ _ w) as [[pc'|msg|why] w1]; cbn [snd] in *; [|done..].
    eapply cache_grows_trans; [exact Hstep'|].
    eapply cache_grows_mono; [|apply IH].
    intros j f (t' & Hin & Hj & Hf).
    apply list_elem_of_lookup in Hin as (n & Hn).
    destruct (decide (n = i)) as [->|Hne].
    + rewrite list_lookup_insert_eq in Hn by (by eapply lookup_lt_Some).
      injection Hn as <-. exists t. split; [by eapply list_elem_of_lookup_2 | done].
    + rewrite list_lookup_insert_ne in Hn by done.
      exists t'. split; [by eapply list_elem_of_lookup_2 | done].
Qed.

(** X6. Under any interleaving of any threads running [load_kernel], a device
    stays in place and its caches only grow: a cached file stays cached, a
    file no thread of that device asks for keeps its entry (or its absence),
    and every kernel map keeps all its entries. *)
Theorem cache_entries_survive_any_schedule
    (drv : Driver) (sched : list nat) (ts : list thread) (w : World)
    (i : nat) (d : DeviceData) :
  devices_ w !! i = Some d →
  ∃ d',
    devices_ (snd (run_schedule drv sched ts w)) !! i = Some d' ∧
    (∀ f, is_Some (programs d !! f) → is_Some (programs d' !! f)) ∧
    (∀ f, (∀ t, t ∈ ts → Z.to_nat (t_dev t) = i → t_file t ≠ f) →
          programs d' !! f = programs d !! f) ∧
    (∀ e km, kernels d !! e = Some km →
             ∃ km', kernels d' !! e = Some km' ∧ km ⊆ km').
Proof.
  intros Hd.
  destruct (cache_grows_run_schedule drv sched ts w i d Hd) as (d' & Hd' & Hp & Hu & Hk).
  exists d'. split; [done|]. split; [done|]. split; [|done].
  intros f Hf. apply Hu. intros (t & Hin & Hi & Hfile). by apply (Hf t).
Qed.

Lemma cache_entries_survive_any_schedule_witness :
  ∃ d', devices_ (snd (run_schedule drv_ok [0; 1; 0; 1; 0; 1; 0; 1; 0; 1]%nat
                         [racer; racer] w_loaded)) !! 0%nat = Some d' ∧
        ∃ km', kernels d' !! 6 = Some km' ∧ {["main" := (24576, 40, 0, 0)]} ⊆ km'.
Proof.
  edestruct (cache_entries_survive_any_schedule drv_ok [0; 1; 0; 1; 0; 1; 0; 1; 0; 1]%nat
              [racer; racer] w_loaded 0%nat) as (d' & Hd' & _ & _ & Hk).
  - vm_compute. reflexivity.
  - exists d'. split; [exact Hd'|]. apply Hk. vm_compute. reflexivity.
Defined.

(** ** Region discovery *)

Lemma with_regions_id d :
  with_regions (kernarg_region d) (finegrained_region d) (coarsegrained_region d) d = d.
Proof. by destruct d. Qed.

Lemma iterate_regions_callback_inv drv region dev w st w' :
  iterate_regions_callback drv region dev w = (Ret st, w') →
  st = HSA_STATUS_SUCCESS ∧
  ∃ d, 0 ≤ dev ∧ devices_ w !! Z.to_nat dev = Some d ∧
    devices_ w' = <[Z.to_nat dev :=
      with_regions
        (region_for HSA_REGION_GLOBAL_FLAG_KERNARG [region] (kernarg_region d))
        (region_for HSA_REGION_GLOBAL_FLAG_FINE_GRAINED [region] (finegrained_region d))
        (region_for HSA_REGION_GLOBAL_FLAG_COARSE_GRAINED [region] (coarsegrained_region d))
        d]> (devices_ w).
Proof.
  intros H. unfold iterate_regions_callback in H.
  do 5 inv_bind H.
  apply bind_Ret_inv in H as (d & w1 & Hdev & H).
  apply device_Ret_inv in Hdev as (-> & Hnn & Hd).
  apply bind_Ret_inv in H as ([] & w2 & Hupd & H).
  rewrite update_device_eq in Hupd. inv_pair Hupd.
  do 4 inv_bind H. inv_prim H.
  split; [done|]. exists d. split; [done|]. split; [exact Hd|].
  cbn [devices_ set_trace set_devices].
  apply list_eq. intros j. destruct (decide (Z.to_nat dev = j)) as [<-|Hne].
  - rewrite list_lookup_alter_eq, list_lookup_insert_eq by (by eapply lookup_lt_Some).
    cbn [devices_ set_trace] in Hd. rewrite Hd. reflexivity.
  - by rewrite list_lookup_alter_ne, list_lookup_insert_ne.
Qed.

Lemma iterate_regions_inv
    (drv : Driver) (regions : list RegionInfo) (dev : Z) (w w' : World)
    (st : Z) (d : DeviceData) :
  0 ≤ dev → devices_ w !! Z.to_nat dev = Some d →
  iterate_regions drv regions dev w = (Ret st, w') →
  st = HSA_STATUS_SUCCESS ∧
  devices_ w' = <[Z.to_nat dev :=
    with_regions
      (region_for HSA_REGION_GLOBAL_FLAG_KERNARG regions (kernarg_region d))
      (region_for HSA_REGION_GLOBAL_FLAG_FINE_GRAINED regions (finegrained_region d))
      (region_for HSA_REGION_GLOBAL_FLAG_COARSE_GRAINED regions (coarsegrained_region d))
      d]> (devices_ w).
Proof.
  intros Hdev. revert w d.
  induction regions as [|r regions IH]; intros w d Hd H; cbn [iterate_regions] in H.
  - injection H as <- <-. split; [done|]. unfold region_for. cbn [foldl].
    rewrite with_regions_id. by rewrite list_insert_id.
  - apply bind_Ret_inv in H as (st1 & w1 & Hcb & H).
    apply iterate_regions_callback_inv in Hcb as (-> & d0 & _ & Hd0 & Hw1).
    rewrite Hd in Hd0. injection Hd0 as <-.
    destruct (decide _) as [_|Hne]; [|done].
    eapply IH in H.
    2:{ rewrite Hw1. apply list_lookup_insert_eq. by eapply lookup_lt_Some. }
    destruct H as [-> H]. split; [done|].
    rewrite H, Hw1, list_insert_insert_eq. reflexivity.
Qed.

(** ** Teardown *)

Lemma destroy_device_trace drv d w w' :
  destroy_device drv d w = (Ret tt, w') →
  trace w' = trace w
    ++ device_teardown
         (snd <$> drv_map_order drv (length (trace w)) (map_to_list (programs d))) d.
Proof.
  intros H. unfold destroy_device in H.
  rewrite (bind_Ret _ _ _ _ _ (get_eq _)) in H.
  apply bind_Ret_inv in H as ([] & w1 & Hexe & H).
  apply destroy_executables_inv in Hexe.
  apply bind_Ret_inv in H as ([] & w2 & Hqueue & H).
  inv_bind H. inv_prim H.
  unfold device_teardown. cbn [trace set_trace]. destruct (queue d) as [q|].
  - inv_bind Hqueue. inv_prim Hqueue. cbn [trace set_trace].
    rewrite Hexe. rewrite <- !app_assoc. reflexivity.
  - inv_prim Hqueue. rewrite Hexe. rewrite <- !app_assoc. reflexivity.
Qed.

Lemma destroy_devices_trace drv ds :
  (∀ n l, drv_map_order drv n l ≡ₚ l) →
  ∀ w w', destroy_devices drv ds w = (Ret tt, w') →
          ∃ parts, Forall2 tears_down ds parts ∧
                   trace w' = trace w ++ concat parts.
Proof.
  intros Hperm. induction ds as [|d ds IH]; intros w w' H; cbn [destroy_devices] in H.
  - injection H as <-. exists []. split; [constructor|]. cbn. by rewrite app_nil_r.
  - apply bind_Ret_inv in H as ([] & w1 & Hd & H).
    apply destroy_device_trace in Hd. apply IH in H as (parts & Hparts & H).
    eexists (_ :: parts). split.
    + constructor; [|exact Hparts]. eexists. split; [|reflexivity].
      apply fmap_Permutation, Hperm.
    + rewrite H, Hd. cbn. by rewrite <- app_assoc.
Qed.

Lemma emits_destroy_executables drv es :
  emits not_shut_down (destroy_executables drv es).
Proof.
  induction es as [|e es IH]; cbn [destroy_executables]; [apply emits_ret|].
  emits_step; [emits_auto|]. emits_step; [by apply emits_CHECK_HSA | exact IH].
Qed.

Lemma emits_destroy_devices drv ds :
  emits not_shut_down (destroy_devices drv ds).
Proof.
  induction ds as [|d ds IH]; cbn [destroy_devices]; [apply emits_ret|].
  emits_step; [|exact IH]. unfold destroy_device.
  emits_step; [emits_auto|].
  emits_step; [apply emits_destroy_executables|].
  emits_step.
  { destruct (queue d); [|apply emits_ret].
    emits_step; [emits_auto | by apply emits_CHECK_HSA]. }
  emits_step; [emits_auto | by apply emits_CHECK_HSA].
Qed.

(** X7. The destructor, with a program cache that yields each of its
    entries once, in whatever order. When it returns, what it has done is
    exactly: for each device in order, destroy every cached executable once,
    then destroy the queue if there is one, then destroy the signal; and
    after the last device [hsa_shut_down], once. When it does not return,
    [hsa_shut_down] has not been called. *)
Theorem destructor_tears_down_then_shuts_down (drv : Driver) (w : World) :
  (∀ n l, drv_map_order drv n l ≡ₚ l) →
  let r := HSAPlatform_destroy drv w in
  ∃ t, trace (snd r) = trace w ++ t ∧
       match fst r with
       | Ret _ =>
           ∃ parts, Forall2 tears_down (devices_ w) parts ∧
                    t = concat parts ++ [EvHsa hsa_shut_down []]
       | _ => Forall (λ e, is_shut_down e = false) t
       end.
Proof.
  intros Hperm. cbn zeta. unfold HSAPlatform_destroy.
  rewrite (bind_Ret _ _ _ _ _ (get_eq _)), bind_unfold.
  destruct (emits_destroy_devices drv (devices_ w) w) as (t & Ht & HP).
  destruct (destroy_devices drv (devices_ w) w) as [[[]|msg|why] w1] eqn:Hrun;
    cbn [fst snd] in *.
  - apply (destroy_devices_trace drv _ Hperm) in Hrun as (parts & Hparts & Hrun).
    eexists. split; [|exists parts; split; [exact Hparts | reflexivity]].
    unfold hsa_do. rewrite emit_eq. cbn [snd trace set_trace].
    by rewrite Hrun, <- app_assoc.
  - exists t. split; [done|]. eapply Forall_impl; [exact HP|].
    intros e. unfold not_shut_down. by destruct (is_shut_down e).
  - exists t. split; [done|]. eapply Forall_impl; [exact HP|].
    intros e. unfold not_shut_down. by destruct (is_shut_down e).
Qed.

Lemma destructor_tears_down_then_shuts_down_witness :
  ∃ t, trace (snd (HSAPlatform_destroy drv_ok w_loaded)) = trace w_loaded ++ t ∧
       last t = Some (EvHsa hsa_shut_down []).
Proof.
  destruct (destructor_tears_down_then_shuts_down drv_ok w_loaded) as (t & Ht & Hshape).
  - intros n l. apply reverse_Permutation.
  - assert (fst (HSAPlatform_destroy drv_ok w_loaded) = Ret tt) as Hret
      by (vm_compute; reflexivity).
    rewrite Hret in Hshape. destruct Hshape as (parts & _ & ->).
    exists (concat parts ++ [EvHsa hsa_shut_down []]).
    split; [exact Ht | apply last_snoc].
Defined.

(** ** Launch: devices without a queue, the packet, profiling *)

Lemma launch_kernel_no_queue drv dev file name grid block args sizes w d :
  0 ≤ dev → devices_ w !! Z.to_nat dev = Some d → queue d = None →
  launch_kernel drv dev file name grid block args sizes w
  = (Fatal ("The selected HSA device '" +:+ to_string dev +:+
            "' cannot execute kernels"), w).
Proof.
  intros Hdev Hd Hq. unfold launch_kernel.
  erewrite (bind_Ret _ _ _ d); [|by apply device_eq].
  rewrite Hq. reflexivity.
Qed.

(** X8. A device registered from an agent whose maximum queue size is 0 (as a
    32-bit value) cannot launch: [launch_kernel] on it is the fatal error
    "cannot execute kernels" and leaves the world untouched, before the lock,
    the cache or the driver are reached. *)
Theorem device_without_queue_cannot_launch
    (drv : Driver) (ag : Z) (w w' : World) (st : Z)
    (file name : string) (grid block : dim3) (args sizes : list Z) :
  iterate_agents_callback drv ag w = (Ret st, w') →
  wrap32 (a_queue_max_size (drv_agent drv ag)) = 0 →
  let dev := Z.of_nat (length (devices_ w)) in
  launch_kernel drv dev file name grid block args sizes w'
  = (Fatal ("The selected HSA device '" +:+ to_string dev +:+
            "' cannot execute kernels"), w').
Proof.
  intros Hcb Hzero dev.
  apply iterate_agents_callback_inv in Hcb
    as (t & d & _ & _ & _ & Hcores & _ & _ & Hqueue).
  cbn zeta in Hqueue.
  assert (queue d = None) as Hnone.
  { destruct (queue d) as [q|]; [|done]. destruct Hqueue as [Hpos _]. lia. }
  assert (cores w' !! length (devices_ w) = Some (device_core d)) as Hcore.
  { rewrite Hcores. unfold cores at 1.
    rewrite <- (length_fmap device_core (devices_ w)). by apply list_lookup_middle. }
  unfold cores in Hcore. rewrite list_lookup_fmap in Hcore.
  destruct (devices_ w' !! length (devices_ w)) as [d'|] eqn:Hd'; [|discriminate].
  cbn in Hcore. injection Hcore as _ Hq' _.
  apply (launch_kernel_no_queue _ _ _ _ _ _ _ _ _ d'); [lia | | congruence].
  unfold dev. by rewrite Nat2Z.id.
Qed.

Lemma device_without_queue_cannot_launch_witness :
  fst (launch_kernel drv_ok 0 "k.gcn" "main" (256, 1, 1) (64, 1, 1) [] []
         (snd (iterate_agents_callback drv_ok 8 w_boot)))
  = Fatal ("The selected HSA device '" +:+ to_string 0 +:+ "' cannot execute kernels").
Proof.
  assert (iterate_agents_callback drv_ok 8 w_boot
          = (Ret HSA_STATUS_SUCCESS, snd (iterate_agents_callback drv_ok 8 w_boot)))
    as Hrun by (vm_compute; reflexivity).
  exact (f_equal fst
           (device_without_queue_cannot_launch drv_ok 8 w_boot _ _
              "k.gcn" "main" (256, 1, 1) (64, 1, 1) [] [] Hrun eq_refl)).
Defined.

Lemma dispatch_packet
    (drv : Driver) (dev hq : Z) (k : kernel_info) (kernarg : Z) (grid block : dim3)
    (w : World) (d : DeviceData) (qd : hsa_queue_t) (n : Z) :
  0 ≤ dev → devices_ w !! Z.to_nat dev = Some d →
  queues w !! hq = Some qd →
  q_size qd = 2 ^ n → 0 ≤ n < 32 →
  (∀ i, drv_status drv i hsa_signal_create = HSA_STATUS_SUCCESS) →
  let completion := if profiling_enabled w then next_handle w else signal d in
  let aql := launch_packet k kernarg grid block completion in
  let slot := q_write_index qd mod q_size qd in
  ∃ tail w',
    dispatch drv dev hq k kernarg grid block w = (Ret tt, w') ∧
    trace w' = trace w ++ EvHsa hsa_signal_add_relaxed [signal d; 1] :: tail ∧
    EvPacketWrite hq slot aql ∈ tail ∧
    (q_ring <$> queues w' !! hq) = Some (<[slot := aql]> (q_ring qd)) ∧
    (profiling_enabled w = true → EvHsa hsa_signal_create [1; 0] ∈ tail).
Proof.
  intros Hdev Hd Hq Hsize Hn Hcreate.
  destruct k as [[[kernel ks] gs] ps], grid as [[g0 g1] g2], block as [[b0 b1] b2].
  cbn zeta. unfold dispatch. do 3 mstep.
  cbn [profiling_enabled set_signals set_trace].
  destruct (profiling_enabled w) eqn:Hprof.
  - erewrite (bind_Ret _ _ _ (next_handle _)).
    2:{ mstep. cbn [fst snd]. mstep. reflexivity. }
    do 6 mstep.
    cbn [profiling_enabled set_signals set_trace set_queues set_next_handle].
    rewrite Hprof, emit_eq.
    rewrite Hsize, (queue_mask_slot _ n Hn).
    eexists [_; _; _; _; _; _], _. split; [reflexivity|].
    cbn [trace devices_ queues signals set_signals set_trace set_queues set_next_handle
         next_handle].
    split; [|split; [|split]].
    + rewrite <- !app_assoc. reflexivity.
    + do 2 apply list_elem_of_further. apply list_elem_of_here.
    + rewrite !lookup_alter_eq, Hq. reflexivity.
    + intros _. apply list_elem_of_here.
  - mstep. do 6 mstep.
    cbn [profiling_enabled set_signals set_trace set_queues set_next_handle].
    rewrite Hprof, ret_eq.
    rewrite Hsize, (queue_mask_slot _ n Hn).
    eexists [_; _; _; _], _. split; [reflexivity|].
    cbn [trace devices_ queues signals set_signals set_trace set_queues set_next_handle
         next_handle].
    split; [|split; [|split]].
    + rewrite <- !app_assoc. reflexivity.
    + apply list_elem_of_further. apply list_elem_of_here.
    + rewrite !lookup_alter_eq, Hq. reflexivity.
    + intros H; discriminate H.
Qed.

(** X9. The dispatch packet. With a queue whose size is a power of two, the
    submission returns and writes, at slot [write_index mod size], a packet
    with header 5122 (kernel dispatch, system-scope acquire and release
    fences), 3 dimensions, the block sizes truncated to 16 bits, the grid
    sizes, the kernel's object and segment sizes, the kernarg address, and as
    completion signal the device signal, or with profiling a signal created for
    this launch with initial value 1. *)
Theorem dispatch_packet_fields
    (drv : Driver) (dev hq : Z) (k : kernel_info) (kernarg : Z) (grid block : dim3)
    (w : World) (d : DeviceData) (qd : hsa_queue_t) (n : Z) :
  0 ≤ dev → devices_ w !! Z.to_nat dev = Some d →
  queues w !! hq = Some qd →
  q_size qd = 2 ^ n → 0 ≤ n < 32 →
  (∀ i, drv_status drv i hsa_signal_create = HSA_STATUS_SUCCESS) →
  let completion := if profiling_enabled w then next_handle w else signal d in
  let aql := launch_packet k kernarg grid block completion in
  let slot := q_write_index qd mod q_size qd in
  ∃ w',
    dispatch drv dev hq k kernarg grid block w = (Ret tt, w') ∧
    EvPacketWrite hq slot aql ∈ trace w' ∧
    (q_ring <$> queues w' !! hq) = Some (<[slot := aql]> (q_ring qd)) ∧
    (profiling_enabled w = true → EvHsa hsa_signal_create [1; 0] ∈ trace w').
Proof.
  intros Hdev Hd Hq Hsize Hn Hcreate completion aql slot.
  destruct (dispatch_packet drv dev hq k kernarg grid block w d qd n)
    as (tail & w' & Hrun & Htr & Hin & Hring & Hprof); [done..|].
  exists w'. split; [done|]. rewrite Htr.
  split; [|split; [done|]].
  - apply elem_of_app. right. by apply list_elem_of_further.
  - intros H. apply elem_of_app. right. apply list_elem_of_further. by apply Hprof.
Qed.

Lemma dispatch_packet_fields_witness :
  ∃ w',
    dispatch drv_ok 0 1 (24576, 40, 0, 0) 9000 (256, 1, 1) (65600, 1, 1) w_ready
    = (Ret tt, w') ∧
    EvPacketWrite 1 0
      {| header := 5122; setup := 3;
         workgroup_size_x := 64; workgroup_size_y := 1; workgroup_size_z := 1;
         grid_size_x := 256; grid_size_y := 1; grid_size_z := 1;
         private_segment_size := 0; group_segment_size := 0;
         kernel_object := 24576; kernarg_address := 9000;
         completion_signal := 3 |} ∈ trace w'.
Proof.
  edestruct (dispatch_packet_fields drv_ok 0 1 (24576, 40, 0, 0) 9000 (256, 1, 1)
               (65600, 1, 1) w_ready) with (n := 3) as (w' & Hrun & Hin & _).
  - lia.
  - vm_compute. reflexivity.
  - vm_compute. reflexivity.
  - reflexivity.
  - lia.
  - intros i. reflexivity.
  - exists w'. split; [exact Hrun | exact Hin].
Defined.

(** X10. A profiled launch. The submission raises the device signal by one and
    ends by starting the profiling thread on the launch signal; that thread,
    once it has run, has lowered the device signal back to its value before
    the launch and ends by destroying the launch signal. *)
Theorem profiled_launch_signal_balance
    (drv : Driver) (dev hq : Z) (k : kernel_info) (kernarg : Z) (grid block : dim3)
    (w : World) (d : DeviceData) (qd : hsa_queue_t) (n : Z) :
  0 ≤ dev → devices_ w !! Z.to_nat dev = Some d →
  queues w !! hq = Some qd →
  q_size qd = 2 ^ n → 0 ≤ n < 32 →
  profiling_enabled w = true →
  (∀ i api, drv_status drv i api = HSA_STATUS_SUCCESS) →
  signal d ≠ next_handle w → signal d ≠ q_doorbell_signal qd →
  - 2 ^ 63 ≤ signal_value w (signal d) < 2 ^ 63 - 1 →
  let launch_signal := next_handle w in
  ∃ w1 w2,
    dispatch drv dev hq k kernarg grid block w = (Ret tt, w1) ∧
    last (trace w1) = Some (EvDetach launch_signal (signal d) dev) ∧
    signal_value w1 (signal d) = signal_value w (signal d) + 1 ∧
    profiling_unit drv dev launch_signal (signal d) w1 = (Ret tt, w2) ∧
    signal_value w2 (signal d) = signal_value w (signal d) ∧
    last (trace w2) = Some (EvHsa hsa_signal_destroy [launch_signal]).
Proof.
  intros Hdev Hd Hq Hsize Hn Hprof Hok Hfresh Hbell Hrange.
  destruct k as [[[kernel ks] gs] ps], grid as [[g0 g1] g2], block as [[b0 b1] b2].
  cbn zeta. unfold dispatch. do 3 mstep.
  cbn [profiling_enabled set_signals set_trace]. rewrite Hprof.
  erewrite (bind_Ret _ _ _ (next_handle _)).
  2:{ mstep. cbn [fst snd]. mstep. reflexivity. }
  do 6 mstep.
  cbn [profiling_enabled set_signals set_trace set_queues set_next_handle].
  rewrite Hprof, emit_eq.
  match goal with |- ∃ w1 w2, (_, ?x) = _ ∧ _ => set (w1 := x) end.
  assert (signal_value w1 (signal d) = signal_value w (signal d) + 1) as Hv1.
  { unfold signal_value at 1. unfold w1.
    cbn [signals set_signals set_trace set_queues set_next_handle].
    rewrite lookup_insert_ne by done. rewrite lookup_insert_ne by done.
    rewrite lookup_insert_eq. cbn. apply wrap_s64_small. lia. }
  assert (devices_ w1 !! Z.to_nat dev = Some d) as Hd1 by exact Hd.
  exists w1. unfold profiling_unit.
  hstep.
  match goal with
  | |- context [bind (if decide ?c then _ else _) _ ?x] =>
      assert (∃ w', (if decide c then ret tt
                     else debug "HSA launch_signal completion failed") x = (Ret tt, w') ∧
                    devices_ w' = devices_ w1 ∧ signals w' = signals w1)
        as (w1' & Hlog & Hd1' & Hs1')
  end.
  { destruct (decide _); eexists; (split; [first [apply ret_eq | apply emit_eq]|]); done. }
  rewrite (bind_Ret _ _ _ _ _ Hlog).
  rewrite <- Hd1' in Hd1.
  erewrite (bind_Ret _ _ _ d); [|by apply device_eq].
  hstep. rewrite Hok. mstep.
  destruct (drv_dispatch_time drv (next_handle w)) as [t_start t_end].
  unfold info. mstep. hstep. hstep. rewrite Hok, CHECK_HSA_success.
  eexists. split; [reflexivity|]. split.
  { unfold w1. cbn [trace set_trace set_signals set_queues set_next_handle].
    by rewrite last_snoc. }
  split; [exact Hv1|]. split; [reflexivity|]. split.
  - unfold signal_value at 1.
    cbn [signals set_signals set_trace]. rewrite lookup_insert_eq. cbn.
    unfold signal_value at 1. cbn [signals set_trace]. rewrite Hs1'.
    fold (signal_value w1 (signal d)). rewrite Hv1. rewrite wrap_s64_small; lia.
  - cbn [trace set_trace set_signals]. by rewrite last_snoc.
Qed.

Lemma profiled_launch_signal_balance_witness :
  ∃ w1 w2,
    dispatch drv_ok 0 1 (24576, 40, 0, 0) 9000 (256, 1, 1) (64, 1, 1) w_profiled
    = (Ret tt, w1) ∧
    signal_value w1 3 = 1 ∧
    profiling_unit drv_ok 0 (next_handle w_profiled) 3 w1 = (Ret tt, w2) ∧
    signal_value w2 3 = 0.
Proof.
  edestruct (profiled_launch_signal_balance drv_ok 0 1 (24576, 40, 0, 0) 9000
               (256, 1, 1) (64, 1, 1) w_profiled) with (n := 3)
    as (w1 & w2 & Hrun & _ & Hv1 & Hunit & Hv2 & _).
  - lia.
  - vm_compute. reflexivity.
  - vm_compute. reflexivity.
  - reflexivity.
  - lia.
  - reflexivity.
  - intros i api. reflexivity.
  - vm_compute. discriminate.
  - vm_compute. discriminate.
  - vm_compute. split; [discriminate | reflexivity].
  - exists w1, w2. split; [exact Hrun|]. split; [exact Hv1|]. split; [exact Hunit|].
    exact Hv2.
Defined.

(** ** The GCN pipeline *)

Lemma parse_ir_file_ok drv path msg w :
  llvm_file_ok drv path = true →
  parse_ir_file drv path msg w
  = (Ret tt, set_trace (trace w ++ [EvLlvm (parseIRFile path)]) w).
Proof.
  intros H. unfold parse_ir_file, llvm.
  rewrite (bind_Ret _ _ _ _ _ (emit_eq _ _)), H. reflexivity.
Qed.

Lemma link_in_ok drv what msg w :
  llvm_link_fails drv what = false →
  link_in drv what msg w
  = (Ret tt, set_trace (trace w ++ [EvLlvm (linkInModule what)]) w).
Proof.
  intros H. unfold link_in, llvm.
  rewrite (bind_Ret _ _ _ _ _ (emit_eq _ _)), H. reflexivity.
Qed.

Lemma store_file_ok drv filename str w :
  fs_writable drv filename = true →
  store_file drv filename str w
  = (Ret tt, set_fs (<[filename := str]> (fs w))
               (set_trace (trace w ++ [EvStoreFile filename]) w)).
Proof.
  intros H. unfold store_file.
  rewrite (bind_Ret _ _ _ _ _ (emit_eq _ _)), H. reflexivity.
Qed.

Lemma set_trace_id w : set_trace (trace w) w = w.
Proof. by destruct w. Qed.

Lemma bind_emit_at {B} e (k : unit → M B) t w :
  bind (emit e) k (set_trace t w) = k tt (set_trace (t ++ [e]) w).
Proof. reflexivity. Qed.

Lemma bind_ret_at {A B} (a : A) (k : A → M B) w : bind (ret a) k w = k a w.
Proof. reflexivity. Qed.

Lemma bind_parse_ir_file_at {B} drv path msg (k : unit → M B) t w :
  llvm_file_ok drv path = true →
  bind (parse_ir_file drv path msg) k (set_trace t w)
  = k tt (set_trace (t ++ [EvLlvm (parseIRFile path)]) w).
Proof. intros H. by rewrite (bind_Ret _ _ _ _ _ (parse_ir_file_ok _ _ _ _ H)). Qed.

Lemma bind_link_in_at {B} drv what msg (k : unit → M B) t w :
  llvm_link_fails drv what = false →
  bind (link_in drv what msg) k (set_trace t w)
  = k tt (set_trace (t ++ [EvLlvm (linkInModule what)]) w).
Proof. intros H. by rewrite (bind_Ret _ _ _ _ _ (link_in_ok _ _ _ _ H)). Qed.

Lemma emit_gcn_accepted_at drv program cpu filename opt w n gcn t :
  compare_prefix_eq cpu 3 "gfx" = true →
  stoi (substr 3 cpu) = Some n →
  llvm_parse_ok drv program = true →
  llvm_target_ok drv (llvm_triple drv program) = true →
  llvm_file_ok drv "/opt/rocm/lib/ocml.amdgcn.bc" = true →
  llvm_file_ok drv "/opt/rocm/lib/irif.amdgcn.bc" = true →
  llvm_parse_ok drv (get_ocml_config n) = true →
  (∀ what, llvm_link_fails drv what = false) →
  fs_writable drv (filename +:+ ".obj") = true →
  ld_lld drv (llvm_codegen drv program cpu) = Some gcn →
  emit_gcn drv program cpu filename opt (set_trace t w)
  = (Ret (default gcn (files_ w !! (filename +:+ ".gcn"))),
     set_fs (<[filename +:+ ".gcn" := gcn]>
               (<[filename +:+ ".obj" := llvm_codegen drv program cpu]> (fs w)))
       (set_trace (t ++ gcn_pipeline drv program cpu filename opt n) w)).
Proof.
  intros Hcpu Hstoi Hparse Htarget Hocml Hirif Hconfig Hlink Hwr Hlld.
  unfold emit_gcn, llvm. cbv zeta.
  rewrite !bind_emit_at, Hparse, bind_ret_at.
  rewrite !bind_emit_at, Htarget, bind_ret_at.
  rewrite !bind_emit_at, Hcpu, bind_ret_at, Hstoi, bind_ret_at.
  rewrite !bind_parse_ir_file_at by done.
  rewrite !bind_emit_at, Hconfig, bind_ret_at.
  rewrite !bind_emit_at.
  rewrite !bind_link_in_at by done.
  rewrite !bind_emit_at.
  rewrite (bind_Ret _ _ _ _ _ (store_file_ok _ _ _ _ Hwr)).
  rewrite (bind_Ret _ _ _ _ _ (emit_eq _ _)).
  rewrite Hlld. rewrite (bind_Ret _ _ _ _ _ (modify_eq _ _)).
  rewrite load_file_eq.
  cbn [files_ fs set_fs set_trace trace].
  destruct (files_ w !! (filename +:+ ".gcn")) as [text|] eqn:Hreg.
  - cbn [default from_option id]. f_equal.
    unfold set_fs, set_trace.
    cbn [devices_ files_ frequency_ profiling_enabled fs mem signals queues
         next_handle trace].
    f_equal. unfold gcn_pipeline. rewrite <- !app_assoc. reflexivity.
  - rewrite lookup_insert_eq. cbn [default from_option id]. f_equal.
    unfold set_fs, set_trace.
    cbn [devices_ files_ frequency_ profiling_enabled fs mem signals queues
         next_handle trace].
    f_equal. unfold gcn_pipeline. rewrite <- !app_assoc. reflexivity.
Qed.

Lemma emit_gcn_accepted drv program cpu filename opt w n gcn :
  compare_prefix_eq cpu 3 "gfx" = true →
  stoi (substr 3 cpu) = Some n →
  llvm_parse_ok drv program = true →
  llvm_target_ok drv (llvm_triple drv program) = true →
  llvm_file_ok drv "/opt/rocm/lib/ocml.amdgcn.bc" = true →
  llvm_file_ok drv "/opt/rocm/lib/irif.amdgcn.bc" = true →
  llvm_parse_ok drv (get_ocml_config n) = true →
  (∀ what, llvm_link_fails drv what = false) →
  fs_writable drv (filename +:+ ".obj") = true →
  ld_lld drv (llvm_codegen drv program cpu) = Some gcn →
  emit_gcn drv program cpu filename opt w
  = (Ret (default gcn (files_ w !! (filename +:+ ".gcn"))),
     set_fs (<[filename +:+ ".gcn" := gcn]>
               (<[filename +:+ ".obj" := llvm_codegen drv program cpu]> (fs w)))
       (set_trace (trace w ++ gcn_pipeline drv program cpu filename opt n) w)).
Proof.
  intros. rewrite <- (set_trace_id w) at 1. by apply emit_gcn_accepted_at.
Qed.

Lemma compile_gcn_accepted drv dev program filename w d n gcn :
  0 ≤ dev → devices_ w !! Z.to_nat dev = Some d →
  compare_prefix_eq (isa d) 3 "gfx" = true →
  stoi (substr 3 (isa d)) = Some n →
  llvm_parse_ok drv program = true →
  llvm_target_ok drv (llvm_triple drv program) = true →
  llvm_file_ok drv "/opt/rocm/lib/ocml.amdgcn.bc" = true →
  llvm_file_ok drv "/opt/rocm/lib/irif.amdgcn.bc" = true →
  llvm_parse_ok drv (get_ocml_config n) = true →
  (∀ what, llvm_link_fails drv what = false) →
  fs_writable drv (filename +:+ ".obj") = true →
  ld_lld drv (llvm_codegen drv program (isa d)) = Some gcn →
  compile_gcn drv dev filename program w
  = (Ret (default gcn (files_ w !! (filename +:+ ".gcn"))),
     set_fs (<[filename +:+ ".gcn" := gcn]>
               (<[filename +:+ ".obj" := llvm_codegen drv program (isa d)]> (fs w)))
       (set_trace
          (trace w
           ++ EvDebug ("Compiling AMDGPU to GCN using amdgpu for '" +:+ filename +:+
                       "' on HSA device " +:+ to_string dev)
           :: gcn_pipeline drv program (isa d) filename 3 n) w)).
Proof.
  intros Hdev Hd Hcpu Hstoi Hparse Htarget Hocml Hirif Hconfig Hlink Hwr Hlld.
  unfold compile_gcn, debug.
  rewrite (bind_Ret _ _ _ _ _ (emit_eq _ _)).
  erewrite (bind_Ret _ _ _ d); [|by apply device_eq].
  rewrite (emit_gcn_accepted_at drv program (isa d) filename 3 w n gcn) by done.
  f_equal. f_equal. f_equal. by rewrite <- app_assoc.
Qed.

(** X11. [emit_gcn] when every stage succeeds, for a processor name [gfx]
    followed by a decimal number that fits [int]. The stages run in source
    order (parse, target lookup, the two bitcode libraries, the configuration
    module, three links, code generation, store, [ld.lld], reload), the object
    file and the linked file are on disk, and the result is the text
    [load_file] finds for the linked file: a text registered under that name
    takes precedence over the linker's output. [compile_gcn] is this with the
    device's ISA name and optimisation level 3, after one debug line. *)
Theorem emit_gcn_returns_linked_object
    (drv : Driver) (program filename : string) (opt : Z) (w : World)
    (ds : list Z) (tail gcn : string) :
  ds ≠ [] → Forall (λ d, 0 ≤ d ≤ 9) ds → starts_with_digit tail = false →
  digits_value ds ≤ INT_MAX →
  let cpu := "gfx" +:+ digit_string ds +:+ tail in
  let obj := llvm_codegen drv program cpu in
  llvm_parse_ok drv program = true →
  llvm_target_ok drv (llvm_triple drv program) = true →
  llvm_file_ok drv "/opt/rocm/lib/ocml.amdgcn.bc" = true →
  llvm_file_ok drv "/opt/rocm/lib/irif.amdgcn.bc" = true →
  llvm_parse_ok drv (get_ocml_config (digits_value ds)) = true →
  (∀ what, llvm_link_fails drv what = false) →
  fs_writable drv (filename +:+ ".obj") = true →
  ld_lld drv obj = Some gcn →
  let result := default gcn (files_ w !! (filename +:+ ".gcn")) in
  let fs' := <[filename +:+ ".gcn" := gcn]> (<[filename +:+ ".obj" := obj]> (fs w)) in
  emit_gcn drv program cpu filename opt w
  = (Ret result,
     set_fs fs' (set_trace
       (trace w ++ gcn_pipeline drv program cpu filename opt (digits_value ds)) w)) ∧
  (∀ dev d,
     0 ≤ dev → devices_ w !! Z.to_nat dev = Some d → isa d = cpu →
     compile_gcn drv dev filename program w
     = (Ret result,
        set_fs fs' (set_trace
          (trace w
           ++ EvDebug ("Compiling AMDGPU to GCN using amdgpu for '" +:+ filename +:+
                       "' on HSA device " +:+ to_string dev)
           :: gcn_pipeline drv program cpu filename 3 (digits_value ds)) w))).
Proof.
  intros Hne Hds Htail Hmax cpu obj Hparse Htarget Hocml Hirif Hconfig Hlink Hwr Hlld
    result fs'.
  assert (compare_prefix_eq cpu 3 "gfx" = true) as Hcpu.
  { apply compare_prefix_gfx. by eexists. }
  assert (stoi (substr 3 cpu) = Some (digits_value ds)) as Hstoi.
  { unfold cpu. rewrite substr_gfx. by apply stoi_numeral. }
  split.
  - by apply emit_gcn_accepted.
  - intros dev d Hdev Hd Hisa.
    pose proof (compile_gcn_accepted drv dev program filename w d (digits_value ds) gcn
                  Hdev Hd) as H.
    rewrite Hisa in H. by apply H.
Qed.

Lemma emit_gcn_returns_linked_object_witness :
  fst (emit_gcn drv_ok "ir" "gfx803" "k.amdgpu" 3 w_boot) = Ret "ir".
Proof.
  exact (f_equal fst
           (proj1 (emit_gcn_returns_linked_object drv_ok "ir" "k.amdgpu" 3 w_boot
                     [8; 0; 3] "" "ir"
                     ltac:(discriminate) ltac:(repeat constructor; lia) eq_refl
                     ltac:(vm_compute; discriminate)
                     eq_refl eq_refl eq_refl eq_refl eq_refl (λ _, eq_refl)
                     eq_refl eq_refl))).
Defined.

Section AddsOnlyIf.

Context (P : event → bool) (C : Prop).

Lemma adds_stop {A} (m : M A) w : snd (m w) = w → adds_only_if P C m w.
Proof. intros H. exists []. rewrite H, app_nil_r. split; [done | intros H'; discriminate H']. Qed.

Lemma adds_emit {B} e (k : unit → M B) w :
  P e = false →
  adds_only_if P C (k tt) (set_trace (trace w ++ [e]) w) →
  adds_only_if P C (bind (emit e) k) w.
Proof.
  intros He (t & Ht & HC). exists (e :: t).
  rewrite (bind_Ret _ _ _ _ _ (emit_eq _ _)), Ht. cbn [trace set_trace].
  rewrite <- app_assoc. split; [done|]. cbn [existsb]. by rewrite He.
Qed.

Lemma adds_guard {B} (c : bool) (stop : M unit) (k : unit → M B) w :
  (∀ w0, is_Ret (fst (stop w0)) = false ∧ snd (stop w0) = w0) →
  (c = true → adds_only_if P C (k tt) w) →
  adds_only_if P C (bind (if c then ret tt else stop) k) w.
Proof.
  intros Hstop Hk. destruct c.
  - unfold adds_only_if in *. rewrite bind_ret_at. by apply Hk.
  - apply adds_stop. rewrite bind_unfold. destruct (Hstop w) as [Hr Hw].
    destruct (stop w) as [[u|msg|why] w1]; cbn in *; done.
Qed.

Lemma adds_guard_not {B} (c : bool) (stop : M unit) (k : unit → M B) w :
  (∀ w0, is_Ret (fst (stop w0)) = false ∧ snd (stop w0) = w0) →
  (c = false → adds_only_if P C (k tt) w) →
  adds_only_if P C (bind (if c then stop else ret tt) k) w.
Proof.
  intros Hstop Hk. destruct c.
  - apply adds_stop. rewrite bind_unfold. destruct (Hstop w) as [Hr Hw].
    destruct (stop w) as [[u|msg|why] w1]; cbn in *; done.
  - unfold adds_only_if in *. rewrite bind_ret_at. by apply Hk.
Qed.

Lemma adds_done {A} (m : M A) w Q : C → emits Q m → adds_only_if P C m w.
Proof. intros HC Hm. destruct (Hm w) as (t & Ht & _). exists t. done. Qed.

Lemma adds_ret {A B} (a : A) (k : A → M B) w :
  adds_only_if P C (k a) w → adds_only_if P C (bind (ret a) k) w.
Proof. intros H. unfold adds_only_if in *. by rewrite bind_ret_at. Qed.

Lemma adds_parse_ir_file {B} drv path msg (k : unit → M B) w :
  P (EvLlvm (parseIRFile path)) = false →
  (llvm_file_ok drv path = true →
   adds_only_if P C (k tt) (set_trace (trace w ++ [EvLlvm (parseIRFile path)]) w)) →
  adds_only_if P C (bind (parse_ir_file drv path msg) k) w.
Proof.
  intros He Hk. destruct (llvm_file_ok drv path) eqn:Hok.
  - destruct (Hk eq_refl) as (t & Ht & HC). exists (EvLlvm (parseIRFile path) :: t).
    rewrite (bind_Ret _ _ _ _ _ (parse_ir_file_ok _ _ _ _ Hok)), Ht.
    cbn [trace set_trace]. rewrite <- app_assoc. split; [done|].
    cbn [existsb]. by rewrite He.
  - exists [EvLlvm (parseIRFile path)]. unfold parse_ir_file, llvm.
    rewrite bind_unfold, (bind_Ret _ _ _ _ _ (emit_eq _ _)), Hok. cbn [existsb].
    rewrite He. split; [done | intros H; discriminate H].
Qed.

Lemma adds_link_in {B} drv what msg (k : unit → M B) w :
  P (EvLlvm (linkInModule what)) = false →
  (llvm_link_fails drv what = false →
   adds_only_if P C (k tt) (set_trace (trace w ++ [EvLlvm (linkInModule what)]) w)) →
  adds_only_if P C (bind (link_in drv what msg) k) w.
Proof.
  intros He Hk. destruct (llvm_link_fails drv what) eqn:Hok.
  - exists [EvLlvm (linkInModule what)]. unfold link_in, llvm.
    rewrite bind_unfold, (bind_Ret _ _ _ _ _ (emit_eq _ _)), Hok. cbn [existsb].
    rewrite He. split; [done | intros H; discriminate H].
  - destruct (Hk eq_refl) as (t & Ht & HC). exists (EvLlvm (linkInModule what) :: t).
    rewrite (bind_Ret _ _ _ _ _ (link_in_ok _ _ _ _ Hok)), Ht.
    cbn [trace set_trace]. rewrite <- app_assoc. split; [done|].
    cbn [existsb]. by rewrite He.
Qed.

End AddsOnlyIf.

Lemma stop_error msg w0 :
  is_Ret (fst (error (A:=unit) msg w0)) = false ∧ snd (error (A:=unit) msg w0) = w0.
Proof. done. Qed.

Lemma stop_undefined why w0 :
  is_Ret (fst (undefined (A:=unit) why w0)) = false ∧ snd (undefined (A:=unit) why w0) = w0.
Proof. done. Qed.

(** X12. [emit_gcn] writes the object file or runs the linker only after every
    earlier stage has passed: the program parsed, the target was found, the
    processor name starts with [gfx] and continues with a number, both bitcode
    libraries and the configuration module parsed, and all three links
    succeeded. A failure at any of them leaves the disk untouched. *)
Theorem emit_gcn_writes_nothing_after_a_failure
    (drv : Driver) (program cpu filename : string) (opt : Z) (w : World) :
  ∃ t,
    trace (snd (emit_gcn drv program cpu filename opt w)) = trace w ++ t ∧
    (existsb is_store_or_system t = true →
     llvm_parse_ok drv program = true ∧
     llvm_target_ok drv (llvm_triple drv program) = true ∧
     compare_prefix_eq cpu 3 "gfx" = true ∧
     (∃ n, stoi (substr 3 cpu) = Some n ∧
           llvm_parse_ok drv (get_ocml_config n) = true) ∧
     llvm_file_ok drv "/opt/rocm/lib/ocml.amdgcn.bc" = true ∧
     llvm_file_ok drv "/opt/rocm/lib/irif.amdgcn.bc" = true ∧
     llvm_link_fails drv "config" = false ∧
     llvm_link_fails drv "ocml" = false ∧
     llvm_link_fails drv "irif" = false).
Proof.
  match goal with |- ∃ t, _ ∧ (_ → ?G) => set (C := G) end.
  change (adds_only_if is_store_or_system C (emit_gcn drv program cpu filename opt) w).
  unfold emit_gcn, llvm. cbv zeta.
  do 2 (apply adds_emit; [reflexivity|]).
  apply adds_guard; [apply stop_undefined|]. intros Hparse.
  apply adds_emit; [reflexivity|].
  apply adds_guard; [apply stop_undefined|]. intros Htarget.
  apply adds_emit; [reflexivity|].
  apply adds_guard; [apply stop_error|]. intros Hcpu.
  destruct (stoi (substr 3 cpu)) as [n|] eqn:Hstoi.
  2:{ apply adds_stop. reflexivity. }
  apply adds_ret.
  apply adds_parse_ir_file; [reflexivity|]. intros Hocml.
  apply adds_parse_ir_file; [reflexivity|]. intros Hirif.
  apply adds_emit; [reflexivity|].
  apply adds_guard; [apply stop_error|]. intros Hconfig.
  do 4 (apply adds_emit; [reflexivity|]).
  apply adds_link_in; [reflexivity|]. intros Hl1.
  apply adds_link_in; [reflexivity|]. intros Hl2.
  apply adds_link_in; [reflexivity|]. intros Hl3.
  apply (adds_done _ _ _ _ (λ _, true)); [|emits_auto].
  unfold C. eauto 12.
Qed.

(** ** [load_kernel]: a cold start *)

Lemma bind_hsa_call_ok {B} drv api args (k : Z → M B) w :
  (∀ i a, drv_status drv i a = HSA_STATUS_SUCCESS) →
  bind (hsa_call drv api args) k w
  = k HSA_STATUS_SUCCESS (set_trace (trace w ++ [EvHsa api args]) w).
Proof. intros H. rewrite (bind_Ret _ _ _ _ _ (hsa_call_eq _ _ _ _)). by rewrite H. Qed.

Lemma bind_hsa_query_ok {B} drv api h what (k : Z → M B) w :
  (∀ i a, drv_status drv i a = HSA_STATUS_SUCCESS) →
  bind (hsa_query drv api h what) k w
  = k HSA_STATUS_SUCCESS (set_trace (trace w ++ [EvQuery api h what]) w).
Proof. intros H. rewrite (bind_Ret _ _ _ _ _ (hsa_query_eq _ _ _ _ _)). by rewrite H. Qed.

Lemma bind_CHECK_HSA_ok {B} drv name (k : unit → M B) w :
  bind (CHECK_HSA drv HSA_STATUS_SUCCESS name) k w = k tt w.
Proof. reflexivity. Qed.

Lemma bind_emit {B} e (k : unit → M B) w :
  bind (emit e) k w = k tt (set_trace (trace w ++ [e]) w).
Proof. reflexivity. Qed.

Lemma bind_fresh {B} (k : Z → M B) w :
  bind fresh k w = k (next_handle w) (set_next_handle (next_handle w + 1) w).
Proof. reflexivity. Qed.

Lemma bind_get {B} (k : World → M B) w : bind get k w = k w w.
Proof. reflexivity. Qed.

Lemma bind_update_device {B} dev f (k : unit → M B) w :
  bind (update_device dev f) k w
  = k tt (set_devices (alter f (Z.to_nat dev) (devices_ w)) w).
Proof. reflexivity. Qed.

Ltac world_norm :=
  cbn [trace devices_ files_ frequency_ profiling_enabled fs mem signals queues
       next_handle set_trace set_next_handle set_devices set_signals set_queues
       set_mem set_files set_fs].

Lemma lk_compile_ok drv dev filename w d ext gcn wg :
  0 ≤ dev → devices_ w !! Z.to_nat dev = Some d →
  (∀ i api, drv_status drv i api = HSA_STATUS_SUCCESS) →
  match rfind "." filename with
  | Some ext_pos => substr (ext_pos + 1) filename
  | None => ""
  end = ext →
  is_Some (fs w !! filename) ∨ is_Some (files_ w !! filename) →
  (ext = "gcn" ∧ load_file filename w = (Ret gcn, wg)) ∨
  (ext = "amdgpu" ∧
   (text <- load_file filename ;; compile_gcn drv dev filename text) w = (Ret gcn, wg)) →
  let reader := next_handle wg in
  let executable := next_handle wg + 1 in
  ∃ w',
    lk_compile drv dev filename w = (Ret executable, w') ∧
    trace w' = trace wg
      ++ [EvHsa hsa_code_object_reader_create_from_memory [Z.of_nat (String.length gcn)];
          EvDebug ("Compiling '" +:+ filename +:+ "' on HSA device " +:+ to_string dev);
          EvHsa hsa_executable_create_alt [HSA_PROFILE_FULL; float_mode d];
          EvHsa hsa_executable_load_agent_code_object [executable; agent d; reader];
          EvHsa hsa_executable_freeze [executable];
          EvHsa hsa_code_object_reader_destroy [reader];
          EvHsa hsa_executable_validate [executable]]
      ++ (if decide (drv_validate drv executable = 0) then []
          else [EvDebug "HSA executable validation failed"]) ∧
    devices_ w' = devices_ wg ∧ fs w' = fs wg ∧ files_ w' = files_ wg ∧
    next_handle w' = next_handle wg + 2.
Proof.
  intros Hdev Hd Hok Hext Hfound Hsource reader executable.
  unfold lk_compile.
  erewrite (bind_Ret _ _ _ d); [|by apply device_eq].
  rewrite Hext.
  assert (bool_decide (ext ≠ "gcn") && bool_decide (ext ≠ "amdgpu") = false) as ->.
  { destruct Hsource as [[-> _] | [-> _]]; reflexivity. }
  rewrite bind_ret_at, bind_get.
  assert (bool_decide (is_Some (fs w !! filename))
          || bool_decide (is_Some (files_ w !! filename)) = true) as ->.
  { destruct Hfound as [H|H]; rewrite (bool_decide_true _ H); [done | apply orb_true_r]. }
  rewrite !andb_true_r.
  erewrite (bind_Ret _ _ _ gcn wg).
  2:{ destruct Hsource as [[-> H] | [-> H]]; cbn [bool_decide decide_rel]; exact H. }
  rewrite bind_hsa_call_ok, bind_CHECK_HSA_ok by done. world_norm.
  rewrite bind_fresh. world_norm.
  unfold debug at 1. rewrite bind_emit. world_norm.
  rewrite bind_hsa_call_ok, bind_CHECK_HSA_ok by done. world_norm.
  rewrite bind_fresh. world_norm.
  rewrite bind_hsa_call_ok, bind_CHECK_HSA_ok by done. world_norm.
  rewrite bind_hsa_call_ok, bind_CHECK_HSA_ok by done. world_norm.
  rewrite bind_hsa_call_ok, bind_CHECK_HSA_ok by done. world_norm.
  rewrite bind_hsa_call_ok, bind_CHECK_HSA_ok by done. world_norm.
  fold reader. replace (reader + 1) with executable by reflexivity.
  destruct (decide (drv_validate drv executable = 0)).
  - rewrite bind_ret_at, ret_eq. eexists. split; [reflexivity|]. world_norm.
    split; [|split; [done | split; [done | split; [done | lia]]]].
    rewrite <- !app_assoc. reflexivity.
  - unfold debug. rewrite bind_emit, ret_eq. eexists. split; [reflexivity|]. world_norm.
    split; [|split; [done | split; [done | split; [done | lia]]]].
    rewrite <- !app_assoc. reflexivity.
Qed.

Lemma extension_of stem ext :
  contains "." ext = false →
  match rfind "." (stem +:+ "." +:+ ext) with
  | Some ext_pos => substr (ext_pos + 1) (stem +:+ "." +:+ ext)
  | None => ""
  end = ext.
Proof.
  intros H. change ("." +:+ ext) with (String "." ext).
  rewrite rfind_last by done. apply substr_after.
Qed.

Lemma lk_resolve_ok drv dev e kernelname w :
  (∀ i api, drv_status drv i api = HSA_STATUS_SUCCESS) →
  lk_resolve drv dev e kernelname w
  = (Ret (drv_symbol drv e kernelname),
     set_trace (trace w ++ symbol_queries e kernelname) w).
Proof.
  intros Hok. unfold lk_resolve.
  rewrite <- (set_trace_id w) at 1.
  repeat (rewrite bind_hsa_query_ok, bind_CHECK_HSA_ok by done;
          rewrite trace_set_trace, set_trace_set_trace).
  rewrite ret_eq. unfold symbol_queries. rewrite <- !app_assoc. reflexivity.
Qed.

Lemma lk_run_from_publish drv dev filename kernelname w d e :
  0 ≤ dev → devices_ w !! Z.to_nat dev = Some d →
  kernels d !! e = None →
  (∀ i api, drv_status drv i api = HSA_STATUS_SUCCESS) →
  ∃ w',
    lk_run drv 3 dev filename kernelname (LkPublish e) w
    = (Ret (e, drv_symbol drv e kernelname), w') ∧
    trace w' = trace w ++ [EvLock dev; EvUnlock dev] ++ symbol_queries e kernelname
                 ++ [EvLock dev; EvUnlock dev] ∧
    next_handle w' = next_handle w ∧ fs w' = fs w.
Proof.
  intros Hdev Hd Hfresh Hok. cbn [lk_run lk_step].
  pose (d1 := with_programs (<[filename := e]> (programs d)) d).
  pose (d2 := with_kernels (<[e := ∅]> (kernels d1)) d1).
  erewrite (bind_Ret _ _ _ (LkResolve e)).
  2:{ rewrite bind_emit.
      erewrite (bind_Ret _ _ _ d); [|by apply device_eq].
      rewrite bind_update_device. world_norm.
      unfold lk_lookup_kernel.
      erewrite (bind_Ret _ _ _ d1).
      2:{ apply device_eq; [done|]. world_norm.
          rewrite list_lookup_alter_eq, Hd. reflexivity. }
      cbn [kernels d1 with_programs]. rewrite Hfresh. cbn [default from_option id].
      rewrite bind_update_device. world_norm.
      rewrite lookup_empty, bind_emit, ret_eq. world_norm. reflexivity. }
  cbn [lk_run lk_step].
  erewrite (bind_Ret _ _ _ (LkPublishKernel e _)).
  2:{ rewrite (bind_Ret _ _ _ _ _ (lk_resolve_ok _ _ _ _ _ Hok)). apply ret_eq. }
  cbn [lk_run lk_step].
  erewrite (bind_Ret _ _ _ (LkReturn e _)).
  2:{ rewrite bind_emit. world_norm.
      erewrite (bind_Ret _ _ _ d2).
      2:{ apply device_eq; [done|]. world_norm.
          rewrite !list_lookup_alter_eq, Hd. reflexivity. }
      rewrite bind_update_device. world_norm.
      rewrite bind_emit, ret_eq. world_norm. reflexivity. }
  cbn [lk_run]. rewrite ret_eq. eexists. split; [reflexivity|]. world_norm.
  split; [|done]. unfold symbol_queries. rewrite <- !app_assoc. reflexivity.
Qed.

(** X13. [load_kernel] of a [.gcn] file that is not cached, on a driver whose
    calls succeed. The call returns a fresh executable and the kernel the
    driver reports for it; the events are, in order: lock and unlock, the
    reader, the debug line, create, load, freeze, reader destroy, validate
    (with a debug line when validation reports a failure, which does not stop
    the load), lock and unlock, the five symbol queries, lock and unlock.
    Afterwards the file and the kernel are cached. *)
Theorem load_kernel_cold_start_gcn
    (drv : Driver) (dev : Z) (stem kernelname gcn : string) (w : World)
    (d : DeviceData) :
  0 ≤ dev → devices_ w !! Z.to_nat dev = Some d →
  (∀ i api, drv_status drv i api = HSA_STATUS_SUCCESS) →
  let filename := stem +:+ ".gcn" in
  let reader := next_handle w in
  let executable := next_handle w + 1 in
  let k := drv_symbol drv executable kernelname in
  programs d !! filename = None →
  kernels d !! executable = None →
  load_file filename w = (Ret gcn, w) →
  ∃ w',
    load_kernel_executable drv dev filename kernelname w = (Ret (executable, k), w') ∧
    trace w' = trace w
      ++ [EvLock dev; EvUnlock dev;
          EvHsa hsa_code_object_reader_create_from_memory [Z.of_nat (String.length gcn)];
          EvDebug ("Compiling '" +:+ filename +:+ "' on HSA device " +:+ to_string dev);
          EvHsa hsa_executable_create_alt [HSA_PROFILE_FULL; float_mode d];
          EvHsa hsa_executable_load_agent_code_object [executable; agent d; reader];
          EvHsa hsa_executable_freeze [executable];
          EvHsa hsa_code_object_reader_destroy [reader];
          EvHsa hsa_executable_validate [executable]]
      ++ (if decide (drv_validate drv executable = 0) then []
          else [EvDebug "HSA executable validation failed"])
      ++ [EvLock dev; EvUnlock dev] ++ symbol_queries executable kernelname
      ++ [EvLock dev; EvUnlock dev] ∧
    lk_inv dev filename kernelname w' (LkReturn executable k) ∧
    next_handle w' = next_handle w + 2.
Proof.
  intros Hdev Hd Hok filename reader executable k Hmiss Hfresh Hload.
  rewrite (load_kernel_miss drv dev filename kernelname w d) by done.
  set (w0 := set_trace (trace w ++ [EvLock dev; EvUnlock dev]) w).
  assert (load_file filename w0 = (Ret gcn, w0)) as Hload0.
  { rewrite load_file_eq in Hload |- *. unfold w0. world_norm.
    destruct (files_ w !! filename); [by injection Hload as -> |].
    destruct (fs w !! filename); [by injection Hload as -> | discriminate]. }
  destruct (lk_compile_ok drv dev filename w0 d "gcn" gcn w0)
    as (w1 & Hcompile & Htr1 & Hdev1 & _ & _ & Hnext1);
    [done | done | done | apply (extension_of stem "gcn"); reflexivity | | by left |].
  { rewrite load_file_eq in Hload. unfold w0. world_norm.
    destruct (files_ w !! filename); [right; eauto|].
    destruct (fs w !! filename); [left; eauto | discriminate]. }
  cbn [lk_step].
  erewrite (bind_Ret _ _ _ (LkPublish executable));
    [|rewrite (bind_Ret _ _ _ _ _ Hcompile); reflexivity].
  destruct (lk_run_from_publish drv dev filename kernelname w1 d executable)
    as (w2 & Hrun & Htr2 & Hnext2 & _); [done | by rewrite Hdev1 | done | done |].
  exists w2. split; [exact Hrun|]. split; [|split].
  - rewrite Htr2, Htr1. unfold w0. world_norm. rewrite <- !app_assoc. reflexivity.
  - by apply (lk_run_cached drv dev filename kernelname 3 (LkPublish executable) w1).
  - rewrite Hnext2, Hnext1. reflexivity.
Qed.

Lemma load_kernel_cold_start_gcn_witness :
  ∃ w', load_kernel_executable drv_ok 0 "k.gcn" "main" w_ready
        = (Ret (6, (24576, 40, 0, 0)), w') ∧
        next_handle w' = 7.
Proof.
  edestruct (load_kernel_cold_start_gcn drv_ok 0 "k" "main" "ELF" w_ready)
    as (w' & Hrun & _ & _ & Hn).
  - lia.
  - vm_compute. reflexivity.
  - intros i api. reflexivity.
  - vm_compute. reflexivity.
  - vm_compute. reflexivity.
  - vm_compute. reflexivity.
  - exists w'. split; [exact Hrun | rewrite Hn; vm_compute; reflexivity].
Defined.

(** ** Discovery against a driver whose checked calls succeed *)


Lemma bind_hsa_query_checked {B} drv api h what (k : Z → M B) w :
  checked_calls_succeed drv → api ≠ hsa_isa_get_info_alt →
  bind (hsa_query drv api h what) k w
  = k HSA_STATUS_SUCCESS (set_trace (trace w ++ [EvQuery api h what]) w).
Proof. intros H Hne. rewrite (bind_Ret _ _ _ _ _ (hsa_query_eq _ _ _ _ _)). by rewrite H. Qed.


Lemma iterate_regions_callback_ok drv region dev w d :
  checked_calls_succeed drv →
  0 ≤ dev → devices_ w !! Z.to_nat dev = Some d →
  ∃ w', iterate_regions_callback drv region dev w = (Ret HSA_STATUS_SUCCESS, w') ∧
        queues w' = queues w ∧ signals w' = signals w ∧
        next_handle w' = next_handle w ∧ frequency_ w' = frequency_ w ∧
        length (devices_ w') = length (devices_ w).
Proof.
  intros Hok Hdev Hd. unfold iterate_regions_callback, debug.
  rewrite bind_hsa_query_checked, bind_CHECK_HSA_ok by done.
  rewrite bind_emit.
  rewrite bind_hsa_query_checked, bind_CHECK_HSA_ok by done.
  erewrite (bind_Ret _ _ _ d); [|by apply device_eq].
  rewrite bind_update_device, bind_emit.
  rewrite bind_hsa_query_checked, bind_CHECK_HSA_ok by done.
  rewrite bind_emit, ret_eq.
  eexists. split; [reflexivity|]. world_norm.
  rewrite length_alter. done.
Qed.

Lemma iterate_regions_ok drv regions dev :
  checked_calls_succeed drv → 0 ≤ dev →
  ∀ w d, devices_ w !! Z.to_nat dev = Some d →
    ∃ w', iterate_regions drv regions dev w = (Ret HSA_STATUS_SUCCESS, w') ∧
          queues w' = queues w ∧ signals w' = signals w ∧
          next_handle w' = next_handle w ∧ frequency_ w' = frequency_ w ∧
          length (devices_ w') = length (devices_ w).
Proof.
  intros Hok Hdev. induction regions as [|r regions IH]; intros w d Hd;
    cbn [iterate_regions].
  - exists w. done.
  - destruct (iterate_regions_callback_ok drv r dev w d Hok Hdev Hd)
      as (w1 & Hcb & Hq1 & Hs1 & Hn1 & Hf1 & Hl1).
    rewrite (bind_Ret _ _ _ _ _ Hcb).
    destruct (decide _) as [_|]; [|done].
    assert (is_Some (devices_ w1 !! Z.to_nat dev)) as [d1 Hd1].
    { apply lookup_lt_is_Some. rewrite Hl1. by eapply lookup_lt_Some. }
    destruct (IH w1 d1 Hd1) as (w2 & Hrun & Hq2 & Hs2 & Hn2 & Hf2 & Hl2).
    exists w2. split; [done|]. by rewrite Hq2, Hs2, Hn2, Hf2, Hl2.
Qed.

(** X14. Region discovery. Against a driver whose checked calls succeed the
    iteration returns success; and whenever it returns, each of the three
    region slots of the device holds the last region, in iteration order,
    whose global flags carry the slot's flag, or its previous value when no
    region does; nothing else of the device list changes. *)
Theorem iterate_regions_last_flagged_region_wins
    (drv : Driver) (regions : list RegionInfo) (dev : Z) (w : World) (d : DeviceData) :
  0 ≤ dev → devices_ w !! Z.to_nat dev = Some d →
  let d' :=
    with_regions
      (region_for HSA_REGION_GLOBAL_FLAG_KERNARG regions (kernarg_region d))
      (region_for HSA_REGION_GLOBAL_FLAG_FINE_GRAINED regions (finegrained_region d))
      (region_for HSA_REGION_GLOBAL_FLAG_COARSE_GRAINED regions (coarsegrained_region d))
      d in
  (checked_calls_succeed drv →
   fst (iterate_regions drv regions dev w) = Ret HSA_STATUS_SUCCESS) ∧
  (∀ st w', iterate_regions drv regions dev w = (Ret st, w') →
            st = HSA_STATUS_SUCCESS ∧
            devices_ w' = <[Z.to_nat dev := d']> (devices_ w)).
Proof.
  intros Hdev Hd d'. split.
  - intros Hok.
    destruct (iterate_regions_ok drv regions dev Hok Hdev w d Hd) as (w' & Hrun & _).
    by rewrite Hrun.
  - intros st w' Hrun. by apply (iterate_regions_inv drv regions dev w w' st d).
Qed.

Lemma iterate_regions_last_flagged_region_wins_witness :
  ∃ d, devices_ (snd (iterate_regions drv_ok (a_regions gpu_agent) 0 w_discovered))
       !! 0%nat = Some d ∧
       kernarg_region d = 501 ∧ finegrained_region d = 501 ∧
       coarsegrained_region d = 502.
Proof.
  edestruct (iterate_regions_last_flagged_region_wins drv_ok (a_regions gpu_agent) 0
               w_discovered) as (_ & Hinv).
  - lia.
  - vm_compute. reflexivity.
  - destruct (Hinv HSA_STATUS_SUCCESS
                (snd (iterate_regions drv_ok (a_regions gpu_agent) 0 w_discovered)))
      as (_ & Hdevs).
    + vm_compute. reflexivity.
    + eexists. split; [rewrite Hdevs; vm_compute; reflexivity|].
      vm_compute. repeat split; reflexivity.
Defined.










(** ** A launch of a cached kernel *)

Lemma preserves_pack_args {B} (proj : World → B) kernarg sizes :
  (∀ m w, proj (set_mem m w) = proj w) →
  (∀ t w, proj (set_trace t w) = proj w) →
  ∀ args base, preserves proj (pack_args kernarg args sizes base).
Proof.
  intros Hmem Htrace.
  induction sizes as [|s sizes IH]; intros [|a args] base; cbn [pack_args];
    try (intros ?; reflexivity).
  apply preserves_bind; [preserves_auto|]. intros o.
  apply preserves_bind; [|intros; apply IH].
  unfold memcpy. apply preserves_bind; [intros w; apply Htrace|].
  intros _ w. apply Hmem.
Qed.

Lemma emits_pack_args_not_free kernarg sizes :
  ∀ args base, emits not_free (pack_args kernarg args sizes base).
Proof.
  induction sizes as [|s sizes IH]; intros [|a args] base; cbn [pack_args];
    try apply emits_ret.
  emits_step; [emits_auto|]. emits_step; [emits_auto|]. apply IH.
Qed.

Lemma emits_lk_run_not_free drv fuel dev filename kernelname :
  ∀ pc, emits not_free (lk_run drv fuel dev filename kernelname pc).
Proof.
  assert (∀ pc, emits not_free (lk_step drv dev filename kernelname pc)) as Hstep.
  { intros pc. destruct pc; cbn [lk_step]; emits_auto. }
  induction fuel as [|fuel IH]; intros pc.
  - destruct pc; cbn [lk_run]; emits_auto.
  - destruct pc; cbn [lk_run]; try apply emits_ret;
      (apply emits_bind; [apply Hstep | intros; apply IH]).
Qed.

Lemma emits_launch_kernel_not_free drv dev file name grid block args sizes :
  emits not_free (launch_kernel drv dev file name grid block args sizes).
Proof.
  unfold launch_kernel.
  emits_step; [emits_auto|]. emits_step; [emits_auto|].
  emits_step.
  { unfold load_kernel. emits_step; [apply emits_lk_run_not_free | emits_auto]. }
  emits_step; [emits_auto|]. emits_step; [emits_auto|].
  emits_step.
  emits_step; [emits_auto|].
  emits_step.
  { destruct (within_segment _ _ _ _); [apply emits_pack_args_not_free|].
    apply emits_undefined. }
  emits_step; [emits_auto|].
  destruct a1 as [[[kernel ks] gs] ps], grid as [[g0 g1] g2], block as [[b0 b1] b2].
  unfold dispatch. emits_auto.
Qed.

(** A cached kernel, a queue and a driver that answers success: the launch
    reaches the packing loop, and from there the command queue. *)
Lemma launch_kernel_past_segment
    drv dev hq file name grid block args sizes w d e k :
  0 ≤ dev → devices_ w !! Z.to_nat dev = Some d → queue d = Some hq →
  (∀ i api, drv_status drv i api = HSA_STATUS_SUCCESS) →
  lk_inv dev file name w (LkReturn e k) →
  within_segment (kernarg_size k) args sizes 0 = false →
  fst (launch_kernel drv dev file name grid block args sizes w)
  = Undefined "memcpy past the kernarg segment".
Proof.
  intros Hdev Hd Hqueue Hok Hcached Hwithin.
  unfold launch_kernel.
  erewrite (bind_Ret _ _ _ d); [|by apply device_eq].
  rewrite Hqueue, bind_ret_at.
  unfold load_kernel.
  pose proof (lk_run_hit drv dev file name 4 w e k Hcached) as Hhit.
  erewrite (bind_Ret _ _ _ k); [|rewrite (bind_Ret _ _ _ _ _ Hhit); reflexivity].
  erewrite (bind_Ret _ _ _ d); [|by apply device_eq].
  rewrite bind_unfold, memory_allocate_eq. cbv zeta. rewrite Hok.
  destruct (decide (HSA_STATUS_SUCCESS = HSA_STATUS_SUCCESS)) as [_|]; [|done].
  rewrite bind_CHECK_HSA_ok, Hwithin. reflexivity.
Qed.

Lemma launch_kernel_cached_run
    drv dev hq file name grid block args sizes w d qd n e k :
  0 ≤ dev → devices_ w !! Z.to_nat dev = Some d → queue d = Some hq →
  queues w !! hq = Some qd → q_size qd = 2 ^ n → 0 ≤ n < 32 →
  (∀ i api, drv_status drv i api = HSA_STATUS_SUCCESS) →
  lk_inv dev file name w (LkReturn e k) →
  length args = length sizes →
  Forall (λ s, 0 < s) sizes →
  packed_bound sizes < 2 ^ 64 →
  within_segment (kernarg_size k) args sizes 0 = true →
  let kernarg := next_handle w in
  ∃ offsets total tail w',
    launch_kernel drv dev file name grid block args sizes w = (Ret tt, w') ∧
    packed_layout 0 sizes offsets total ∧
    Forall2 (λ o s, o + s ≤ kernarg_size k) offsets sizes ∧
    trace w' = trace w
      ++ [EvLock dev; EvUnlock dev;
          EvHsa hsa_memory_allocate [kernarg_region d; kernarg_size k]]
      ++ copies kernarg offsets args sizes
      ++ (if decide (total = kernarg_size k) then []
          else [EvDebug ("HSA kernarg segment size for kernel '" +:+ name +:+
                         "' differs from argument size: " +:+
                         to_string (kernarg_size k) +:+ " vs. " +:+ to_string total)])
      ++ EvHsa hsa_signal_add_relaxed [signal d; 1] :: tail ∧
    EvPacketWrite hq (q_write_index qd mod q_size qd)
      (launch_packet k kernarg grid block
         (if profiling_enabled w then next_handle w + Z.max (kernarg_size k) 1
          else signal d)) ∈ tail ∧
    Forall (λ ev, is_free ev = false) tail.
Proof.
  intros Hdev Hd Hqueue Hq Hsize Hn Hok Hcached Hlen Hpos Hfit Hwithin kernarg.
  destruct (emits_launch_kernel_not_free drv dev file name grid block args sizes w)
    as (added & Hadded & Hnofree).
  unfold launch_kernel in *.
  erewrite (bind_Ret _ _ _ d) in Hadded |- *; [|by apply device_eq..].
  rewrite Hqueue, bind_ret_at in Hadded |- *.
  unfold load_kernel in Hadded |- *.
  pose proof (lk_run_hit drv dev file name 4 w e k Hcached) as Hhit.
  erewrite (bind_Ret _ _ _ k) in Hadded |- *;
    [|rewrite (bind_Ret _ _ _ _ _ Hhit); reflexivity..].
  set (w1 := set_trace (trace w ++ [EvLock dev; EvUnlock dev]) w) in *.
  erewrite (bind_Ret _ _ _ d) in Hadded |- *; [|by apply device_eq..].
  rewrite bind_unfold, memory_allocate_eq in Hadded |- *. cbv zeta in Hadded |- *.
  rewrite Hok in Hadded |- *.
  destruct (decide (HSA_STATUS_SUCCESS = HSA_STATUS_SUCCESS)) as [_|]; [|done].
  rewrite bind_CHECK_HSA_ok in Hadded |- *.
  rewrite Hwithin in Hadded |- *.
  match type of Hadded with context [bind (pack_args _ _ _ _) _ ?x] => set (w2 := x) in * end.
  destruct (pack_args_from (next_handle w1) sizes args 0 w2)
    as (offsets & total & w3 & Hpack & Htr3 & Hlay & _ & _ & _ & Hinside);
    [done | done | lia | lia |].
  rewrite (bind_Ret _ _ _ _ _ Hpack) in Hadded |- *.
  pose proof (preserves_pack_args devices_ (next_handle w1) sizes
                ltac:(done) ltac:(done) args 0 w2) as Hd3.
  pose proof (preserves_pack_args queues (next_handle w1) sizes
                ltac:(done) ltac:(done) args 0 w2) as Hq3.
  pose proof (preserves_pack_args profiling_enabled (next_handle w1) sizes
                ltac:(done) ltac:(done) args 0 w2) as Hp3.
  pose proof (preserves_pack_args next_handle (next_handle w1) sizes
                ltac:(done) ltac:(done) args 0 w2) as Hn3.
  rewrite Hpack in Hd3, Hq3, Hp3, Hn3. cbn [snd] in Hd3, Hq3, Hp3, Hn3.
  set (log := if decide (total = kernarg_size k) then []
              else [EvDebug ("HSA kernarg segment size for kernel '" +:+ name +:+
                             "' differs from argument size: " +:+
                             to_string (kernarg_size k) +:+ " vs. " +:+ to_string total)]).
  assert (∃ w4, (if decide (total = kernarg_size k) then ret tt
                 else debug ("HSA kernarg segment size for kernel '" +:+ name +:+
                             "' differs from argument size: " +:+
                             to_string (kernarg_size k) +:+ " vs. " +:+ to_string total)) w3
                = (Ret tt, w4) ∧
                trace w4 = trace w3 ++ log ∧ devices_ w4 = devices_ w3 ∧
                queues w4 = queues w3 ∧ profiling_enabled w4 = profiling_enabled w3 ∧
                next_handle w4 = next_handle w3)
    as (w4 & Hlog & Htr4 & Hd4 & Hq4 & Hp4 & Hn4).
  { unfold log. destruct (decide _).
    - exists w3. rewrite app_nil_r. done.
    - eexists. split; [apply emit_eq|]. done. }
  rewrite (bind_Ret _ _ _ _ _ Hlog) in Hadded |- *.
  destruct (dispatch_packet drv dev hq k (next_handle w1) grid block w4 d qd n)
    as (tail & w5 & Hrun & Htr5 & Hin & _ & _);
    [done | by rewrite Hd4, Hd3 | by rewrite Hq4, Hq3 | done | done | by intros; apply Hok |].
  rewrite Hrun in Hadded |- *. cbn [snd] in Hadded.
  exists offsets, total, tail, w5. split; [reflexivity|]. split; [exact Hlay|].
  split; [by apply Hinside|].
  assert (trace w5 = trace w
      ++ [EvLock dev; EvUnlock dev;
          EvHsa hsa_memory_allocate [kernarg_region d; kernarg_size k]]
      ++ copies kernarg offsets args sizes
      ++ log ++ EvHsa hsa_signal_add_relaxed [signal d; 1] :: tail) as Htrace.
  { rewrite Htr5, Htr4, Htr3. unfold w2, w1. world_norm.
    rewrite <- !app_assoc. reflexivity. }
  split; [exact Htrace|]. split.
  - rewrite Hp4, Hp3, Hn4, Hn3 in Hin. exact Hin.
  - rewrite Htrace in Hadded. apply app_inv_head in Hadded. subst added.
    rewrite !Forall_app in Hnofree. destruct Hnofree as (_ & _ & _ & Hnofree).
    apply Forall_cons in Hnofree as [_ Hnofree].
    eapply Forall_impl; [exact Hnofree|]. intros ev. unfold not_free.
    by destruct (is_free ev).
Qed.

(** X17. [launch_kernel] of a cached kernel on a device with a queue, with a
    driver that answers success and argument sizes of at least 1. The block
    for the arguments has the size the kernel reports, not the size the
    arguments need. When a copy of the packing loop would end past that block
    the launch is undefined. Otherwise the launch returns: it takes and
    releases the lock, allocates the block, copies every argument to its
    packed offset inside the block, logs a debug line exactly when the packed
    size differs from the kernel's (and goes on), raises the device signal and
    submits the packet with that kernarg address. The block is never freed. *)
Theorem launch_kernel_with_cached_kernel
    (drv : Driver) (dev hq : Z) (file name : string) (grid block : dim3)
    (args sizes : list Z) (w : World) (d : DeviceData) (qd : hsa_queue_t)
    (n e : Z) (k : kernel_info) :
  0 ≤ dev → devices_ w !! Z.to_nat dev = Some d → queue d = Some hq →
  queues w !! hq = Some qd → q_size qd = 2 ^ n → 0 ≤ n < 32 →
  (∀ i api, drv_status drv i api = HSA_STATUS_SUCCESS) →
  lk_inv dev file name w (LkReturn e k) →
  length args = length sizes →
  Forall (λ s, 0 < s) sizes →
  packed_bound sizes < 2 ^ 64 →
  let kernarg := next_handle w in
  (within_segment (kernarg_size k) args sizes 0 = false →
   fst (launch_kernel drv dev file name grid block args sizes w)
   = Undefined "memcpy past the kernarg segment") ∧
  (within_segment (kernarg_size k) args sizes 0 = true →
   ∃ offsets total tail w',
     launch_kernel drv dev file name grid block args sizes w = (Ret tt, w') ∧
     packed_layout 0 sizes offsets total ∧
     Forall2 (λ o s, o + s ≤ kernarg_size k) offsets sizes ∧
     trace w' = trace w
       ++ [EvLock dev; EvUnlock dev;
           EvHsa hsa_memory_allocate [kernarg_region d; kernarg_size k]]
       ++ copies kernarg offsets args sizes
       ++ (if decide (total = kernarg_size k) then []
           else [EvDebug ("HSA kernarg segment size for kernel '" +:+ name +:+
                          "' differs from argument size: " +:+
                          to_string (kernarg_size k) +:+ " vs. " +:+ to_string total)])
       ++ EvHsa hsa_signal_add_relaxed [signal d; 1] :: tail ∧
     EvPacketWrite hq (q_write_index qd mod q_size qd)
       (launch_packet k kernarg grid block
          (if profiling_enabled w then next_handle w + Z.max (kernarg_size k) 1
           else signal d)) ∈ tail ∧
     Forall (λ ev, is_free ev = false) tail).
Proof.
  intros Hdev Hd Hqueue Hq Hsize Hn Hok Hcached Hlen Hpos Hfit kernarg. split.
  - intros Hpast. by eapply launch_kernel_past_segment.
  - intros Hwithin. by eapply launch_kernel_cached_run.
Qed.

Lemma launch_kernel_with_cached_kernel_witness :
  fst (launch_kernel drv_ok 0 "k.gcn" "main" (256, 1, 1) (64, 1, 1)
         [100; 200; 300; 400] [16; 16; 16; 16] w_loaded)
  = Undefined "memcpy past the kernarg segment" ∧
  ∃ tail w',
    launch_kernel drv_ok 0 "k.gcn" "main" (256, 1, 1) (64, 1, 1) [100; 200] [4; 8]
      w_loaded = (Ret tt, w') ∧
    EvPacketWrite 1 0 (launch_packet (24576, 40, 0, 0) 7 (256, 1, 1) (64, 1, 1) 3)
      ∈ tail ∧
    Forall (λ ev, is_free ev = false) tail.
Proof.
  assert (lk_inv 0 "k.gcn" "main" w_loaded (LkReturn 6 (24576, 40, 0, 0))) as Hcached.
  { split; [lia|]. eexists. split; [vm_compute; reflexivity|].
    split; [vm_compute; reflexivity|].
    eexists. split; vm_compute; reflexivity. }
  split.
  - edestruct (launch_kernel_with_cached_kernel drv_ok 0 1 "k.gcn" "main" (256, 1, 1)
                 (64, 1, 1) [100; 200; 300; 400] [16; 16; 16; 16] w_loaded)
      with (n := 3) as (Hpast & _).
    + lia.
    + vm_compute. reflexivity.
    + vm_compute. reflexivity.
    + vm_compute. reflexivity.
    + reflexivity.
    + lia.
    + intros i api. reflexivity.
    + exact Hcached.
    + reflexivity.
    + repeat constructor; lia.
    + vm_compute. reflexivity.
    + apply Hpast. vm_compute. reflexivity.
  - edestruct (launch_kernel_with_cached_kernel drv_ok 0 1 "k.gcn" "main" (256, 1, 1)
                 (64, 1, 1) [100; 200] [4; 8] w_loaded) with (n := 3) as (_ & Hrun).
    + lia.
    + vm_compute. reflexivity.
    + vm_compute. reflexivity.
    + vm_compute. reflexivity.
    + reflexivity.
    + lia.
    + intros i api. reflexivity.
    + exact Hcached.
    + reflexivity.
    + repeat constructor; lia.
    + vm_compute. reflexivity.
    + destruct Hrun as (offsets & total & tail & w' & Hrun & _ & _ & _ & Hin & Hfree).
      { vm_compute. reflexivity. }
      exists tail, w'. split; [exact Hrun|]. split; [exact Hin | exact Hfree].
Defined.

(** ** Launches wait only on the CUDA path *)




(** ** Status checks, [release] and [copy] *)




(** ** [load_kernel]: further kernels and the [.amdgpu] path *)

(** X20. [load_kernel] for a kernel not yet cached of a file that is: the
    executable of the file is reused, the events are lock and unlock, the five
    symbol queries, lock and unlock; the kernel the driver reports is returned
    and added to the kernel map of that executable, whose other entries stay;
    no handle is allocated. *)
Theorem load_kernel_second_kernel_of_cached_file
    (drv : Driver) (dev : Z) (filename kernelname : string) (w : World)
    (d : DeviceData) (e : Z) :
  0 ≤ dev → devices_ w !! Z.to_nat dev = Some d →
  programs d !! filename = Some e →
  let km := default ∅ (kernels d !! e) in
  km !! kernelname = None →
  (∀ i api, drv_status drv i api = HSA_STATUS_SUCCESS) →
  let k := drv_symbol drv e kernelname in
  ∃ w',
    load_kernel_executable drv dev filename kernelname w = (Ret (e, k), w') ∧
    trace w' = trace w ++ [EvLock dev; EvUnlock dev] ++ symbol_queries e kernelname
                 ++ [EvLock dev; EvUnlock dev] ∧
    devices_ w'
    = <[Z.to_nat dev := with_kernels (<[e := <[kernelname := k]> km]> (kernels d)) d]>
        (devices_ w) ∧
    next_handle w' = next_handle w.
Proof.
  intros Hdev Hd Hprog km Hmiss Hok k.
  unfold load_kernel_executable. cbn [lk_run lk_step].
  pose (d1 := with_kernels (<[e := km]> (kernels d)) d).
  erewrite (bind_Ret _ _ _ (LkResolve e)).
  2:{ rewrite bind_emit.
      erewrite (bind_Ret _ _ _ d); [|by apply device_eq].
      rewrite Hprog. unfold lk_lookup_kernel.
      erewrite (bind_Ret _ _ _ d); [|by apply device_eq].
      rewrite bind_update_device. world_norm. fold km. rewrite Hmiss.
      rewrite bind_emit, ret_eq. world_norm. reflexivity. }
  cbn [lk_run lk_step].
  erewrite (bind_Ret _ _ _ (LkPublishKernel e _)).
  2:{ rewrite (bind_Ret _ _ _ _ _ (lk_resolve_ok _ _ _ _ _ Hok)). apply ret_eq. }
  cbn [lk_run lk_step].
  erewrite (bind_Ret _ _ _ (LkReturn e _)).
  2:{ rewrite bind_emit. world_norm.
      erewrite (bind_Ret _ _ _ d1).
      2:{ apply device_eq; [done|]. world_norm.
          rewrite !list_lookup_alter_eq, Hd. reflexivity. }
      rewrite bind_update_device. world_norm.
      rewrite bind_emit, ret_eq. world_norm. reflexivity. }
  cbn [lk_run]. rewrite ret_eq. eexists. split; [reflexivity|]. world_norm.
  split; [|split; [|done]].
  - unfold symbol_queries. rewrite <- !app_assoc. reflexivity.
  - apply list_eq. intros j. destruct (decide (Z.to_nat dev = j)) as [<-|Hne].
    + rewrite !list_lookup_alter_eq, list_lookup_insert_eq by (by eapply lookup_lt_Some).
      rewrite Hd. cbn [fmap option_fmap option_map with_kernels kernels d1].
      rewrite lookup_insert_eq. cbn [default from_option id].
      unfold emplace. rewrite Hmiss. rewrite insert_insert_eq.
      by destruct d.
    + by rewrite !list_lookup_alter_ne, list_lookup_insert_ne.
Qed.

Lemma load_kernel_second_kernel_of_cached_file_witness :
  ∃ w', load_kernel_executable drv_ok 0 "k.gcn" "other" w_loaded
        = (Ret (6, (24576, 40, 0, 0)), w') ∧
        next_handle w' = next_handle w_loaded.
Proof.
  edestruct (load_kernel_second_kernel_of_cached_file drv_ok 0 "k.gcn" "other" w_loaded)
    as (w' & Hrun & _ & _ & Hn).
  - lia.
  - vm_compute. reflexivity.
  - vm_compute. reflexivity.
  - vm_compute. reflexivity.
  - intros i api. reflexivity.
  - exists w'. split; [exact Hrun | exact Hn].
Defined.

(** X21. [load_kernel] of an [.amdgpu] file that is not cached, every stage
    succeeding. The file is compiled by the GCN pipeline for the device's ISA
    at optimisation level 3, the object and linked files are written, the
    executable is built from the linked text, and the file and kernel are
    cached. *)
Theorem load_kernel_cold_start_amdgpu
    (drv : Driver) (dev : Z) (stem kernelname text gcn : string) (w : World)
    (d : DeviceData) (ds : list Z) (tail : string) :
  0 ≤ dev → devices_ w !! Z.to_nat dev = Some d →
  (∀ i api, drv_status drv i api = HSA_STATUS_SUCCESS) →
  let filename := stem +:+ ".amdgpu" in
  let cpu := "gfx" +:+ digit_string ds +:+ tail in
  let obj := llvm_codegen drv text cpu in
  let reader := next_handle w in
  let executable := next_handle w + 1 in
  let k := drv_symbol drv executable kernelname in
  programs d !! filename = None →
  kernels d !! executable = None →
  load_file filename w = (Ret text, w) →
  isa d = cpu →
  ds ≠ [] → Forall (λ x, 0 ≤ x ≤ 9) ds → starts_with_digit tail = false →
  digits_value ds ≤ INT_MAX →
  llvm_parse_ok drv text = true →
  llvm_target_ok drv (llvm_triple drv text) = true →
  llvm_file_ok drv "/opt/rocm/lib/ocml.amdgcn.bc" = true →
  llvm_file_ok drv "/opt/rocm/lib/irif.amdgcn.bc" = true →
  llvm_parse_ok drv (get_ocml_config (digits_value ds)) = true →
  (∀ what, llvm_link_fails drv what = false) →
  fs_writable drv (filename +:+ ".obj") = true →
  ld_lld drv obj = Some gcn →
  let linked := default gcn (files_ w !! (filename +:+ ".gcn")) in
  ∃ w',
    load_kernel_executable drv dev filename kernelname w = (Ret (executable, k), w') ∧
    trace w' = trace w
      ++ [EvLock dev; EvUnlock dev;
          EvDebug ("Compiling AMDGPU to GCN using amdgpu for '" +:+ filename +:+
                   "' on HSA device " +:+ to_string dev)]
      ++ gcn_pipeline drv text cpu filename 3 (digits_value ds)
      ++ [EvHsa hsa_code_object_reader_create_from_memory
            [Z.of_nat (String.length linked)];
          EvDebug ("Compiling '" +:+ filename +:+ "' on HSA device " +:+ to_string dev);
          EvHsa hsa_executable_create_alt [HSA_PROFILE_FULL; float_mode d];
          EvHsa hsa_executable_load_agent_code_object [executable; agent d; reader];
          EvHsa hsa_executable_freeze [executable];
          EvHsa hsa_code_object_reader_destroy [reader];
          EvHsa hsa_executable_validate [executable]]
      ++ (if decide (drv_validate drv executable = 0) then []
          else [EvDebug "HSA executable validation failed"])
      ++ [EvLock dev; EvUnlock dev] ++ symbol_queries executable kernelname
      ++ [EvLock dev; EvUnlock dev] ∧
    fs w' = <[filename +:+ ".gcn" := gcn]> (<[filename +:+ ".obj" := obj]> (fs w)) ∧
    lk_inv dev filename kernelname w' (LkReturn executable k).
Proof.
  intros Hdev Hd Hok filename cpu obj reader executable k Hmiss Hfresh Hload Hisa
    Hne Hds Htail Hmax Hparse Htarget Hocml Hirif Hconfig Hlink Hwr Hlld linked.
  rewrite (load_kernel_miss drv dev filename kernelname w d) by done.
  set (w0 := set_trace (trace w ++ [EvLock dev; EvUnlock dev]) w).
  assert (load_file filename w0 = (Ret text, w0)) as Hload0.
  { rewrite load_file_eq in Hload |- *. unfold w0. world_norm.
    destruct (files_ w !! filename); [by injection Hload as -> |].
    destruct (fs w !! filename); [by injection Hload as -> | discriminate]. }
  assert (compare_prefix_eq (isa d) 3 "gfx" = true) as Hcpu.
  { rewrite Hisa. apply compare_prefix_gfx. by eexists. }
  assert (stoi (substr 3 (isa d)) = Some (digits_value ds)) as Hstoi.
  { rewrite Hisa. unfold cpu. rewrite substr_gfx. by apply stoi_numeral. }
  pose proof (compile_gcn_accepted drv dev text filename w0 d (digits_value ds) gcn
                Hdev Hd Hcpu Hstoi Hparse Htarget Hocml Hirif Hconfig Hlink Hwr) as Hcompile.
  rewrite Hisa in Hcompile. specialize (Hcompile Hlld).
  match type of Hcompile with _ = (_, ?x) => set (wg := x) in Hcompile end.
  destruct (lk_compile_ok drv dev filename w0 d "amdgpu" linked wg)
    as (w1 & Hlk & Htr1 & Hdev1 & Hfs1 & _ & Hnext1);
    [done | done | done | apply (extension_of stem "amdgpu"); reflexivity | | |].
  { rewrite load_file_eq in Hload. unfold w0. world_norm.
    destruct (files_ w !! filename); [right; eauto|].
    destruct (fs w !! filename); [left; eauto | discriminate]. }
  { right. split; [done|]. rewrite (bind_Ret _ _ _ _ _ Hload0). exact Hcompile. }
  cbn [lk_step].
  erewrite (bind_Ret _ _ _ (LkPublish executable));
    [|rewrite (bind_Ret _ _ _ _ _ Hlk); reflexivity].
  destruct (lk_run_from_publish drv dev filename kernelname w1 d executable)
    as (w2 & Hrun & Htr2 & Hnext2 & Hfs2); [done | by rewrite Hdev1 | done | done |].
  exists w2. split; [exact Hrun|]. split; [|split].
  - rewrite Htr2, Htr1. unfold wg, w0. world_norm. rewrite <- !app_assoc. reflexivity.
  - rewrite Hfs2, Hfs1. reflexivity.
  - by apply (lk_run_cached drv dev filename kernelname 3 (LkPublish executable) w1).
Qed.

Lemma load_kernel_cold_start_amdgpu_witness :
  ∃ w', load_kernel_executable drv_ok 0 "k.amdgpu" "main" w_jit
        = (Ret (6, (24576, 40, 0, 0)), w') ∧
        fs w' !! "k.amdgpu.gcn" = Some "ir".
Proof.
  edestruct (load_kernel_cold_start_amdgpu drv_ok 0 "k" "main" "ir" "ir" w_jit)
    with (ds := [8; 0; 3]) (tail := EmptyString)
    as (w' & Hrun & _ & Hfs & _).
  - lia.
  - vm_compute. reflexivity.
  - intros i api. reflexivity.
  - vm_compute. reflexivity.
  - vm_compute. reflexivity.
  - vm_compute. reflexivity.
  - vm_compute. reflexivity.
  - discriminate.
  - repeat constructor; lia.
  - reflexivity.
  - vm_compute. discriminate.
  - reflexivity.
  - reflexivity.
  - reflexivity.
  - reflexivity.
  - reflexivity.
  - intros what. reflexivity.
  - reflexivity.
  - reflexivity.
  - exists w'. split; [exact Hrun|]. rewrite Hfs. apply lookup_insert_eq.
Defined.
